(** * Pothole reporter: address interpolation, grid estimate, address
      composition and report building

    Shallow embedding of [src/api/worker.ts] (the "POTHOLE LA" worker:
    router, image and page routes, report builder, and the script of its
    page: address composer, interpolator, grid estimator), of the address
    composers of the two sibling page scripts ("Fix My Street" and
    "Pothole Hunter") and of the report builder of the "Fix My Street"
    worker.

    Conventions of the embedding.

    - A JavaScript number that is known to be finite is a real number
      ([R]); binary64 rounding error and overflow are outside the model.
      Where the code can leave the finite numbers (the division in
      [interpolateAddress]) the value lives in [ext R], which adds [NaN]
      and the two infinities.  Zero is the positive zero: every zero the
      embedded code divides by comes out of [Math.hypot].
    - Integers (results of [parseInt], [Math.round], [Math.floor]) are [Z].
    - Strings are [string]: the bytes of the text in (generalised) UTF-8,
      where a surrogate code unit that is not half of a pair takes the
      three bytes ED A0..BF 80..BF.  Every concatenation of the embedded
      code has an ASCII literal between its variable parts, so it is the
      concatenation of the bytes.
    - [await fetch(..)] / [res.json()] are inputs of the functions: the
      value the promise resolves to, or the fact that it rejected.
    - [Math.random()], [Date.now()] and the date renderings are inputs
      too. *)

From Stdlib Require Import Reals Lra Lia ZArith String Ascii List Bool DecimalString.
From Stdlib Require Import Sorted Permutation.
From stdpp Require Import base gmap strings.
Import ListNotations.

Local Open Scope string_scope.
Local Open Scope Z_scope.
Local Open Scope R_scope.

(** ** JavaScript numbers *)

Inductive ext (A : Type) : Type :=
  | NaN
  | Inf (neg : bool)
  | Fin (a : A).
Arguments NaN {A}.
Arguments Inf {A} neg.
Arguments Fin {A} a.

Definition number := ext R.

(** [x < y] on finite numbers. *)
Definition Rltb (x y : R) : bool := if Rlt_dec x y then true else false.

Definition is_neg (a : R) : bool := Rltb a 0.

(** [x / y] for finite operands; the zero divisor is [+0]. *)
Definition num_div (x y : R) : number :=
  if Req_dec_T y 0 then
    if Req_dec_T x 0 then NaN else Inf (is_neg x)
  else Fin (x / y).

Definition num_mul (x y : number) : number :=
  match x, y with
  | NaN, _ | _, NaN => NaN
  | Inf s, Inf t => Inf (xorb s t)
  | Inf s, Fin a | Fin a, Inf s =>
      if Req_dec_T a 0 then NaN else Inf (xorb s (is_neg a))
  | Fin a, Fin b => Fin (a * b)
  end.

Definition num_add (x y : number) : number :=
  match x, y with
  | NaN, _ | _, NaN => NaN
  | Inf s, Inf t => if Bool.eqb s t then Inf s else NaN
  | Inf s, Fin _ | Fin _, Inf s => Inf s
  | Fin a, Fin b => Fin (a + b)
  end.

Definition Math_max (x y : number) : number :=
  match x, y with
  | NaN, _ | _, NaN => NaN
  | Inf false, _ | _, Inf false => Inf false
  | Inf true, z | z, Inf true => z
  | Fin a, Fin b => Fin (Rmax a b)
  end.

Definition Math_min (x y : number) : number :=
  match x, y with
  | NaN, _ | _, NaN => NaN
  | Inf true, _ | _, Inf true => Inf true
  | Inf false, z | z, Inf false => z
  | Fin a, Fin b => Fin (Rmin a b)
  end.

(** [Math.round] on a finite number: nearest integer, ties towards
    plus infinity. *)
Definition round (x : R) : Z := Zfloor (x + 1 / 2).

Definition Math_round (x : number) : ext Z :=
  match x with
  | NaN => NaN
  | Inf s => Inf s
  | Fin a => Fin (round a)
  end.

Definition Math_floor (x : R) : Z := Zfloor x.

Definition Math_abs (x : R) : R := Rabs x.

Definition Math_hypot (x y : R) : R := sqrt (x * x + y * y).

Definition Math_sign (x : R) : R :=
  if Rlt_dec 0 x then 1 else if Rlt_dec x 0 then -1 else 0.

(** [Math.atan2(y, x)] on finite arguments; [cos], [sin], [atan] and
    [PI] are the real functions and the real constant. *)
Definition Math_atan2 (y x : R) : R :=
  if Rlt_dec 0 x then atan (y / x)
  else if Rlt_dec x 0 then
    (if Rlt_dec y 0 then atan (y / x) - PI else atan (y / x) + PI)
  else
    (if Rlt_dec 0 y then PI / 2 else if Rlt_dec y 0 then - (PI / 2) else 0).

(** [x % 2 === k] on the result of [Math.round]; the remainder takes
    the sign of the dividend, and is [NaN] off the finite numbers. *)
Definition rem2_is (x : ext Z) (k : Z) : bool :=
  match x with
  | Fin z => Z.eqb (Z.rem z 2) k
  | _ => false
  end.

(** [x++] *)
Definition incr (x : ext Z) : ext Z :=
  match x with
  | Fin z => Fin (z + 1)%Z
  | other => other
  end.

(** ** Strings *)

(** [Number.prototype.toString] on an integer (below 1e21 in absolute
    value, where JavaScript still prints every digit). *)
Definition int_toString (z : Z) : string := NilZero.string_of_int (Z.to_int z).

Definition toString (x : ext Z) : string :=
  match x with
  | NaN => "NaN"
  | Inf false => "Infinity"
  | Inf true => "-Infinity"
  | Fin z => int_toString z
  end.

Definition lower_ascii (c : ascii) : ascii :=
  let n := nat_of_ascii c in
  if ((65 <=? n) && (n <=? 90))%nat then ascii_of_nat (n + 32) else c.

Definition upper_ascii (c : ascii) : ascii :=
  let n := nat_of_ascii c in
  if ((97 <=? n) && (n <=? 122))%nat then ascii_of_nat (n - 32) else c.

Fixpoint map_string (f : ascii -> ascii) (s : string) : string :=
  match s with
  | EmptyString => EmptyString
  | String c t => String (f c) (map_string f t)
  end.

(** Case conversion of the ASCII letters, which is all the embedded
    code applies it to (base-36 numerals, and the letters of the regular
    expressions under the [i] flag). *)
Definition toLowerCase : string -> string := map_string lower_ascii.
Definition toUpperCase : string -> string := map_string upper_ascii.

(** [s] matches [/^p/i], for a lower-case literal [p]. *)
Definition starts_with_i (p s : string) : bool := String.prefix p (toLowerCase s).

(** [s] matches [/p$/i], for a lower-case literal [p]. *)
Definition ends_with_i (p s : string) : bool :=
  let n := String.length s in
  let m := String.length p in
  (m <=? n)%nat && String.eqb (toLowerCase (substring (n - m) m s)) p.

(** ** Grid Estimator: [estimateFromBlock] *)

Record Coordinate : Type := mkCoordinate {
  loc_lat : R;
  loc_lng : R
}.

Definition dtLat : R := 34.0522.
Definition dtLng : R := -118.2437.
Definition blockSize : R := 0.002.

(** [streetName.match(/^(N|S|North|South)/i) ||
     streetName.match(/(Ave|Avenue|Way|Place|Pl)$/i)] *)
Definition isNS (streetName : string) : bool :=
  (starts_with_i "n" streetName || starts_with_i "s" streetName
   || starts_with_i "north" streetName || starts_with_i "south" streetName)
  || (ends_with_i "ave" streetName || ends_with_i "avenue" streetName
      || ends_with_i "way" streetName || ends_with_i "place" streetName
      || ends_with_i "pl" streetName).

Definition blocks (loc : Coordinate) (streetName : string) : R :=
  let latBlocks := Math_abs (loc_lat loc - dtLat) / blockSize in
  let lngBlocks := Math_abs (loc_lng loc - dtLng) / blockSize in
  if isNS streetName then lngBlocks else latBlocks.

(** The estimate after [estimate = Math.round(estimate / 10) * 10],
    before the random part is added. *)
Definition blockEstimate (loc : Coordinate) (streetName : string) : Z :=
  let estimate := round (100 + blocks loc streetName * 100) in
  (round (IZR estimate / 10) * 10)%Z.

(** [Math.floor(Math.random() * 50)], for the draw [rnd]. *)
Definition jitter (rnd : R) : Z := Math_floor (rnd * 50).

Definition estimateNumber (loc : Coordinate) (streetName : string) (rnd : R) : Z :=
  (blockEstimate loc streetName + jitter rnd)%Z.

Definition estimateFromBlock (loc : Coordinate) (streetName : string) (rnd : R)
  : string :=
  int_toString (estimateNumber loc streetName rnd) ++ " (approx)".

(** ** Address Interpolator: [interpolateAddress] *)

(** [parseInt(s)] without a radix; [None] is [NaN].  Leading white
    space is the ASCII white space; the value of a long numeral is
    exact. *)
Definition is_space (c : ascii) : bool :=
  let n := nat_of_ascii c in
  ((9 <=? n) && (n <=? 13) || (n =? 32))%nat.

Fixpoint skip_spaces (s : string) : string :=
  match s with
  | String c t => if is_space c then skip_spaces t else s
  | EmptyString => EmptyString
  end.

Definition digit_value (c : ascii) : option Z :=
  let n := nat_of_ascii c in
  if ((48 <=? n) && (n <=? 57))%nat then Some (Z.of_nat (n - 48))
  else if ((97 <=? n) && (n <=? 122))%nat then Some (Z.of_nat (n - 87))
  else if ((65 <=? n) && (n <=? 90))%nat then Some (Z.of_nat (n - 55))
  else None.

(** Value of the longest prefix of [s] made of digits below [radix];
    [acc] is the value read so far, [None] when no digit was read. *)
Fixpoint read_digits (radix : Z) (s : string) (acc : option Z) : option Z :=
  match s with
  | String c t =>
      match digit_value c with
      | Some d =>
          if (d <? radix)%Z
          then read_digits radix t (Some (default 0%Z acc * radix + d)%Z)
          else acc
      | None => acc
      end
  | EmptyString => acc
  end.

Definition parseInt (s : string) : option Z :=
  let s := skip_spaces s in
  let '(sign, s) :=
    match s with
    | String "-" t => ((-1)%Z, t)
    | String "+" t => (1%Z, t)
    | _ => (1%Z, s)
    end in
  let '(radix, s) :=
    match s with
    | String "0" (String "x" t) | String "0" (String "X" t) => (16%Z, t)
    | _ => (10%Z, s)
    end in
  (fun n => (sign * n)%Z) <$> read_digits radix s None.

(** Address components of a Nominatim result; [None] is an absent
    field. *)
Record address_details : Type := mkAddress {
  house_number : option string;
  road : option string;
  street : option string;
  neighbourhood : option string;
  suburb : option string;
  city : option string;
  postcode : option string
}.

(** One entry of the search result; [p_lat] and [p_lon] are the numbers
    [parseFloat] reads from the entry. *)
Record place : Type := mkPlace {
  p_address : option address_details;
  p_lat : R;
  p_lon : R
}.

(** What the first three statements of the [try] give, the building of
    [searchUrl], [await fetch(searchUrl)] and [await res.json()]: an
    exception ([encodeURIComponent] rejects the street name, the request
    or the parse fails, or the body is not an array), or the array of
    places. *)
Inductive search_result : Type :=
  | SearchThrows
  | SearchPlaces (places : list place).

(** Truthiness of an optional string field. *)
Definition truthy (s : option string) : bool :=
  match s with
  | Some s => negb (String.eqb s "")
  | None => false
  end.

Record AddressPoint : Type := mkPoint {
  num : Z;
  lat : R;
  lng : R
}.

Definition has_house_number (p : place) : bool :=
  match p_address p with
  | Some a => truthy (house_number a)
  | None => false
  end.

(** [.map(p => ({num: parseInt(..), lat: .., lng: ..}))
     .filter(p => !isNaN(p.num))] on one entry. *)
Definition to_point (p : place) : option AddressPoint :=
  n ← parseInt (default "" (p_address p ≫= house_number));
  Some {| num := n; lat := p_lat p; lng := p_lon p |}.

Definition withNumbers (places : list place) : list AddressPoint :=
  omap to_point (List.filter has_house_number places).

(** The comparator handed to [sort]. *)
Definition compareFn (loc : Coordinate) (a b : AddressPoint) : R :=
  let distA := Math_hypot (lat a - loc_lat loc) (lng a - loc_lng loc) in
  let distB := Math_hypot (lat b - loc_lat loc) (lng b - loc_lng loc) in
  distA - distB.

(** [Array.prototype.sort] is stable; with a comparator that is a
    difference of keys its result is that of a stable insertion sort. *)
Fixpoint sort_insert {A : Type} (cmp : A -> A -> R) (x : A) (l : list A) : list A :=
  match l with
  | [] => [x]
  | y :: t => if Rlt_dec 0 (cmp x y) then y :: sort_insert cmp x t else x :: y :: t
  end.

Definition sort {A : Type} (cmp : A -> A -> R) (l : list A) : list A :=
  foldr (sort_insert cmp) [] l.

(** [Math.min(1, Math.max(0, ourDist / totalDist))] *)
Definition ratio (loc : Coordinate) (p1 p2 : AddressPoint) : number :=
  let totalDist := Math_hypot (lat p2 - lat p1) (lng p2 - lng p1) in
  let ourDist := Math_hypot (loc_lat loc - lat p1) (loc_lng loc - lng p1) in
  Math_min (Fin 1) (Math_max (Fin 0) (num_div ourDist totalDist)).

(** [Math.round(p1.num + (p2.num - p1.num) * ratio)] *)
Definition interpolated (loc : Coordinate) (p1 p2 : AddressPoint) : ext Z :=
  Math_round
    (num_add (Fin (IZR (num p1)))
       (num_mul (Fin (IZR (num p2 - num p1))) (ratio loc p1 p2))).

Definition side (loc : Coordinate) (p1 p2 : AddressPoint) : R :=
  let bearing := Math_atan2 (lng p2 - lng p1) (lat p2 - lat p1) in
  let perpendicular := bearing + PI / 2 in
  Math_sign ((loc_lat loc - lat p1) * cos perpendicular
             + (loc_lng loc - lng p1) * sin perpendicular).

(** [if (side > 0 && x % 2 === 0) x++; else if (side < 0 && x % 2 === 1) x++] *)
Definition adjust (side : R) (x : ext Z) : ext Z :=
  if Rltb 0 side && rem2_is x 0 then incr x
  else if Rltb side 0 && rem2_is x 1 then incr x
  else x.

(** [res] is what the search gives, [rnd] the draw of [Math.random()]
    that the fallback consumes.  An exception in the [try] block leads
    to the [catch], which returns [estimateFromBlock(loc, streetName)].
    After the sort, [p1 = withNumbers[0]] and
    [p2 = withNumbers[1] || withNumbers[0]]: with a single element [p2] is
    [p1] itself and [p1.num.toString()] is returned; with none, [p1.num]
    throws. *)
Definition interpolateAddress (loc : Coordinate) (streetName : string)
    (res : search_result) (rnd : R) : string :=
  match res with
  | SearchThrows => estimateFromBlock loc streetName rnd
  | SearchPlaces places =>
      let withNumbers := withNumbers places in
      if (length withNumbers <? 2)%nat then estimateFromBlock loc streetName rnd
      else
        match sort (compareFn loc) withNumbers with
        | p1 :: p2 :: _ =>
            toString (adjust (side loc p1 p2) (interpolated loc p1 p2))
        | [p1] => int_toString (num p1)
        | [] => estimateFromBlock loc streetName rnd
        end
  end.

(** ** Address Composer: [getAddress] *)

(** What [await fetch(..)] followed by [await res.json()] gives for the
    reverse lookup: an exception, or the [address] and [display_name]
    fields of the answer. *)
Inductive reverse_result : Type :=
  | ReverseThrows
  | ReverseData (address : option address_details) (display_name : option string).

Definition no_address : address_details :=
  mkAddress None None None None None None None.

(** [a || d] on an optional string field. *)
Definition or_else (a : option string) (d : string) : string :=
  if truthy a then default "" a else d.

Definition nonempty (s : string) : bool := negb (String.eqb s "").

(** [parts.push(x)] *)
Definition push (parts : list string) (x : string) : list string :=
  (parts ++ [x])%list.

Definition getAddress (l : option Coordinate) (rev : reverse_result)
    (search : search_result) (rnd : R) : string :=
  match l with
  | None => "Los Angeles, CA"
  | Some l =>
      match rev with
      | ReverseThrows => "Los Angeles, CA"
      | ReverseData address display_name =>
          let addr := default no_address address in
          let road := or_else (road addr) (or_else (street addr) "") in
          if negb (nonempty road) then or_else display_name "Los Angeles, CA"
          else
            let streetNum :=
              if truthy (house_number addr)
              then default "" (house_number addr)
              else interpolateAddress l road search rnd in
            let parts := [] in
            let parts :=
              if nonempty streetNum && nonempty road
              then push parts (streetNum ++ " " ++ road)
              else if nonempty road then push parts (road) else parts in
            let parts :=
              if truthy (neighbourhood addr)
              then push parts (default "" (neighbourhood addr))
              else if truthy (suburb addr)
                   then push parts (default "" (suburb addr)) else parts in
            let parts := push parts (or_else (city addr) "Los Angeles") in
            let parts := push parts ("CA") in
            let parts :=
              if truthy (postcode addr)
              then push parts (default "" (postcode addr)) else parts in
            String.concat ", " parts
      end
  end.

(** The composer of the sibling page script ([reverseGeo]), which has no
    interpolation step. *)
Definition reverseGeo (l : option Coordinate) (rev : reverse_result) : string :=
  match l with
  | None => "Bel Air, Los Angeles, CA"
  | Some _ =>
      match rev with
      | ReverseThrows => "Bel Air, Los Angeles, CA"
      | ReverseData address display_name =>
          let a := default no_address address in
          let parts :=
            omap (fun x : option string => if truthy x then x else None)
              [ house_number a; road a;
                (if truthy (neighbourhood a) then neighbourhood a else suburb a);
                Some (or_else (city a) "Los Angeles"); Some "CA"; postcode a ] in
          let joined := String.concat ", " parts in
          if nonempty joined then joined
          else or_else display_name "Bel Air, Los Angeles, CA"
      end
  end.

(** ** Report Builder: [handleReport] *)

(** A number of the request body: its value, and the string that
    [Number.prototype.toString] gives for it (the shortest decimal that
    reads back as the same binary64 value). *)
Record json_number : Type := mkNumber {
  value : R;
  text : string
}.

Record Location : Type := mkLocation {
  l_lat : option json_number;
  l_lng : option json_number;
  l_accuracy : option json_number
}.

(** The parsed request body, read at the interface [PotholeReport];
    [None] is an absent field. *)
Record PotholeReport : Type := mkReport {
  r_type : option string;
  r_location : option Location;
  r_timestamp : option string;
  r_image : option string;
  r_address : option string;
  r_source : option string
}.

(** What [await request.json()] gives: an exception, [null], or an
    object. *)
Inductive request_json : Type :=
  | JsonThrows
  | JsonNull
  | JsonObject (report : PotholeReport).

(** The object handed to [JSON.stringify] for the store. *)
Record FullReport : Type := mkFullReport {
  f_report : PotholeReport;
  f_id : string;
  f_googleMapsUrl : string;
  f_imageUrl : string;
  f_viewUrl : string;
  f_status : string;
  f_submittedAt : string
}.

Record kv_entry : Type := mkEntry {
  kv_value : FullReport;
  kv_expirationTtl : Z
}.

(** The body handed to [JSON.stringify] for the response. *)
Inductive response_body : Type :=
  | Success (reportId googleMapsUrl imageUrl viewUrl formalLetter mailtoUrl
             myLA311Url address message : string)
  | Failure (error : string).

Record Response : Type := mkResponse {
  status : Z;
  body : response_body
}.

(** Computations of the handler: they read and write the [REPORTS]
    namespace and may throw; what was written before a throw stays
    written. *)
Definition M (A : Type) : Type :=
  gmap string kv_entry -> option A * gmap string kv_entry.

Definition ret {A : Type} (a : A) : M A := fun kv => (Some a, kv).

Definition throw {A : Type} : M A := fun kv => (None, kv).

Definition bind {A B : Type} (c : M A) (k : A -> M B) : M B :=
  fun kv =>
    match c kv with
    | (Some a, kv') => k a kv'
    | (None, kv') => (None, kv')
    end.

Definition try_catch {A : Type} (c : M A) (handler : M A) : M A :=
  fun kv =>
    match c kv with
    | (Some a, kv') => (Some a, kv')
    | (None, kv') => handler kv'
    end.

(** [await env.REPORTS.put(key, value, {expirationTtl})]; the write
    itself goes through. *)
Definition kv_put (key : string) (e : kv_entry) : M unit :=
  fun kv => (Some tt, <[key := e]> kv).

(** Reading a property of [x.f] when [x.f] is absent throws. *)
Definition required {A : Type} (x : option A) : M A :=
  match x with
  | Some a => ret a
  | None => throw
  end.

Notation "x <-- c ;; k" := (bind c (fun x => k))
  (at level 100, c at next level, right associativity).

Definition LA_311_EMAIL : string := "311@lacity.org".
Definition STREET_SERVICES_EMAIL : string := "BSS.CustomerService@lacity.org".

Definition digit36 (d : N) : ascii :=
  if (d <? 10)%N then ascii_of_N (48 + d) else ascii_of_N (87 + d).

Fixpoint toString36_aux (fuel : nat) (n : N) (acc : string) : string :=
  match fuel with
  | O => acc
  | S fuel =>
      if (n =? 0)%N then acc
      else toString36_aux fuel (n / 36)%N (String (digit36 (n mod 36)%N) acc)
  end.

(** [n.toString(36)] on a natural number. *)
Definition toString36 (n : N) : string :=
  if (n =? 0)%N then "0" else toString36_aux (N.to_nat (N.size n)) n "".

(** [s.slice(2, 6)] *)
Definition slice_2_6 (s : string) : string := substring 2 4 s.

(** The identifier, from [Date.now()] and [Math.random().toString(36)]. *)
Definition reportId (now : N) (rand36 : string) : string :=
  "LA-" ++ toUpperCase (toString36 now) ++ "-" ++ toUpperCase (slice_2_6 rand36).

(** [s.split(',')[0]] *)
Fixpoint before_comma (s : string) : string :=
  match s with
  | EmptyString => EmptyString
  | String c t => if Ascii.eqb c "," then EmptyString else String c (before_comma t)
  end.

Definition unreserved (c : ascii) : bool :=
  let n := nat_of_ascii c in
  ((48 <=? n) && (n <=? 57) || (65 <=? n) && (n <=? 90)
   || (97 <=? n) && (n <=? 122))%nat
  || existsb (Ascii.eqb c) (list_ascii_of_string "-_.!~*'()").

Definition hex_digit (n : nat) : ascii :=
  if (n <? 10)%nat then ascii_of_nat (48 + n) else ascii_of_nat (55 + n).

(** The escaping of [encodeURIComponent]: every byte that is not
    unreserved becomes "%XX". *)
Fixpoint percent_encode (s : string) : string :=
  match s with
  | EmptyString => EmptyString
  | String c t =>
      if unreserved c then String c (percent_encode t)
      else
        let n := nat_of_ascii c in
        String "%" (String (hex_digit (n / 16)) (String (hex_digit (n mod 16))
          (percent_encode t)))
  end.

(** The text holds a surrogate that is not half of a pair: the byte ED
    followed by a byte of A0..BF. *)
Fixpoint lone_surrogate (s : string) : bool :=
  match s with
  | EmptyString => false
  | String c t =>
      match t with
      | String d _ =>
          ((nat_of_ascii c =? 237) && (160 <=? nat_of_ascii d)
           && (nat_of_ascii d <=? 191))%nat
      | EmptyString => false
      end
      || lone_surrogate t
  end.

(** [encodeURIComponent(s)]; [None] is the [URIError] it throws on a lone
    surrogate. *)
Definition encodeURIComponent (s : string) : option string :=
  if lone_surrogate s then None else Some (percent_encode s).

Fixpoint pad_zeros (k : nat) (s : string) : string :=
  match k with
  | O => s
  | S k => String "0" (pad_zeros k s)
  end.

(** [x.toFixed(6)] on a finite number below 1e21 in absolute value. *)
Definition toFixed6 (x : R) : string :=
  let s := if Rltb x 0 then "-" else "" in
  let m := int_toString (round (Rabs x * 1000000)) in
  let m := pad_zeros (7 - String.length m) m in
  let k := String.length m in
  s ++ substring 0 (k - 6) m ++ "." ++ substring (k - 6) 6 m.

Definition nl : string := String (ascii_of_nat 10) EmptyString.

(** [`${x}`] for a numeric field that may be absent. *)
Definition template_number (x : option json_number) : string :=
  match x with
  | Some n => text n
  | None => "undefined"
  end.

(** [`${x}`] for a string field that may be absent. *)
Definition template_string (x : option string) : string :=
  default "undefined" x.

(** [date] is [new Date().toLocaleDateString('en-US', ..)]. *)
Definition generateFormalLetter (report : PotholeReport) (location : Location)
    (reportId googleMapsUrl imageUrl viewUrl date : string) : M string :=
  lat <-- required (l_lat location) ;;
  lng <-- required (l_lng location) ;;
  ret (String.concat nl
    [ "POTHOLE REPAIR REQUEST";
      "Report ID: " ++ reportId;
      "Date: " ++ date;
      "";
      "To: Los Angeles Bureau of Street Services";
      "Re: Pothole requiring immediate repair";
      "";
      "Dear Street Services Team,";
      "";
      "I am writing to report a pothole that requires repair at the following location:";
      "";
      "STREET ADDRESS: " ++ template_string (r_address report);
      "";
      "GPS COORDINATES: " ++ toFixed6 (value lat) ++ ", " ++ toFixed6 (value lng);
      "";
      "GOOGLE MAPS: " ++ googleMapsUrl;
      "";
      "PHOTO OF POTHOLE: " ++ imageUrl;
      "";
      "FULL REPORT WITH PHOTO: " ++ viewUrl;
      "";
      "This pothole poses a safety hazard to vehicles and pedestrians. Please prioritize this repair.";
      "";
      "Thank you for your service to our community.";
      "";
      "Sincerely,";
      "A Concerned LA Resident";
      "";
      "---";
      "Submitted via POTHOLE LA";
      "Report ID: " ++ reportId ]).

Definition failure : Response :=
  {| status := 500; body := Failure "Failed to process report" |}.

Definition googleMapsUrl (location : Location) : string :=
  "https://www.google.com/maps?q=" ++ template_number (l_lat location)
  ++ "," ++ template_number (l_lng location).

Definition imageUrl (origin reportId : string) : string :=
  origin ++ "/image/" ++ reportId.

Definition viewUrl (origin reportId : string) : string :=
  origin ++ "/view/" ++ reportId.

(** [{...report, id, googleMapsUrl, imageUrl, viewUrl, status, submittedAt}],
    with its time to live. *)
Definition stored_entry (report : PotholeReport) (location : Location)
    (origin reportId iso : string) : kv_entry :=
  {| kv_value :=
       {| f_report := report; f_id := reportId;
          f_googleMapsUrl := googleMapsUrl location;
          f_imageUrl := imageUrl origin reportId;
          f_viewUrl := viewUrl origin reportId;
          f_status := "pending_submission";
          f_submittedAt := iso |};
     kv_expirationTtl := 60 * 60 * 24 * 180 |}.

(** [report.address.split(',')[0] || 'Unknown Location'] *)
Definition streetName_of (address : string) : string :=
  if nonempty (before_comma address) then before_comma address
  else "Unknown Location".

(** The mail link; [None] when one of the two [encodeURIComponent] calls
    throws. *)
Definition mailtoUrl (reportId streetName formalLetter : string)
  : option string :=
  match encodeURIComponent
          ("Pothole Report " ++ reportId ++ " - " ++ streetName) with
  | None => None
  | Some emailSubject =>
      match encodeURIComponent formalLetter with
      | None => None
      | Some emailBody =>
          Some ("mailto:" ++ STREET_SERVICES_EMAIL ++ "?cc=" ++ LA_311_EMAIL
                ++ "&subject=" ++ emailSubject ++ "&body=" ++ emailBody)
      end
  end.

(** [now] is [Date.now()], [rand36] is [Math.random().toString(36)],
    [iso] is [new Date().toISOString()]. *)
Definition handleReport (request : request_json) (origin : string)
    (now : N) (rand36 date iso : string) : M Response :=
  try_catch
    (report <-- match request with
                | JsonObject report => ret report
                | JsonNull | JsonThrows => throw
                end ;;
     let reportId := reportId now rand36 in
     location <-- required (r_location report) ;;
     let googleMapsUrl := googleMapsUrl location in
     let imageUrl := imageUrl origin reportId in
     let viewUrl := viewUrl origin reportId in
     _ <-- kv_put reportId (stored_entry report location origin reportId iso) ;;
     formalLetter <-- generateFormalLetter report location reportId
                        googleMapsUrl imageUrl viewUrl date ;;
     address <-- required (r_address report) ;;
     mailtoUrl <-- required
                     (mailtoUrl reportId (streetName_of address) formalLetter) ;;
     ret {| status := 200;
            body := Success reportId googleMapsUrl imageUrl viewUrl
                      formalLetter mailtoUrl
                      "https://myla311.lacity.org/portal/faces/home"
                      address "Report ready!" |})
    (ret failure).

(** ** Request Router: [fetch], [serveImage], [serveReportPage] *)

Definition corsHeaders : list (string * string) :=
  [ ("Access-Control-Allow-Origin", "*");
    ("Access-Control-Allow-Methods", "GET, POST, OPTIONS");
    ("Access-Control-Allow-Headers", "Content-Type") ].

(** What a response carries.  The serialised objects and the fixed
    markup stay symbolic: [BodyReport] is [JSON.stringify] of the object
    built by [handleReport], [BodyHealth] is [JSON.stringify({status:
    "ok"})], [BodyReportPage] is the template literal of
    [serveReportPage] with the values of its holes ([reportId], which
    occurs three times, [report.address], the two [toFixed(6)] and
    [report.googleMapsUrl]), [BodyOgImage] and [BodyFrontend] are the
    constants [svg] and [HTML]. *)
Inductive http_body : Type :=
  | BodyNull
  | BodyText (s : string)
  | BodyBytes (bytes : list N)
  | BodyReport (b : response_body)
  | BodyHealth
  | BodyReportPage (reportId address lat lng googleMapsUrl : string)
  | BodyOgImage
  | BodyFrontend.

Record http_response : Type := mkHttp {
  h_status : Z;
  h_headers : list (string * string);
  h_body : http_body
}.

(** The request as the router reads it: [request.method], the [origin]
    and the [pathname] of [new URL(request.url)], and what
    [request.json()] gives. *)
Record Request : Type := mkRequest {
  method : string;
  url_origin : string;
  url_pathname : string;
  json : request_json
}.

(** [s.startsWith(p)] *)
Definition startsWith (p s : string) : bool := String.prefix p s.

Fixpoint drop_string (n : nat) (s : string) : string :=
  match n, s with
  | O, _ => s
  | S n, String _ t => drop_string n t
  | S _, EmptyString => EmptyString
  end.

(** [s.replace(p, "")] for a string pattern: the first occurrence of
    [p] is removed. *)
Fixpoint remove_first (p s : string) : string :=
  if String.prefix p s then drop_string (String.length p) s
  else
    match s with
    | EmptyString => EmptyString
    | String c t => String c (remove_first p t)
    end.

(** [s.split(",")[1]]; [None] is [undefined]. *)
Fixpoint second_field (s : string) : option string :=
  match s with
  | EmptyString => None
  | String c t => if Ascii.eqb c "," then Some (before_comma t) else second_field t
  end.

(** [atob]: the forgiving base64 decoding.  ASCII white space is
    removed; when the length is a multiple of 4, one or two trailing "="
    are removed; a length of 1 modulo 4 or a character outside the
    alphabet is an error; every character gives 6 bits, every 24 bits
    three bytes, and 12 or 18 bits left over give one or two bytes. *)
Definition b64_space (c : ascii) : bool :=
  let n := nat_of_ascii c in
  ((n =? 9) || (n =? 10) || (n =? 12) || (n =? 13) || (n =? 32))%nat.

Definition b64_value (c : ascii) : option N :=
  let n := N_of_ascii c in
  if ((65 <=? n) && (n <=? 90))%N then Some (n - 65)%N
  else if ((97 <=? n) && (n <=? 122))%N then Some (n - 71)%N
  else if ((48 <=? n) && (n <=? 57))%N then Some (n + 4)%N
  else if (n =? 43)%N then Some 62%N
  else if (n =? 47)%N then Some 63%N
  else None.

Definition strip_padding (l : list ascii) : list ascii :=
  if (length l mod 4 =? 0)%nat then
    match rev l with
    | "="%char :: "="%char :: r => rev r
    | "="%char :: r => rev r
    | _ => l
    end
  else l.

Fixpoint sextets (l : list ascii) : option (list N) :=
  match l with
  | [] => Some []
  | c :: t =>
      match b64_value c, sextets t with
      | Some v, Some vs => Some (v :: vs)
      | _, _ => None
      end
  end.

Fixpoint decode_sextets (l : list N) : list N :=
  match l with
  | a :: b :: c :: d :: rest =>
      let n := (a * 262144 + b * 4096 + c * 64 + d)%N in
      (n / 65536)%N :: ((n / 256) mod 256)%N :: (n mod 256)%N :: decode_sextets rest
  | [a; b; c] =>
      let n := (a * 4096 + b * 64 + c)%N in
      (n / 1024)%N :: ((n / 4) mod 256)%N :: []
  | [a; b] =>
      let n := (a * 64 + b)%N in
      (n / 16)%N :: []
  | _ => []
  end.

(** [atob(data)] followed by [charCodeAt] on every character; [None]
    is the exception. *)
Definition atob (data : string) : option (list N) :=
  let l := strip_padding
             (List.filter (fun c => negb (b64_space c)) (list_ascii_of_string data)) in
  if (length l mod 4 =? 1)%nat then None
  else decode_sextets <$> sextets l.

(** [env.REPORTS.get(key)]; the value read back by [JSON.parse] is the
    object that was serialised. *)
Definition kv_get (key : string) : M (option FullReport) :=
  fun kv => (Some (kv_value <$> kv !! key), kv).

Definition serveOGImage : http_response :=
  {| h_status := 200;
     h_headers := [ ("Content-Type", "image/svg+xml");
                    ("Cache-Control", "public, max-age=86400") ];
     h_body := BodyOgImage |}.

Definition serveImage (reportId : string) : M http_response :=
  data <-- kv_get reportId ;;
  match data with
  | None => ret {| h_status := 404; h_headers := []; h_body := BodyText "Not found" |}
  | Some report =>
      image <-- required (r_image (f_report report)) ;;
      let base64 := second_field image in
      bytes <-- required (atob (template_string base64)) ;;
      ret {| h_status := 200;
             h_headers := [ ("Content-Type", "image/jpeg");
                            ("Cache-Control", "public, max-age=31536000") ];
             h_body := BodyBytes bytes |}
  end.

Definition serveReportPage (reportId : string) : M http_response :=
  data <-- kv_get reportId ;;
  match data with
  | None =>
      ret {| h_status := 404; h_headers := []; h_body := BodyText "Report not found" |}
  | Some report =>
      location <-- required (r_location (f_report report)) ;;
      lat <-- required (l_lat location) ;;
      lng <-- required (l_lng location) ;;
      ret {| h_status := 200;
             h_headers := [ ("Content-Type", "text/html") ];
             h_body := BodyReportPage reportId
                         (template_string (r_address (f_report report)))
                         (toFixed6 (value lat)) (toFixed6 (value lng))
                         (f_googleMapsUrl report) |}
  end.

(** Both responses of [handleReport] are built with these headers. *)
Definition report_response (r : Response) : http_response :=
  {| h_status := status r;
     h_headers := (corsHeaders ++ [ ("Content-Type", "application/json") ])%list;
     h_body := BodyReport (body r) |}.

(** The router.  [None] in the result is an exception that leaves the
    handler ([serveImage] and [serveReportPage] have no [try]). *)
Definition fetch (request : Request) (now : N) (rand36 date iso : string)
  : M http_response :=
  if String.eqb (method request) "OPTIONS" then
    ret {| h_status := 200; h_headers := corsHeaders; h_body := BodyNull |}
  else if String.eqb (url_pathname request) "/report"
          && String.eqb (method request) "POST" then
    r <-- handleReport (json request) (url_origin request) now rand36 date iso ;;
    ret (report_response r)
  else if startsWith "/image/" (url_pathname request) then
    serveImage (remove_first "/image/" (url_pathname request))
  else if startsWith "/view/" (url_pathname request) then
    serveReportPage (remove_first "/view/" (url_pathname request))
  else if String.eqb (url_pathname request) "/health" then
    ret {| h_status := 200;
           h_headers := (corsHeaders ++ [ ("Content-Type", "application/json") ])%list;
           h_body := BodyHealth |}
  else if String.eqb (url_pathname request) "/og.png" then
    ret serveOGImage
  else
    ret {| h_status := 200;
           h_headers := [ ("Content-Type", "text/html; charset=utf-8") ];
           h_body := BodyFrontend |}.

(** ** The composer of the "Pothole Hunter" page script: [reverseGeo] *)

Module PotholeHunter.

(** [Math.abs(Math.round(l.lng * 10000) % 10000)] *)
Definition approxNum (l : Coordinate) : Z :=
  Z.abs (Z.rem (round (loc_lng l * 10000)) 10000).

Definition reverseGeo (l : option Coordinate) (rev : reverse_result) : string :=
  match l with
  | None => "Los Angeles, CA"
  | Some l =>
      match rev with
      | ReverseThrows => "Los Angeles, CA"
      | ReverseData address display_name =>
          let a := default no_address address in
          let streetPart :=
            if truthy (house_number a) && truthy (road a)
            then default "" (house_number a) ++ " " ++ default "" (road a)
            else if truthy (road a)
                 then int_toString (approxNum l) ++ " " ++ default "" (road a)
                      ++ " (approx)"
                 else "" in
          let parts :=
            omap (fun x : option string => if truthy x then x else None)
              [ Some streetPart;
                (if truthy (neighbourhood a) then neighbourhood a else suburb a);
                Some (or_else (city a) "Los Angeles"); Some "CA"; postcode a ] in
          let joined := String.concat ", " parts in
          if nonempty joined then joined
          else or_else display_name "Los Angeles, CA"
      end
  end.

End PotholeHunter.

(** ** The Report Builder of the "Fix My Street" worker *)

Module FixMyStreet.

(** The object stored by this variant carries the letter and no links
    to the image or the page. *)
Record FullReport : Type := mkFullReport {
  f_report : PotholeReport;
  f_id : string;
  f_googleMapsUrl : string;
  f_formalLetter : string;
  f_status : string;
  f_submittedAt : string
}.

Record kv_entry : Type := mkEntry {
  kv_value : FullReport;
  kv_expirationTtl : Z
}.

Inductive response_body : Type :=
  | Success (reportId googleMapsUrl formalLetter mailtoUrl myLA311Url address
             message : string)
  | Failure (error : string).

Record Response : Type := mkResponse {
  status : Z;
  body : response_body
}.

(** [None] is the exception of [toFixed] on a missing coordinate. *)
Definition generateFormalLetter (report : PotholeReport) (location : Location)
    (reportId date : string) : option string :=
  lat ← l_lat location;
  lng ← l_lng location;
  Some (String.concat nl
    [ "POTHOLE REPAIR REQUEST";
      "Report ID: " ++ reportId;
      "Date: " ++ date;
      "";
      "To: Los Angeles Bureau of Street Services";
      "Re: Pothole requiring immediate repair";
      "";
      "Dear Street Services Team,";
      "";
      "I am writing to report a pothole that requires repair at the following location:";
      "";
      "ADDRESS: " ++ template_string (r_address report);
      "";
      "GPS COORDINATES: " ++ toFixed6 (value lat) ++ ", " ++ toFixed6 (value lng);
      "";
      "GOOGLE MAPS LINK: " ++ googleMapsUrl location;
      "";
      "This pothole poses a safety hazard to vehicles and pedestrians in the area. A photo of the pothole is attached to this report for your reference.";
      "";
      "I respectfully request that this issue be addressed at your earliest convenience.";
      "";
      "Thank you for your attention to this matter and for your service to our community.";
      "";
      "Sincerely,";
      "A Concerned Bel Air Resident";
      "";
      "---";
      "Submitted via Fix My Street App";
      "Report ID: " ++ reportId;
      "Timestamp: " ++ template_string (r_timestamp report) ]).

Definition failure : Response :=
  {| status := 500; body := Failure "Failed to process report" |}.

Definition stored_entry (report : PotholeReport) (location : Location)
    (reportId formalLetter iso : string) : kv_entry :=
  {| kv_value :=
       {| f_report := report; f_id := reportId;
          f_googleMapsUrl := googleMapsUrl location;
          f_formalLetter := formalLetter;
          f_status := "pending_submission";
          f_submittedAt := iso |};
     kv_expirationTtl := 60 * 60 * 24 * 180 |}.

(** The mail link; [None] when one of the two [encodeURIComponent] calls
    throws. *)
Definition mailtoUrl (reportId address formalLetter : string) : option string :=
  match encodeURIComponent
          ("Pothole Report " ++ reportId ++ " - " ++ before_comma address) with
  | None => None
  | Some emailSubject =>
      match encodeURIComponent
              (formalLetter ++ nl ++ nl
               ++ "[Photo attached separately - please see image below or in attachment]")
      with
      | None => None
      | Some emailBody =>
          Some ("mailto:" ++ STREET_SERVICES_EMAIL ++ "?cc=" ++ LA_311_EMAIL
                ++ "&subject=" ++ emailSubject ++ "&body=" ++ emailBody)
      end
  end.

(** The handler, with the store passed explicitly; the statements run
    in the order of the source: identifier, map link, letter, write,
    mail link. *)
Definition handleReport (request : request_json) (now : N)
    (rand36 date iso : string) (kv : gmap string kv_entry)
  : Response * gmap string kv_entry :=
  match request with
  | JsonThrows | JsonNull => (failure, kv)
  | JsonObject report =>
      let reportId := reportId now rand36 in
      match r_location report with
      | None => (failure, kv)
      | Some location =>
          match generateFormalLetter report location reportId date with
          | None => (failure, kv)
          | Some formalLetter =>
              let kv' :=
                <[reportId := stored_entry report location reportId formalLetter iso]>
                  kv in
              match r_address report with
              | None => (failure, kv')
              | Some address =>
                  match mailtoUrl reportId address formalLetter with
                  | None => (failure, kv')
                  | Some mailtoUrl =>
                      ({| status := 200;
                          body := Success reportId (googleMapsUrl location)
                                    formalLetter mailtoUrl
                                    "https://myla311.lacity.org/portal/faces/home"
                                    address "Report ready to send!" |}, kv')
                  end
              end
          end
      end
  end.

End FixMyStreet.

(** ** Reference definitions, in the words of the specification *)

(** A candidate "with a parseable integer street number". *)
Definition parseable (p : place) : bool :=
  match p_address p with
  | Some a =>
      match house_number a with
      | Some s => bool_decide (is_Some (parseInt s))
      | None => false
      end
  | None => false
  end.

(** The fractional position of the target along the segment from [p1]
    to [p2] "via projected distance": the length of the orthogonal
    projection of [p1 -> loc] on the line through [p1] and [p2], over the
    length of the segment, clamped to [0, 1]. *)
Definition projected_ratio (loc : Coordinate) (p1 p2 : AddressPoint) : number :=
  let totalDist := Math_hypot (lat p2 - lat p1) (lng p2 - lng p1) in
  let dot := (loc_lat loc - lat p1) * (lat p2 - lat p1)
             + (loc_lng loc - lng p1) * (lng p2 - lng p1) in
  let projected := dot / totalDist in
  Math_min (Fin 1) (Math_max (Fin 0) (num_div projected totalDist)).

Definition projected_interpolated (loc : Coordinate) (p1 p2 : AddressPoint)
  : ext Z :=
  Math_round
    (num_add (Fin (IZR (num p1)))
       (num_mul (Fin (IZR (num p2 - num p1))) (projected_ratio loc p1 p2))).

(** The segment from [p1] to [p2] has two distinct end points. *)
Definition distinct_positions (p1 p2 : AddressPoint) : Prop :=
  lat p1 <> lat p2 \/ lng p1 <> lng p2.

(** The target is on [p1]. *)
Definition on_point (loc : Coordinate) (p : AddressPoint) : Prop :=
  loc_lat loc = lat p /\ loc_lng loc = lng p.

Definition distance (loc : Coordinate) (a : AddressPoint) : R :=
  Math_hypot (lat a - loc_lat loc) (lng a - loc_lng loc).

Definition nearer (loc : Coordinate) (a b : AddressPoint) : Prop :=
  distance loc a <= distance loc b.

(** Reading back an upper-case base-36 numeral, most significant digit
    first, from the value [v] read so far. *)
Definition dval36 (c : ascii) : N :=
  let n := N_of_ascii c in
  if ((48 <=? n) && (n <=? 57))%N then (n - 48)%N
  else if ((65 <=? n) && (n <=? 90))%N then (n - 55)%N
  else 0%N.

Fixpoint read36 (s : string) (v : N) : N :=
  match s with
  | EmptyString => v
  | String c t => read36 t (v * 36 + dval36 c)%N
  end.

Fixpoint has_dash (s : string) : bool :=
  match s with
  | EmptyString => false
  | String c t => Ascii.eqb c "-" || has_dash t
  end.

(** The identifier carried by a success response. *)
Definition response_id (r : Response) : option string :=
  match body r with
  | Success reportId _ _ _ _ _ _ _ _ => Some reportId
  | Failure _ => None
  end.

(** The offset from the reference point along the axis chosen for the
    street. *)
Definition axis_offset (loc : Coordinate) (streetName : string) : R :=
  if isNS streetName then loc_lng loc - dtLng else loc_lat loc - dtLat.

(** [sub] occurs in [s]. *)
Definition contains (sub s : string) : Prop :=
  exists pre post, s = pre ++ sub ++ post.

(** Reading a percent-encoded string back, byte by byte. *)
Definition hex_value (c : ascii) : nat :=
  let n := nat_of_ascii c in
  if ((48 <=? n) && (n <=? 57))%nat then n - 48
  else if ((65 <=? n) && (n <=? 70))%nat then n - 55
  else 0.

Fixpoint percent_decode (s : string) : string :=
  match s with
  | String "%" (String h (String l t)) =>
      String (ascii_of_nat (16 * hex_value h + hex_value l)) (percent_decode t)
  | String c t => String c (percent_decode t)
  | EmptyString => EmptyString
  end.

(** A character that [encodeURIComponent] may produce. *)
Definition url_safe (c : ascii) : bool :=
  unreserved c || Ascii.eqb c "%".

Fixpoint all_chars (f : ascii -> bool) (s : string) : bool :=
  match s with
  | EmptyString => true
  | String c t => f c && all_chars f t
  end.

(** The base64 encoding of a sequence of bytes (RFC 4648, with
    padding), as [canvas.toDataURL] writes it after the comma. *)
Definition b64_char (v : N) : ascii :=
  if (v <? 26)%N then ascii_of_N (65 + v)
  else if (v <? 52)%N then ascii_of_N (71 + v)
  else if (v <? 62)%N then ascii_of_N (v - 4)
  else if (v =? 62)%N then "+"%char
  else "/"%char.

Fixpoint b64_encode (bs : list N) : list ascii :=
  match bs with
  | b1 :: b2 :: b3 :: rest =>
      let n := (b1 * 65536 + b2 * 256 + b3)%N in
      b64_char (n / 262144) :: b64_char ((n / 4096) mod 64)
      :: b64_char ((n / 64) mod 64) :: b64_char (n mod 64) :: b64_encode rest
  | [b1; b2] =>
      let n := (b1 * 1024 + b2 * 4)%N in
      [ b64_char (n / 4096); b64_char ((n / 64) mod 64); b64_char (n mod 64);
        "="%char ]
  | [b1] =>
      let n := (b1 * 16)%N in
      [ b64_char (n / 64); b64_char (n mod 64); "="%char; "="%char ]
  | [] => []
  end.

(** The characters of an identifier. *)
Definition id_char (c : ascii) : bool :=
  let n := nat_of_ascii c in
  ((48 <=? n) && (n <=? 57) || (65 <=? n) && (n <=? 90) || (n =? 45))%nat.

(** A digit of a base-36 numeral as [toString(36)] writes it. *)
Definition base36_char (c : ascii) : bool :=
  let n := nat_of_ascii c in
  ((48 <=? n) && (n <=? 57) || (97 <=? n) && (n <=? 122))%nat.

(** The 6-bit values of the base64 encoding, and its padding. *)
Fixpoint b64_sextets (bs : list N) : list N :=
  match bs with
  | b1 :: b2 :: b3 :: rest =>
      let n := (b1 * 65536 + b2 * 256 + b3)%N in
      (n / 262144)%N :: ((n / 4096) mod 64)%N :: ((n / 64) mod 64)%N :: (n mod 64)%N
      :: b64_sextets rest
  | [b1; b2] =>
      let n := (b1 * 1024 + b2 * 4)%N in
      [ (n / 4096)%N; ((n / 64) mod 64)%N; (n mod 64)%N ]
  | [b1] =>
      let n := (b1 * 16)%N in
      [ (n / 64)%N; (n mod 64)%N ]
  | [] => []
  end.

Fixpoint b64_padding (bs : list N) : list ascii :=
  match bs with
  | _ :: _ :: _ :: rest => b64_padding rest
  | [_; _] => [ "="%char ]
  | [_] => [ "="%char; "="%char ]
  | [] => []
  end.

(** The choice made by [strip_padding] on the reversed characters. *)
Definition strip_reversed (l rl : list ascii) : list ascii :=
  match rl with
  | "="%char :: "="%char :: r => rev r
  | "="%char :: r => rev r
  | _ => l
  end.

Definition no_comma (s : string) : bool :=
  all_chars (fun c => negb (Ascii.eqb c ",")) s.

(** ** Concrete inputs used by the examples *)

Definition place_at (number : string) (plat plon : R) : place :=
  mkPlace (Some (mkAddress (Some number) None None None None None None)) plat plon.

(** Two candidates on the line [lng = 0], the target off that line. *)
Definition off_axis_loc : Coordinate := mkCoordinate 0 3.
Definition off_axis_places : list place := [place_at "100" 0 0; place_at "200" 4 0].
Definition off_axis_p1 : AddressPoint := mkPoint 100 0 0.
Definition off_axis_p2 : AddressPoint := mkPoint 200 4 0.

(** Two candidates with the same coordinates, the target on them. *)
Definition stacked_loc : Coordinate := mkCoordinate 0 0.
Definition stacked_places : list place := [place_at "100" 0 0; place_at "200" 0 0].

(** Two candidates four units apart, the target half way. *)
Definition midway_loc : Coordinate := mkCoordinate 2 0.

(** A capture at (34.05, -118.25), with and without its address. *)
Definition sample_location : Location :=
  mkLocation (Some (mkNumber 34.05 "34.05")) (Some (mkNumber (-118.25) "-118.25"))
    (Some (mkNumber 10 "10")).

Definition sample_report (address : option string) : PotholeReport :=
  mkReport (Some "pothole") (Some sample_location) (Some "2026-11-03T10:00:00.000Z")
    (Some "data:image/jpeg;base64,AAAA") address (Some "web").

Definition sample_origin : string := "https://potholela.com".
Definition sample_date : string := "Tuesday, November 3, 2026".
Definition sample_iso : string := "2026-11-03T10:00:01.000Z".

(** An address that ends with the high surrogate U+D800 alone, as a JSON
    body can carry it: the bytes ED A0 80. *)
Definition surrogate_address : string :=
  "Main St "
  ++ String (ascii_of_nat 237) (String (ascii_of_nat 160)
       (String (ascii_of_nat 128) EmptyString)).

(** * Properties *)

(** ** Rounding *)

Lemma round_lower (z : Z) (x : R) : IZR z <= x -> (z <= round x)%Z.
Proof.
  intros Hx. unfold round. apply Zfloor_lub. lra.
Qed.

Lemma round_upper (z : Z) (x : R) : x <= IZR z -> (round x <= z)%Z.
Proof.
  intros Hx. unfold round.
  pose proof (Zfloor_bound (x + 1 / 2)) as [Hlo _].
  assert (Hlt : IZR (Zfloor (x + 1 / 2)) < IZR (z + 1)).
  { rewrite plus_IZR. lra. }
  apply lt_IZR in Hlt. lia.
Qed.

Lemma round_near (x : R) : x - 1 / 2 < IZR (round x) <= x + 1 / 2.
Proof.
  unfold round. pose proof (Zfloor_bound (x + 1 / 2)). lra.
Qed.

Lemma floor_range (lo hi : Z) (x : R) :
  IZR lo <= x -> x < IZR hi -> (lo <= Math_floor x < hi)%Z.
Proof.
  intros Hlo Hhi. unfold Math_floor. split.
  - now apply Zfloor_lub.
  - apply lt_IZR. pose proof (Zfloor_bound x). lra.
Qed.

(** ** Printing of integers *)

Lemma int_toString_nonempty (z : Z) : int_toString z <> "".
Proof.
  unfold int_toString.
  destruct (Z.to_int z) as [d | d]; cbn; [| discriminate].
  unfold NilZero.string_of_uint.
  destruct d; cbn; discriminate.
Qed.

Lemma toString_nonempty (x : ext Z) : toString x <> "".
Proof.
  destruct x as [| [|] | z]; cbn; try discriminate.
  apply int_toString_nonempty.
Qed.

Lemma append_nonempty_l (s t : string) : s <> "" -> s ++ t <> "".
Proof.
  destruct s; [congruence | discriminate].
Qed.

(** ** Grid Estimator *)

Lemma blocks_nonneg (loc : Coordinate) (streetName : string) :
  0 <= blocks loc streetName.
Proof.
  unfold blocks, Math_abs, blockSize.
  destruct (isNS streetName);
    apply Rmult_le_pos; try apply Rabs_pos;
    apply Rlt_le, Rinv_0_lt_compat; lra.
Qed.

Lemma blockEstimate_lower (loc : Coordinate) (streetName : string) :
  (100 <= blockEstimate loc streetName)%Z.
Proof.
  unfold blockEstimate.
  pose proof (blocks_nonneg loc streetName) as Hb.
  assert (H1 : (100 <= round (100 + blocks loc streetName * 100))%Z).
  { apply round_lower. lra. }
  assert (H2 : (10 <= round (IZR (round (100 + blocks loc streetName * 100)) / 10))%Z).
  { apply round_lower. apply IZR_le in H1. lra. }
  lia.
Qed.

Lemma jitter_range (rnd : R) : 0 <= rnd < 1 -> (0 <= jitter rnd < 50)%Z.
Proof.
  intros [H0 H1]. unfold jitter. apply floor_range; lra.
Qed.

Lemma blockEstimate_nearest_10 (loc : Coordinate) (streetName : string) :
  (Z.abs (blockEstimate loc streetName
          - round (100 + blocks loc streetName * 100)) <= 5)%Z.
Proof.
  unfold blockEstimate.
  set (e := round (100 + blocks loc streetName * 100)).
  pose proof (round_near (IZR e / 10)) as [Hlo Hhi].
  assert (H1 : IZR e - 5 < IZR (round (IZR e / 10) * 10)) by (rewrite mult_IZR; lra).
  assert (H2 : IZR (round (IZR e / 10) * 10) <= IZR e + 5) by (rewrite mult_IZR; lra).
  rewrite <- minus_IZR in H1. rewrite <- plus_IZR in H2.
  apply lt_IZR in H1. apply le_IZR in H2. lia.
Qed.

(** C4. The estimate of [estimateFromBlock] before the random part is
    added is a multiple of 10 (the multiple nearest to the rounded
    [100 + blocks * 100]), the random part is an integer of [0, 50), and
    the string returned prints their sum. *)
Theorem C4_grid_multiple_of_10_and_jitter (loc : Coordinate) (streetName : string)
    (rnd : R) :
  0 <= rnd < 1 ->
  (10 | blockEstimate loc streetName)%Z
  /\ (Z.abs (blockEstimate loc streetName
             - round (100 + blocks loc streetName * 100)) <= 5)%Z
  /\ (0 <= jitter rnd < 50)%Z
  /\ estimateFromBlock loc streetName rnd
     = int_toString (blockEstimate loc streetName + jitter rnd) ++ " (approx)".
Proof.
  intros Hrnd. split; [| split; [| split]].
  - unfold blockEstimate. apply Z.divide_factor_r.
  - apply blockEstimate_nearest_10.
  - now apply jitter_range.
  - reflexivity.
Qed.

Lemma C4_witness :
  0 <= 1 / 2 < 1
  /\ (10 | blockEstimate (mkCoordinate 34.05 (-118.25)) "Main St")%Z
  /\ (0 <= jitter (1 / 2) < 50)%Z.
Proof.
  assert (H : 0 <= 1 / 2 < 1) by lra.
  split; [exact H |].
  destruct (C4_grid_multiple_of_10_and_jitter
              (mkCoordinate 34.05 (-118.25)) "Main St" (1 / 2) H)
    as (Hd & _ & Hj & _).
  split; assumption.
Defined.

(** C10. The number printed by [estimateFromBlock] is at least 100:
    the base is 100, the block count is not negative, rounding keeps the
    bound and the random part is not negative. *)
Theorem C10_grid_estimate_at_least_100 (loc : Coordinate) (streetName : string)
    (rnd : R) :
  0 <= rnd < 1 ->
  (100 <= estimateNumber loc streetName rnd)%Z
  /\ estimateFromBlock loc streetName rnd
     = int_toString (estimateNumber loc streetName rnd) ++ " (approx)".
Proof.
  intros Hrnd. split; [| reflexivity].
  unfold estimateNumber.
  pose proof (blockEstimate_lower loc streetName).
  pose proof (jitter_range rnd Hrnd).
  lia.
Qed.

Lemma C10_witness :
  0 <= 0 < 1
  /\ (100 <= estimateNumber (mkCoordinate 34.0522 (-118.2437)) "Main St" 0)%Z.
Proof.
  assert (H : 0 <= 0 < 1) by lra.
  split; [exact H |].
  exact (proj1 (C10_grid_estimate_at_least_100
                  (mkCoordinate 34.0522 (-118.2437)) "Main St" 0 H)).
Defined.

(** ** Candidates *)

Lemma parseInt_empty : parseInt "" = None.
Proof. reflexivity. Qed.

Lemma to_point_parseable (p : place) :
  has_house_number p = true -> is_Some (to_point p) <-> parseable p = true.
Proof.
  unfold has_house_number, to_point, parseable.
  destruct (p_address p) as [a |]; cbn; [| discriminate].
  destruct (house_number a) as [s |]; cbn; [| discriminate].
  intros _. rewrite bool_decide_eq_true.
  destruct (parseInt s); cbn; split; intros [x Hx]; try discriminate; eauto.
Qed.

Lemma parseable_has_house_number (p : place) :
  parseable p = true -> has_house_number p = true.
Proof.
  unfold has_house_number, parseable.
  destruct (p_address p) as [a |]; cbn; [| discriminate].
  destruct (house_number a) as [s |]; cbn; [| discriminate].
  rewrite bool_decide_eq_true. intros [n Hn].
  destruct s; [rewrite parseInt_empty in Hn; discriminate | reflexivity].
Qed.

(** [withNumbers] keeps one point per parseable candidate. *)
Lemma withNumbers_length (places : list place) :
  length (withNumbers places) = length (List.filter parseable places).
Proof.
  unfold withNumbers.
  induction places as [| p places IH]; [reflexivity |].
  cbn [List.filter].
  destruct (has_house_number p) eqn:Hh.
  - pose proof (to_point_parseable p Hh) as Hiff.
    cbn [omap list_omap]. destruct (to_point p) as [pt |] eqn:Hpt.
    + assert (Hp : parseable p = true) by (apply Hiff; eauto).
      rewrite Hp. cbn. now rewrite IH.
    + destruct (parseable p) eqn:Hp.
      * destruct (proj2 Hiff eq_refl) as [x Hx]. discriminate.
      * exact IH.
  - destruct (parseable p) eqn:Hp.
    + apply parseable_has_house_number in Hp. congruence.
    + exact IH.
Qed.

Lemma estimateFromBlock_approx (loc : Coordinate) (streetName : string) (rnd : R) :
  exists pre, estimateFromBlock loc streetName rnd = pre ++ " (approx)".
Proof.
  eexists. reflexivity.
Qed.

Lemma estimateFromBlock_nonempty (loc : Coordinate) (streetName : string) (rnd : R) :
  estimateFromBlock loc streetName rnd <> "".
Proof.
  apply append_nonempty_l, int_toString_nonempty.
Qed.

(** C3. With fewer than two candidates that carry a parseable integer
    street number, [interpolateAddress] returns what [estimateFromBlock]
    returns, and the string ends with " (approx)". *)
Theorem C3_few_candidates_fall_back (loc : Coordinate) (streetName : string)
    (places : list place) (rnd : R) :
  (length (List.filter parseable places) < 2)%nat ->
  interpolateAddress loc streetName (SearchPlaces places) rnd
  = estimateFromBlock loc streetName rnd
  /\ exists pre,
       interpolateAddress loc streetName (SearchPlaces places) rnd
       = pre ++ " (approx)".
Proof.
  intros Hlen.
  assert (Heq : interpolateAddress loc streetName (SearchPlaces places) rnd
                = estimateFromBlock loc streetName rnd).
  { unfold interpolateAddress. rewrite withNumbers_length.
    apply Nat.ltb_lt in Hlen. now rewrite Hlen. }
  split; [exact Heq |].
  rewrite Heq. apply estimateFromBlock_approx.
Qed.

Lemma C3_witness :
  let p := mkPlace (Some (mkAddress (Some "742") None None None None None None)) 0 0 in
  (length (List.filter parseable [p]) < 2)%nat
  /\ interpolateAddress (mkCoordinate 0 0) "Main St" (SearchPlaces [p]) 0
     = estimateFromBlock (mkCoordinate 0 0) "Main St" 0.
Proof.
  intros p.
  assert (H : (length (List.filter parseable [p]) < 2)%nat) by (cbv; lia).
  split; [exact H |].
  exact (proj1 (C3_few_candidates_fall_back (mkCoordinate 0 0) "Main St" [p] 0 H)).
Defined.

(** ** The interpolator always answers *)

Lemma interpolateAddress_nonempty (loc : Coordinate) (streetName : string)
    (res : search_result) (rnd : R) :
  interpolateAddress loc streetName res rnd <> "".
Proof.
  unfold interpolateAddress.
  destruct res as [| places]; [apply estimateFromBlock_nonempty |].
  destruct (length (withNumbers places) <? 2)%nat;
    [apply estimateFromBlock_nonempty |].
  destruct (sort (compareFn loc) (withNumbers places)) as [| p1 [| p2 rest]].
  - apply estimateFromBlock_nonempty.
  - apply int_toString_nonempty.
  - apply toString_nonempty.
Qed.

(** ** Distances *)

Lemma sum_squares_nonneg (x y : R) : 0 <= x * x + y * y.
Proof. nra. Qed.

Lemma Math_hypot_nonneg (x y : R) : 0 <= Math_hypot x y.
Proof. apply sqrt_pos. Qed.

Lemma Math_hypot_eq (x y d : R) :
  0 <= d -> d * d = x * x + y * y -> Math_hypot x y = d.
Proof.
  intros Hd Hsq. unfold Math_hypot.
  apply sqrt_lem_1; [apply sum_squares_nonneg | exact Hd | exact Hsq].
Qed.

Lemma Math_hypot_square (x y : R) :
  Math_hypot x y * Math_hypot x y = x * x + y * y.
Proof.
  unfold Math_hypot. apply sqrt_sqrt, sum_squares_nonneg.
Qed.

Lemma Math_hypot_zero (x y : R) : Math_hypot x y = 0 -> x = 0 /\ y = 0.
Proof.
  intros H. pose proof (Math_hypot_square x y) as Hsq.
  rewrite H in Hsq. split; nra.
Qed.

Lemma Math_hypot_opp (x y : R) : Math_hypot (- x) (- y) = Math_hypot x y.
Proof.
  unfold Math_hypot. f_equal. ring.
Qed.

Lemma Math_hypot_half (x y : R) : Math_hypot (x / 2) (y / 2) = Math_hypot x y / 2.
Proof.
  apply Math_hypot_eq.
  - pose proof (Math_hypot_nonneg x y). lra.
  - pose proof (Math_hypot_square x y). nra.
Qed.

(** ** The ratio and the interpolated number *)

Section DistinctEndPoints.

Variables (loc : Coordinate) (p1 p2 : AddressPoint).
Hypothesis Hdistinct : distinct_positions p1 p2.

Lemma totalDist_pos : 0 < Math_hypot (lat p2 - lat p1) (lng p2 - lng p1).
Proof.
  destruct (Math_hypot_nonneg (lat p2 - lat p1) (lng p2 - lng p1)) as [Hlt | Heq];
    [exact Hlt |].
  symmetry in Heq. apply Math_hypot_zero in Heq.
  destruct Heq, Hdistinct; lra.
Qed.

Lemma quotient_nonneg :
  0 <= Math_hypot (loc_lat loc - lat p1) (loc_lng loc - lng p1)
       / Math_hypot (lat p2 - lat p1) (lng p2 - lng p1).
Proof.
  apply Rmult_le_pos; [apply Math_hypot_nonneg |].
  apply Rlt_le, Rinv_0_lt_compat, totalDist_pos.
Qed.

(** Off the degenerate segment the ratio is the distance from [p1] to
    the target over the length of the segment, cut at 1. *)
Lemma ratio_distinct :
  ratio loc p1 p2
  = Fin (Rmin 1 (Math_hypot (loc_lat loc - lat p1) (loc_lng loc - lng p1)
                 / Math_hypot (lat p2 - lat p1) (lng p2 - lng p1))).
Proof.
  unfold ratio, num_div.
  pose proof totalDist_pos as Htot.
  destruct (Req_dec_T _ 0) as [H0 | _]; [lra |].
  cbn. f_equal. f_equal. apply Rmax_right, quotient_nonneg.
Qed.

Lemma ratio_distinct_range : exists r, ratio loc p1 p2 = Fin r /\ 0 <= r <= 1.
Proof.
  eexists. split; [apply ratio_distinct |].
  split; [apply Rmin_glb; [lra | apply quotient_nonneg] | apply Rmin_l].
Qed.

End DistinctEndPoints.

Lemma interpolated_of_ratio (loc : Coordinate) (p1 p2 : AddressPoint) (r : R) :
  ratio loc p1 p2 = Fin r ->
  interpolated loc p1 p2 = Fin (round (IZR (num p1) + IZR (num p2 - num p1) * r)).
Proof.
  intros Hr. unfold interpolated. now rewrite Hr.
Qed.

(** The parity step leaves the number or adds one to it. *)
Lemma adjust_cases (s : R) (x : ext Z) : adjust s x = x \/ adjust s x = incr x.
Proof.
  unfold adjust.
  destruct (Rltb 0 s && rem2_is x 0); [now right |].
  destruct (Rltb s 0 && rem2_is x 1); [now right | now left].
Qed.

(** The linear interpolation stays between the two numbers. *)
Lemma round_between (n1 n2 : Z) (r : R) :
  0 <= r <= 1 ->
  (Z.min n1 n2 <= round (IZR n1 + IZR (n2 - n1) * r) <= Z.max n1 n2)%Z.
Proof.
  intros [H0 H1]. rewrite minus_IZR.
  destruct (Z.le_ge_cases n1 n2) as [Hle | Hge].
  - rewrite Z.min_l, Z.max_r by lia. apply IZR_le in Hle. split.
    + apply round_lower. nra.
    + apply round_upper. nra.
  - rewrite Z.min_r, Z.max_l by lia. apply IZR_le in Hge. split.
    + apply round_lower. nra.
    + apply round_upper. nra.
Qed.

Lemma round_IZR (z : Z) : round (IZR z) = z.
Proof.
  unfold round. apply Zfloor_eq. lra.
Qed.

Lemma round_eq (z : Z) (x : R) : x = IZR z -> round x = z.
Proof.
  intros ->. apply round_IZR.
Qed.

Lemma sort_pair_tie {A : Type} (cmp : A -> A -> R) (a b : A) :
  cmp a b <= 0 -> sort cmp [a; b] = [a; b].
Proof.
  intros Hle. unfold sort. cbn.
  destruct (Rlt_dec 0 (cmp a b)); [lra | reflexivity].
Qed.

(** At the midpoint both candidates are equally far. *)
Lemma compareFn_midpoint (loc : Coordinate) (a b : AddressPoint) :
  loc_lat loc = (lat a + lat b) / 2 ->
  loc_lng loc = (lng a + lng b) / 2 ->
  compareFn loc a b = 0.
Proof.
  intros Hlat Hlng. unfold compareFn. rewrite Hlat, Hlng.
  replace (lat a - (lat a + lat b) / 2) with (- (lat b - (lat a + lat b) / 2)) by lra.
  replace (lng a - (lng a + lng b) / 2) with (- (lng b - (lng a + lng b) / 2)) by lra.
  rewrite Math_hypot_opp. lra.
Qed.

Lemma ratio_midpoint (loc : Coordinate) (a b : AddressPoint) :
  distinct_positions a b ->
  loc_lat loc = (lat a + lat b) / 2 ->
  loc_lng loc = (lng a + lng b) / 2 ->
  ratio loc a b = Fin (1 / 2).
Proof.
  intros Hd Hlat Hlng. rewrite (ratio_distinct loc a b Hd).
  pose proof (totalDist_pos a b Hd) as Htot.
  rewrite Hlat, Hlng.
  replace ((lat a + lat b) / 2 - lat a) with ((lat b - lat a) / 2) by lra.
  replace ((lng a + lng b) / 2 - lng a) with ((lng b - lng a) / 2) by lra.
  rewrite Math_hypot_half.
  f_equal.
  replace (Math_hypot (lat b - lat a) (lng b - lng a) / 2
           / Math_hypot (lat b - lat a) (lng b - lng a)) with (1 / 2)
    by (field; lra).
  apply Rmin_right. lra.
Qed.

(** X27. With exactly two candidates, at distinct positions, and the
    target at the midpoint of the segment between them,
    [interpolateAddress] prints the rounded average of the two numbers,
    or that number plus one (the parity step). *)
Theorem X27_midpoint_rounded_average (loc : Coordinate) (streetName : string)
    (places : list place) (rnd : R) (a b : AddressPoint) :
  withNumbers places = [a; b] ->
  distinct_positions a b ->
  loc_lat loc = (lat a + lat b) / 2 ->
  loc_lng loc = (lng a + lng b) / 2 ->
  let average := round ((IZR (num a) + IZR (num b)) / 2) in
  interpolateAddress loc streetName (SearchPlaces places) rnd = int_toString average
  \/ interpolateAddress loc streetName (SearchPlaces places) rnd
     = int_toString (average + 1).
Proof.
  intros Hwn Hd Hlat Hlng average.
  unfold interpolateAddress. rewrite Hwn. cbn [length Nat.ltb Nat.leb].
  rewrite sort_pair_tie by (rewrite (compareFn_midpoint loc a b Hlat Hlng); lra).
  rewrite (interpolated_of_ratio loc a b (1 / 2)) by now apply ratio_midpoint.
  replace (IZR (num a) + IZR (num b - num a) * (1 / 2))
    with ((IZR (num a) + IZR (num b)) / 2) by (rewrite minus_IZR; lra).
  fold average.
  destruct (adjust_cases (side loc a b) (Fin average)) as [-> | ->];
    [left | right]; reflexivity.
Qed.

Lemma withNumbers_off_axis :
  withNumbers off_axis_places = [off_axis_p1; off_axis_p2].
Proof. reflexivity. Qed.

Lemma X27_witness :
  interpolateAddress midway_loc "Main St" (SearchPlaces off_axis_places) 0 = "150"
  \/ interpolateAddress midway_loc "Main St" (SearchPlaces off_axis_places) 0 = "151".
Proof.
  assert (Hd : distinct_positions off_axis_p1 off_axis_p2) by (left; cbn; lra).
  assert (Hlat : loc_lat midway_loc = (lat off_axis_p1 + lat off_axis_p2) / 2)
    by (cbn; lra).
  assert (Hlng : loc_lng midway_loc = (lng off_axis_p1 + lng off_axis_p2) / 2)
    by (cbn; lra).
  pose proof (X27_midpoint_rounded_average midway_loc "Main St" off_axis_places 0
                off_axis_p1 off_axis_p2 withNumbers_off_axis Hd Hlat Hlng) as H.
  cbn [num off_axis_p1 off_axis_p2] in H.
  replace ((100 + 200) / 2) with (IZR 150) in H by lra.
  rewrite round_IZR in H. exact H.
Defined.

(** ** Ratio: distance quotient, not projection *)

Lemma off_axis_sorted :
  sort (compareFn off_axis_loc) [off_axis_p1; off_axis_p2]
  = [off_axis_p1; off_axis_p2].
Proof.
  apply sort_pair_tie. unfold compareFn. cbn.
  rewrite (Math_hypot_eq (0 - 0) (0 - 3) 3) by lra.
  rewrite (Math_hypot_eq (4 - 0) (0 - 3) 5) by lra.
  lra.
Qed.

Lemma off_axis_ratio : ratio off_axis_loc off_axis_p1 off_axis_p2 = Fin (3 / 4).
Proof.
  rewrite ratio_distinct by (left; cbn; lra). cbn.
  rewrite (Math_hypot_eq (0 - 0) (3 - 0) 3) by lra.
  rewrite (Math_hypot_eq (4 - 0) (0 - 0) 4) by lra.
  f_equal. apply Rmin_right. lra.
Qed.

Lemma off_axis_projected_ratio :
  projected_ratio off_axis_loc off_axis_p1 off_axis_p2 = Fin 0.
Proof.
  unfold projected_ratio, num_div. cbn.
  rewrite (Math_hypot_eq (4 - 0) (0 - 0) 4) by lra.
  destruct (Req_dec_T 4 0) as [H | _]; [lra |].
  cbn. f_equal.
  replace (((0 - 0) * (4 - 0) + (3 - 0) * (0 - 0)) / 4 / 4) with 0 by lra.
  rewrite Rmax_left by lra. apply Rmin_right. lra.
Qed.

Lemma off_axis_interpolated :
  interpolated off_axis_loc off_axis_p1 off_axis_p2 = Fin 175%Z.
Proof.
  rewrite (interpolated_of_ratio _ _ _ _ off_axis_ratio). cbn.
  f_equal. apply round_eq. rewrite minus_IZR. lra.
Qed.

Lemma off_axis_projected_interpolated :
  projected_interpolated off_axis_loc off_axis_p1 off_axis_p2 = Fin 100%Z.
Proof.
  unfold projected_interpolated. rewrite off_axis_projected_ratio. cbn.
  f_equal. apply round_eq. rewrite minus_IZR. lra.
Qed.

(** C2, as stated, fails: for the candidates 100 at (0, 0) and 200 at
    (4, 0) and the target (0, 3), whose projection on the segment is the
    first candidate, the code's ratio is 3/4 and its estimate before the
    parity step is 175, where the projected ratio is 0 and gives 100; the
    string returned is "175" or "176". *)
Lemma C2_counterexample :
  sort (compareFn off_axis_loc) (withNumbers off_axis_places)
  = [off_axis_p1; off_axis_p2]
  /\ ratio off_axis_loc off_axis_p1 off_axis_p2 = Fin (3 / 4)
  /\ projected_ratio off_axis_loc off_axis_p1 off_axis_p2 = Fin 0
  /\ interpolated off_axis_loc off_axis_p1 off_axis_p2 = Fin 175%Z
  /\ projected_interpolated off_axis_loc off_axis_p1 off_axis_p2 = Fin 100%Z
  /\ interpolated off_axis_loc off_axis_p1 off_axis_p2
     <> projected_interpolated off_axis_loc off_axis_p1 off_axis_p2
  /\ (interpolateAddress off_axis_loc "Main St" (SearchPlaces off_axis_places) 0
      = "175"
      \/ interpolateAddress off_axis_loc "Main St" (SearchPlaces off_axis_places) 0
         = "176").
Proof.
  repeat split.
  - rewrite withNumbers_off_axis. apply off_axis_sorted.
  - apply off_axis_ratio.
  - apply off_axis_projected_ratio.
  - apply off_axis_interpolated.
  - apply off_axis_projected_interpolated.
  - rewrite off_axis_interpolated, off_axis_projected_interpolated. discriminate.
  - unfold interpolateAddress. rewrite withNumbers_off_axis.
    cbn [length Nat.ltb Nat.leb]. rewrite off_axis_sorted, off_axis_interpolated.
    destruct (adjust_cases (side off_axis_loc off_axis_p1 off_axis_p2) (Fin 175%Z))
      as [-> | ->]; [left | right]; reflexivity.
Qed.

(** C2, amended.  For the two nearest candidates [p1] and [p2], at
    distinct positions, the ratio is the distance from [p1] to the target
    divided by the distance from [p1] to [p2], cut at 1 (it lies in
    [0, 1]); the estimate before the parity step is
    [round (p1.num + (p2.num - p1.num) * ratio)], and the string returned
    prints that estimate after the parity step. *)
Theorem C2_ratio_is_distance_quotient (loc : Coordinate) (streetName : string)
    (places : list place) (rnd : R) (p1 p2 : AddressPoint) (rest : list AddressPoint) :
  sort (compareFn loc) (withNumbers places) = p1 :: p2 :: rest ->
  distinct_positions p1 p2 ->
  let totalDist := sqrt ((lat p2 - lat p1) * (lat p2 - lat p1)
                         + (lng p2 - lng p1) * (lng p2 - lng p1)) in
  let ourDist := sqrt ((loc_lat loc - lat p1) * (loc_lat loc - lat p1)
                       + (loc_lng loc - lng p1) * (loc_lng loc - lng p1)) in
  let r := Rmin 1 (ourDist / totalDist) in
  let estimate := round (IZR (num p1) + IZR (num p2 - num p1) * r) in
  ratio loc p1 p2 = Fin r
  /\ 0 <= r <= 1
  /\ interpolated loc p1 p2 = Fin estimate
  /\ ((2 <= length (withNumbers places))%nat ->
      interpolateAddress loc streetName (SearchPlaces places) rnd
      = toString (adjust (side loc p1 p2) (Fin estimate))).
Proof.
  intros Hsort Hd totalDist ourDist r estimate.
  assert (Hr : ratio loc p1 p2 = Fin r) by apply (ratio_distinct loc p1 p2 Hd).
  assert (Hi : interpolated loc p1 p2 = Fin estimate)
    by apply (interpolated_of_ratio loc p1 p2 r Hr).
  split; [exact Hr |]. split; [| split; [exact Hi |]].
  - destruct (ratio_distinct_range loc p1 p2 Hd) as (r' & Hr' & Hrange).
    rewrite Hr in Hr'. injection Hr' as Heq. rewrite Heq. exact Hrange.
  - intros Hlen. unfold interpolateAddress.
    apply Nat.ltb_ge in Hlen. rewrite Hlen, Hsort, Hi. reflexivity.
Qed.

Lemma C2_witness :
  ratio off_axis_loc off_axis_p1 off_axis_p2
  = Fin (Rmin 1 (sqrt ((0 - 0) * (0 - 0) + (3 - 0) * (3 - 0))
                 / sqrt ((4 - 0) * (4 - 0) + (0 - 0) * (0 - 0)))).
Proof.
  assert (Hsort : sort (compareFn off_axis_loc) (withNumbers off_axis_places)
                  = [off_axis_p1; off_axis_p2])
    by (rewrite withNumbers_off_axis; apply off_axis_sorted).
  assert (Hd : distinct_positions off_axis_p1 off_axis_p2) by (left; cbn; lra).
  exact (proj1 (C2_ratio_is_distance_quotient off_axis_loc "Main St"
                  off_axis_places 0 off_axis_p1 off_axis_p2 [] Hsort Hd)).
Defined.

(** ** Range of the interpolated number *)

Lemma ourDist_pos (loc : Coordinate) (p1 : AddressPoint) :
  ~ on_point loc p1 ->
  0 < Math_hypot (loc_lat loc - lat p1) (loc_lng loc - lng p1).
Proof.
  intros Hoff.
  destruct (Math_hypot_nonneg (loc_lat loc - lat p1) (loc_lng loc - lng p1))
    as [Hlt | Heq]; [exact Hlt |].
  symmetry in Heq. apply Math_hypot_zero in Heq.
  exfalso. apply Hoff. unfold on_point. lra.
Qed.

(** Two candidates on one spot and the target elsewhere: the quotient is
    plus infinity and the clamp brings it to 1. *)
Lemma ratio_stacked_off (loc : Coordinate) (p1 p2 : AddressPoint) :
  ~ distinct_positions p1 p2 -> ~ on_point loc p1 -> ratio loc p1 p2 = Fin 1.
Proof.
  intros Hst Hoff. unfold ratio, num_div.
  pose proof (ourDist_pos loc p1 Hoff) as Hour.
  assert (Htot : Math_hypot (lat p2 - lat p1) (lng p2 - lng p1) = 0).
  { apply Math_hypot_eq; [lra |].
    unfold distinct_positions in Hst.
    assert (lat p1 = lat p2) by (destruct (Req_dec_T (lat p1) (lat p2)); tauto).
    assert (lng p1 = lng p2) by (destruct (Req_dec_T (lng p1) (lng p2)); tauto).
    nra. }
  rewrite Htot.
  destruct (Req_dec_T 0 0) as [_ | H]; [| lra].
  destruct (Req_dec_T _ 0) as [H | _]; [lra |].
  unfold is_neg, Rltb. destruct (Rlt_dec _ 0); [lra | reflexivity].
Qed.

(** Two candidates on one spot and the target on it: 0 / 0. *)
Lemma ratio_stacked_on (loc : Coordinate) (p1 p2 : AddressPoint) :
  lat p1 = lat p2 -> lng p1 = lng p2 -> on_point loc p1 -> ratio loc p1 p2 = NaN.
Proof.
  intros Hlat Hlng [Hl1 Hl2]. unfold ratio, num_div.
  rewrite (Math_hypot_eq (lat p2 - lat p1) (lng p2 - lng p1) 0) by nra.
  rewrite (Math_hypot_eq (loc_lat loc - lat p1) (loc_lng loc - lng p1) 0) by nra.
  destruct (Req_dec_T 0 0) as [_ | H]; [reflexivity | lra].
Qed.

(** Unless both candidates and the target share one position, the
    estimate before the parity step lies between the two numbers and the
    parity step adds 0 or 1. *)
Lemma interpolated_range (loc : Coordinate) (p1 p2 : AddressPoint) :
  distinct_positions p1 p2 \/ ~ on_point loc p1 ->
  exists z0 z,
    interpolated loc p1 p2 = Fin z0
    /\ adjust (side loc p1 p2) (interpolated loc p1 p2) = Fin z
    /\ (Z.min (num p1) (num p2) <= z0 <= Z.max (num p1) (num p2))%Z
    /\ (z = z0 \/ z = z0 + 1)%Z.
Proof.
  intros Hcase.
  assert (Hr : exists r, ratio loc p1 p2 = Fin r /\ 0 <= r <= 1).
  { assert (Hdec : distinct_positions p1 p2 \/ ~ distinct_positions p1 p2).
    { unfold distinct_positions.
      destruct (Req_dec_T (lat p1) (lat p2)), (Req_dec_T (lng p1) (lng p2)); tauto. }
    destruct Hdec as [Hd | Hst].
    - apply ratio_distinct_range, Hd.
    - exists 1. split; [| lra]. apply ratio_stacked_off; tauto. }
  destruct Hr as (r & Hr & Hrange).
  pose proof (interpolated_of_ratio loc p1 p2 r Hr) as Hi.
  set (z0 := round (IZR (num p1) + IZR (num p2 - num p1) * r)) in *.
  rewrite Hi.
  destruct (adjust_cases (side loc p1 p2) (Fin z0)) as [Ha | Ha]; rewrite Ha.
  - exists z0, z0. repeat split; try apply round_between; auto.
  - exists z0, (z0 + 1)%Z. repeat split; try apply round_between; auto.
Qed.

Lemma adjust_NaN (s : R) : adjust s NaN = NaN.
Proof.
  unfold adjust. cbn. now rewrite !andb_false_r.
Qed.

Lemma withNumbers_stacked :
  withNumbers stacked_places = [mkPoint 100 0 0; mkPoint 200 0 0].
Proof. reflexivity. Qed.

(** C9 fails on the code.  Two candidates, 100 and 200, with the same
    coordinates and the target on them: the interpolation branch is
    reached, the ratio is 0 / 0, which the clamp lets through, and the
    string returned is "NaN", not a number between 100 and 201. *)
Theorem C9_stacked_candidates_give_NaN (streetName : string) (rnd : R) :
  (2 <= length (withNumbers stacked_places))%nat
  /\ ratio stacked_loc (mkPoint 100 0 0) (mkPoint 200 0 0) = NaN
  /\ interpolateAddress stacked_loc streetName (SearchPlaces stacked_places) rnd
     = "NaN".
Proof.
  assert (Hr : ratio stacked_loc (mkPoint 100 0 0) (mkPoint 200 0 0) = NaN).
  { apply ratio_stacked_on; try reflexivity. split; reflexivity. }
  split; [rewrite withNumbers_stacked; cbn; lia |]. split; [exact Hr |].
  unfold interpolateAddress. rewrite withNumbers_stacked.
  cbn [length Nat.ltb Nat.leb].
  rewrite sort_pair_tie.
  - unfold interpolated. rewrite Hr. cbn [num_mul num_add Math_round].
    now rewrite adjust_NaN.
  - unfold compareFn. cbn. lra.
Qed.

(** ** The stacked candidates under the other claims *)

Lemma ratio_stacked :
  ratio stacked_loc (mkPoint 100 0 0) (mkPoint 200 0 0) = NaN.
Proof.
  apply ratio_stacked_on; try reflexivity. split; reflexivity.
Qed.

Lemma interpolateAddress_stacked (streetName : string) (rnd : R) :
  interpolateAddress stacked_loc streetName (SearchPlaces stacked_places) rnd
  = "NaN".
Proof.
  unfold interpolateAddress. rewrite withNumbers_stacked.
  cbn [length Nat.ltb Nat.leb].
  rewrite sort_pair_tie by (unfold compareFn; cbn; lra).
  unfold interpolated. rewrite ratio_stacked. cbn [num_mul num_add Math_round].
  now rewrite adjust_NaN.
Qed.

Lemma length_append (s t : string) :
  String.length (s ++ t) = (String.length s + String.length t)%nat.
Proof.
  induction s as [| c s IH]; [reflexivity |].
  change (S (String.length (s ++ t)) = S (String.length s + String.length t)).
  now rewrite IH.
Qed.

(** A string of three characters does not end with " (approx)". *)
Lemma NaN_not_approx (pre : string) : "NaN" <> pre ++ " (approx)".
Proof.
  intros Heq. apply (f_equal String.length) in Heq.
  rewrite length_append in Heq. cbn in Heq. lia.
Qed.

(** C1 fails on the code.  The candidates 100 and 200 are exactly the
    two available, their numbers differ, and the target is at the
    midpoint of the segment between them, a segment of length zero: the
    rounded average is 150 and the string returned is "NaN", neither
    "150" nor "151". *)
Theorem C1_stacked_midpoint_gives_NaN (streetName : string) (rnd : R) :
  let a := mkPoint 100 0 0 in
  let b := mkPoint 200 0 0 in
  withNumbers stacked_places = [a; b]
  /\ num a <> num b
  /\ loc_lat stacked_loc = (lat a + lat b) / 2
  /\ loc_lng stacked_loc = (lng a + lng b) / 2
  /\ round ((IZR (num a) + IZR (num b)) / 2) = 150%Z
  /\ interpolateAddress stacked_loc streetName (SearchPlaces stacked_places) rnd
     = "NaN"
  /\ interpolateAddress stacked_loc streetName (SearchPlaces stacked_places) rnd
     <> int_toString 150
  /\ interpolateAddress stacked_loc streetName (SearchPlaces stacked_places) rnd
     <> int_toString (150 + 1).
Proof.
  intros a b. subst a b.
  split; [exact withNumbers_stacked |].
  split; [cbn; discriminate |].
  split; [cbn; lra |]. split; [cbn; lra |].
  split; [cbn [num]; apply round_eq; lra |].
  rewrite interpolateAddress_stacked.
  split; [reflexivity |]. split; discriminate.
Qed.

(** C5 fails on the code.  With the candidates 100 and 200 on one spot
    and the target on it, the division 0 / 0 inside the [try] gives NaN
    without throwing, the [catch] is not entered, and the string
    returned is "NaN": not the one of [estimateFromBlock], whatever the
    random draw, and no string that ends with " (approx)". *)
Theorem C5_stacked_NaN_is_not_the_grid_estimate (streetName : string) (rnd : R) :
  ratio stacked_loc (mkPoint 100 0 0) (mkPoint 200 0 0) = NaN
  /\ interpolateAddress stacked_loc streetName (SearchPlaces stacked_places) rnd
     = "NaN"
  /\ (forall rnd',
        interpolateAddress stacked_loc streetName (SearchPlaces stacked_places) rnd
        <> estimateFromBlock stacked_loc streetName rnd')
  /\ (forall pre,
        interpolateAddress stacked_loc streetName (SearchPlaces stacked_places) rnd
        <> pre ++ " (approx)").
Proof.
  split; [exact ratio_stacked |].
  rewrite interpolateAddress_stacked.
  split; [reflexivity |].
  split; [| apply NaN_not_approx].
  intros rnd'. destruct (estimateFromBlock_approx stacked_loc streetName rnd')
    as [pre ->].
  apply NaN_not_approx.
Qed.

(** X28. Whatever the search gives, [interpolateAddress] returns a
    non-empty string of one of three forms: the string of
    [estimateFromBlock], a printed integer, or "NaN" ("Infinity" never
    comes out); when the search step throws it is the string of
    [estimateFromBlock]. *)
Theorem X28_interpolateAddress_output_forms (loc : Coordinate)
    (streetName : string) (res : search_result) (rnd : R) :
  interpolateAddress loc streetName res rnd <> ""
  /\ (interpolateAddress loc streetName res rnd
      = estimateFromBlock loc streetName rnd
      \/ interpolateAddress loc streetName res rnd = "NaN"
      \/ exists z, interpolateAddress loc streetName res rnd = int_toString z)
  /\ interpolateAddress loc streetName SearchThrows rnd
     = estimateFromBlock loc streetName rnd.
Proof.
  split; [apply interpolateAddress_nonempty |]. split; [| reflexivity].
  unfold interpolateAddress.
  destruct res as [| places]; [now left |].
  destruct (length (withNumbers places) <? 2)%nat; [now left |].
  destruct (sort (compareFn loc) (withNumbers places)) as [| p1 [| p2 rest]];
    [now left | right; right; now exists (num p1) |].
  right.
  destruct (Req_dec_T (lat p1) (lat p2)) as [Hlat | Hlat];
    [| destruct (interpolated_range loc p1 p2) as (z0 & z & _ & -> & _);
       [left; now left | right; now exists z]].
  destruct (Req_dec_T (lng p1) (lng p2)) as [Hlng | Hlng];
    [| destruct (interpolated_range loc p1 p2) as (z0 & z & _ & -> & _);
       [left; now right | right; now exists z]].
  destruct (Req_dec_T (loc_lat loc) (lat p1)) as [Hl1 | Hl1];
    [| destruct (interpolated_range loc p1 p2) as (z0 & z & _ & -> & _);
       [right; intros [H _]; contradiction | right; now exists z]].
  destruct (Req_dec_T (loc_lng loc) (lng p1)) as [Hl2 | Hl2];
    [| destruct (interpolated_range loc p1 p2) as (z0 & z & _ & -> & _);
       [right; intros [_ H]; contradiction | right; now exists z]].
  left. unfold interpolated.
  rewrite (ratio_stacked_on loc p1 p2 Hlat Hlng (conj Hl1 Hl2)).
  cbn [num_mul num_add Math_round]. now rewrite adjust_NaN.
Qed.

(** ** The sort brings the two nearest candidates to the front *)

Lemma sort_insert_Permutation {A : Type} (cmp : A -> A -> R) (x : A) (l : list A) :
  Permutation (sort_insert cmp x l) (x :: l).
Proof.
  induction l as [| y t IH]; cbn; [reflexivity |].
  destruct (Rlt_dec 0 (cmp x y)); [| reflexivity].
  rewrite IH. apply perm_swap.
Qed.

Lemma sort_Permutation {A : Type} (cmp : A -> A -> R) (l : list A) :
  Permutation (sort cmp l) l.
Proof.
  induction l as [| x t IH]; cbn; [reflexivity |].
  fold (sort cmp t). rewrite sort_insert_Permutation. now constructor.
Qed.

Lemma sort_insert_sorted (loc : Coordinate) (x : AddressPoint) (l : list AddressPoint) :
  StronglySorted (nearer loc) l ->
  StronglySorted (nearer loc) (sort_insert (compareFn loc) x l).
Proof.
  induction 1 as [| y t Hs IH Hall]; cbn.
  - repeat constructor.
  - destruct (Rlt_dec 0 (compareFn loc x y)) as [Hgt | Hle].
    + constructor; [exact IH |].
      rewrite sort_insert_Permutation. constructor; [| exact Hall].
      unfold nearer. unfold compareFn in Hgt. fold (distance loc x) in Hgt.
      fold (distance loc y) in Hgt. lra.
    + assert (Hxy : nearer loc x y).
      { unfold nearer. unfold compareFn in Hle. fold (distance loc x) in Hle.
        fold (distance loc y) in Hle. lra. }
      constructor; [now constructor |].
      constructor; [exact Hxy |].
      eapply Forall_impl; [exact Hall |].
      intros z Hyz. unfold nearer in *. lra.
Qed.

Lemma sort_sorted (loc : Coordinate) (l : list AddressPoint) :
  StronglySorted (nearer loc) (sort (compareFn loc) l).
Proof.
  induction l as [| x t IH]; cbn; [constructor |].
  now apply sort_insert_sorted.
Qed.

(** The first two elements after the sort are candidates, and no other
    candidate is nearer to the target than they are. *)
Lemma sort_two_nearest (loc : Coordinate) (l rest : list AddressPoint)
    (p1 p2 : AddressPoint) :
  sort (compareFn loc) l = p1 :: p2 :: rest ->
  Permutation (p1 :: p2 :: rest) l
  /\ nearer loc p1 p2
  /\ Forall (nearer loc p2) rest.
Proof.
  intros Hsort.
  pose proof (sort_Permutation (compareFn loc) l) as Hperm.
  pose proof (sort_sorted loc l) as Hsorted.
  rewrite Hsort in Hperm, Hsorted.
  split; [exact Hperm |].
  inversion Hsorted as [| ? ? Htail Hall1]; subst.
  inversion Htail as [| ? ? _ Hall2]; subst.
  inversion Hall1; subst. split; assumption.
Qed.

(** ** Address Composer *)

Lemma append_nonempty_r (s t : string) : t <> "" -> s ++ t <> "".
Proof.
  intros Ht. destruct s; [exact Ht | discriminate].
Qed.

Lemma concat_nonempty (sep x : string) (l : list string) :
  In x l -> x <> "" -> String.concat sep l <> "".
Proof.
  intros Hin Hx. induction l as [| y t IH]; [destruct Hin |].
  cbn. destruct t as [| z t'].
  - destruct Hin as [-> | []]. exact Hx.
  - destruct Hin as [-> | Hin].
    + now apply append_nonempty_l.
    + apply append_nonempty_r, append_nonempty_r, IH, Hin.
Qed.

Lemma truthy_nonempty (a : option string) :
  truthy a = true -> nonempty (default "" a) = true.
Proof.
  destruct a as [s |]; [| discriminate]. auto.
Qed.

Lemma nonempty_true (s : string) : nonempty s = true <-> s <> "".
Proof.
  unfold nonempty. rewrite negb_true_iff. split.
  - intros H ->. discriminate.
  - intros H. destruct s; [congruence | reflexivity].
Qed.

Lemma or_else_nonempty (a : option string) (d : string) :
  d <> "" -> or_else a d <> "".
Proof.
  intros Hd. unfold or_else. destruct (truthy a) eqn:Ha; [| exact Hd].
  now apply nonempty_true, truthy_nonempty.
Qed.

(** The number put in front of the road is never empty. *)
Lemma streetNum_nonempty (addr : address_details) (loc : Coordinate)
    (road : string) (search : search_result) (rnd : R) :
  nonempty (if truthy (house_number addr)
            then default "" (house_number addr)
            else interpolateAddress loc road search rnd) = true.
Proof.
  destruct (truthy (house_number addr)) eqn:Hh.
  - now apply truthy_nonempty.
  - apply nonempty_true, interpolateAddress_nonempty.
Qed.

Lemma getAddress_formula (loc : Coordinate) (address : option address_details)
    (display_name : option string) (search : search_result) (rnd : R) :
  let addr := default no_address address in
  let road := or_else (road addr) (or_else (street addr) "") in
  let streetNum :=
    if truthy (house_number addr) then default "" (house_number addr)
    else interpolateAddress loc road search rnd in
  let locality :=
    if truthy (neighbourhood addr) then [default "" (neighbourhood addr)]
    else if truthy (suburb addr) then [default "" (suburb addr)] else [] in
  let postal :=
    if truthy (postcode addr) then [default "" (postcode addr)] else [] in
  getAddress (Some loc) (ReverseData address display_name) search rnd
  = if nonempty road
    then String.concat ", "
           ((streetNum ++ " " ++ road)
            :: (locality ++ [or_else (city addr) "Los Angeles"; "CA"] ++ postal)%list)
    else if truthy display_name then default "" display_name
         else "Los Angeles, CA".
Proof.
  intros addr road0 streetNum locality postal.
  unfold getAddress. fold addr. fold road0.
  destruct (nonempty road0) eqn:Hroad; cbn [negb]; [| reflexivity].
  fold streetNum.
  assert (Hnum : nonempty streetNum = true) by apply streetNum_nonempty.
  rewrite Hnum. cbn [andb].
  unfold locality, postal, push.
  destruct (truthy (neighbourhood addr)), (truthy (suburb addr)),
    (truthy (postcode addr)); reflexivity.
Qed.



(** The composer without interpolation never returns the empty string
    either: its list of parts always holds "CA". *)
Lemma reverseGeo_nonempty (l : option Coordinate) (rev : reverse_result) :
  reverseGeo l rev <> "".
Proof.
  destruct l as [loc |]; [| discriminate].
  destruct rev as [| address display_name]; [discriminate |].
  unfold reverseGeo.
  set (parts := omap _ _).
  assert (Hca : In "CA" parts).
  { apply list_elem_of_In, list_elem_of_omap. exists (Some "CA").
    split; [| reflexivity]. apply list_elem_of_In. cbn. tauto. }
  destruct (nonempty (String.concat ", " parts)) eqn:Hj.
  - now apply nonempty_true.
  - exfalso. apply (concat_nonempty ", " "CA" parts Hca); [discriminate |].
    destruct (String.concat ", " parts); [reflexivity | discriminate].
Qed.

Lemma round_unique (z : Z) (x : R) :
  IZR z - 1 / 2 <= x < IZR z + 1 / 2 -> round x = z.
Proof.
  intros Hx. unfold round. apply Zfloor_eq. lra.
Qed.

(** ** Report Builder: failures *)

Lemma handleReport_throws_before_put (origin : string) (now : N)
    (rand36 date iso : string) (kv : gmap string kv_entry)
    (type timestamp image address source : option string) :
  handleReport JsonThrows origin now rand36 date iso kv = (Some failure, kv)
  /\ handleReport JsonNull origin now rand36 date iso kv = (Some failure, kv)
  /\ handleReport (JsonObject (mkReport type None timestamp image address source))
       origin now rand36 date iso kv = (Some failure, kv).
Proof.
  repeat split; reflexivity.
Qed.

Lemma handleReport_throws_after_put (origin : string) (now : N)
    (rand36 date iso : string) (kv : gmap string kv_entry)
    (report : PotholeReport) (location : Location) :
  r_location report = Some location ->
  r_address report = None \/ l_lat location = None \/ l_lng location = None ->
  handleReport (JsonObject report) origin now rand36 date iso kv
  = (Some failure,
     <[reportId now rand36 :=
         stored_entry report location origin (reportId now rand36) iso]> kv).
Proof.
  intros Hloc Hmissing.
  destruct report as [type location' timestamp image address source].
  destruct location as [la ln accuracy].
  cbn in Hloc, Hmissing. subst location'.
  destruct la as [la |], ln as [ln |], address as [address |];
    try reflexivity.
  destruct Hmissing as [H | [H | H]]; discriminate.
Qed.

(** With every field present the handler writes the record, builds the
    letter and then the mail link: it answers 200 with the fresh
    identifier when both texts of the link can be encoded, and 500 when
    [encodeURIComponent] throws. *)
Lemma handleReport_after_put (origin : string) (now : N)
    (rand36 date iso : string) (kv : gmap string kv_entry)
    (report : PotholeReport) (location : Location) (la ln : json_number)
    (address : string) :
  r_location report = Some location ->
  l_lat location = Some la -> l_lng location = Some ln ->
  r_address report = Some address ->
  exists letter,
    generateFormalLetter report location (reportId now rand36)
      (googleMapsUrl location) (imageUrl origin (reportId now rand36))
      (viewUrl origin (reportId now rand36)) date
      (<[reportId now rand36 :=
           stored_entry report location origin (reportId now rand36) iso]> kv)
    = (Some letter,
       <[reportId now rand36 :=
           stored_entry report location origin (reportId now rand36) iso]> kv)
    /\ handleReport (JsonObject report) origin now rand36 date iso kv
       = (Some match mailtoUrl (reportId now rand36) (streetName_of address)
                       letter with
               | Some mail =>
                   {| status := 200;
                      body := Success (reportId now rand36) (googleMapsUrl location)
                                (imageUrl origin (reportId now rand36))
                                (viewUrl origin (reportId now rand36)) letter mail
                                "https://myla311.lacity.org/portal/faces/home"
                                address "Report ready!" |}
               | None => failure
               end,
          <[reportId now rand36 :=
              stored_entry report location origin (reportId now rand36) iso]> kv).
Proof.
  intros Hloc Hla Hln Haddr.
  destruct report as [type location' timestamp image address' source].
  destruct location as [la' ln' accuracy].
  cbn in Hloc, Hla, Hln, Haddr. subst location' la' ln' address'.
  eexists. split; [reflexivity |].
  unfold handleReport, try_catch, bind.
  cbn [r_location r_address l_lat l_lng required ret kv_put generateFormalLetter
       bind fst snd].
  match goal with
  | |- context [required ?m] => destruct m as [mail |]
  end; reflexivity.
Qed.

(** The printed coordinates of the sample capture. *)
Lemma toFixed6_sample : toFixed6 34.05 = "34.050000" /\ toFixed6 (-118.25) = "-118.250000".
Proof.
  unfold toFixed6, Rltb. split.
  - destruct (Rlt_dec 34.05 0); [lra |].
    rewrite Rabs_pos_eq by lra.
    rewrite (round_unique 34050000 (34.05 * 1000000)) by lra. reflexivity.
  - destruct (Rlt_dec (-118.25) 0); [| lra].
    rewrite Rabs_left by lra.
    rewrite (round_unique 118250000 (- -118.25 * 1000000)) by lra. reflexivity.
Qed.

(** The letter of the sample capture and the subject of its mail are
    plain ASCII, so the mail link is built. *)
Lemma mailtoUrl_sample (letter : string) (kv : gmap string kv_entry) :
  generateFormalLetter (sample_report (Some "123 Main St, Los Angeles, CA"))
    sample_location "LA-M2R1BZ7K-4FZY" (googleMapsUrl sample_location)
    (imageUrl sample_origin "LA-M2R1BZ7K-4FZY")
    (viewUrl sample_origin "LA-M2R1BZ7K-4FZY") sample_date kv
  = (Some letter, kv) ->
  exists mail,
    mailtoUrl "LA-M2R1BZ7K-4FZY" (streetName_of "123 Main St, Los Angeles, CA")
      letter = Some mail.
Proof.
  intros Hletter.
  unfold generateFormalLetter, bind, required, ret in Hletter.
  cbn [sample_location l_lat l_lng value fst snd] in Hletter.
  destruct toFixed6_sample as [Hlat Hlng]. rewrite Hlat, Hlng in Hletter.
  injection Hletter as <-.
  unfold mailtoUrl, encodeURIComponent.
  match goal with
  | |- context [lone_surrogate ?x] =>
      replace (lone_surrogate x) with false by (vm_compute; reflexivity)
  end.
  match goal with
  | |- context [lone_surrogate ?x] =>
      replace (lone_surrogate x) with false by (vm_compute; reflexivity)
  end.
  eexists. reflexivity.
Qed.

(** The sample capture is answered 200 with the identifier made from the
    clock reading and the draw, after its record was written. *)
Lemma handleReport_sample_run (rand36 : string) (kv : gmap string kv_entry) :
  reportId 1730000000000 rand36 = "LA-M2R1BZ7K-4FZY" ->
  exists letter mail,
    handleReport (JsonObject (sample_report (Some "123 Main St, Los Angeles, CA")))
      sample_origin 1730000000000 rand36 sample_date sample_iso kv
    = (Some {| status := 200;
               body := Success "LA-M2R1BZ7K-4FZY" (googleMapsUrl sample_location)
                         (imageUrl sample_origin "LA-M2R1BZ7K-4FZY")
                         (viewUrl sample_origin "LA-M2R1BZ7K-4FZY") letter mail
                         "https://myla311.lacity.org/portal/faces/home"
                         "123 Main St, Los Angeles, CA" "Report ready!" |},
       <["LA-M2R1BZ7K-4FZY" :=
           stored_entry (sample_report (Some "123 Main St, Los Angeles, CA"))
             sample_location sample_origin "LA-M2R1BZ7K-4FZY" sample_iso]> kv).
Proof.
  intros Hid.
  destruct (handleReport_after_put sample_origin 1730000000000 rand36
              sample_date sample_iso kv
              (sample_report (Some "123 Main St, Los Angeles, CA"))
              sample_location _ _ _ eq_refl eq_refl eq_refl eq_refl)
    as (letter & Hletter & Hrun).
  rewrite Hid in Hletter, Hrun.
  destruct (mailtoUrl_sample letter _ Hletter) as (mail & Hmail).
  rewrite Hmail in Hrun. now exists letter, mail.
Qed.

(** Whatever the request, the handler returns a response (the [catch]
    cannot throw), and a response that is not a success is the 500
    "Failed to process report". *)
Lemma handleReport_response (request : request_json) (origin : string) (now : N)
    (rand36 date iso : string) (kv : gmap string kv_entry) :
  exists resp,
    fst (handleReport request origin now rand36 date iso kv) = Some resp
    /\ (resp = failure \/ response_id resp = Some (reportId now rand36)).
Proof.
  destruct request as [| | report]; try (exists failure; split; [reflexivity | now left]).
  destruct report as [type [location |] timestamp image address source];
    [| exists failure; split; [reflexivity | now left]].
  destruct location as [[la |] [ln |] accuracy], address as [address |];
    try (exists failure; split; [reflexivity | now left]).
  destruct (handleReport_after_put origin now rand36 date iso kv
              (mkReport type (Some (mkLocation (Some la) (Some ln) accuracy))
                 timestamp image (Some address) source)
              _ la ln address eq_refl eq_refl eq_refl eq_refl)
    as (letter & _ & Hrun).
  rewrite Hrun. cbn [fst].
  destruct (mailtoUrl _ _ letter) as [mail |];
    eexists; (split; [reflexivity |]); [right; reflexivity | now left].
Qed.

(** C6, as stated, fails: a capture with its location but without an
    address gets the 500 response after its record was written. *)
Lemma C6_counterexample :
  fst (handleReport (JsonObject (sample_report None)) sample_origin 1730000000000
         "0.4fzyo82mvyr" sample_date sample_iso ∅) = Some failure
  /\ snd (handleReport (JsonObject (sample_report None)) sample_origin 1730000000000
            "0.4fzyo82mvyr" sample_date sample_iso ∅) !! "LA-M2R1BZ7K-4FZY"
     = Some (stored_entry (sample_report None) sample_location sample_origin
               "LA-M2R1BZ7K-4FZY" sample_iso)
  /\ snd (handleReport (JsonObject (sample_report None)) sample_origin 1730000000000
            "0.4fzyo82mvyr" sample_date sample_iso ∅) <> ∅.
Proof.
  rewrite (handleReport_throws_after_put sample_origin 1730000000000 "0.4fzyo82mvyr"
             sample_date sample_iso ∅ (sample_report None) sample_location eq_refl)
    by now left.
  change (reportId 1730000000000 "0.4fzyo82mvyr") with "LA-M2R1BZ7K-4FZY".
  cbn [fst snd]. split; [reflexivity |]. split.
  - apply lookup_insert_eq.
  - apply insert_non_empty.
Qed.

(** C6, amended.  When the body does not parse, is [null] or has no
    location, [handleReport] answers 500 with
    [{success: false, error: "Failed to process report"}] and the store
    is unchanged; when the location is there and the address is not, it
    gives the same answer after having written the record under the new
    identifier. *)
Theorem C6_failure_response_and_store (origin : string) (now : N)
    (rand36 date iso : string) (kv : gmap string kv_entry)
    (type timestamp image address source : option string) (location : Location) :
  handleReport JsonThrows origin now rand36 date iso kv = (Some failure, kv)
  /\ handleReport JsonNull origin now rand36 date iso kv = (Some failure, kv)
  /\ handleReport (JsonObject (mkReport type None timestamp image address source))
       origin now rand36 date iso kv = (Some failure, kv)
  /\ handleReport
       (JsonObject (mkReport type (Some location) timestamp image None source))
       origin now rand36 date iso kv
     = (Some failure,
        <[reportId now rand36 :=
            stored_entry (mkReport type (Some location) timestamp image None source)
              location origin (reportId now rand36) iso]> kv)
  /\ status failure = 500%Z
  /\ body failure = Failure "Failed to process report".
Proof.
  destruct (handleReport_throws_before_put origin now rand36 date iso kv
              type timestamp image address source) as (H1 & H2 & H3).
  repeat split; try assumption.
  apply handleReport_throws_after_put; [reflexivity | now left].
Qed.

(** ** Report Builder: identifiers *)

Lemma digit36_upper_value (m : N) :
  (m < 36)%N -> dval36 (upper_ascii (digit36 m)) = m.
Proof.
  intros Hm. destruct m as [| p]; [reflexivity |].
  do 6 (try (destruct p as [p | p |]; try reflexivity)); lia.
Qed.

Lemma digit36_upper_not_dash (m : N) :
  (m < 36)%N -> Ascii.eqb (upper_ascii (digit36 m)) "-" = false.
Proof.
  intros Hm. destruct m as [| p]; [reflexivity |].
  do 6 (try (destruct p as [p | p |]; try reflexivity)); lia.
Qed.

Lemma append_nil (t : string) : "" ++ t = t.
Proof. reflexivity. Qed.

Lemma append_cons (c : ascii) (s t : string) : String c s ++ t = String c (s ++ t).
Proof. reflexivity. Qed.

Lemma append_assoc (s t u : string) : (s ++ t) ++ u = s ++ (t ++ u).
Proof.
  induction s as [| c s IH]; rewrite ?append_nil, ?append_cons; congruence.
Qed.

Lemma map_string_app (f : ascii -> ascii) (s t : string) :
  map_string f (s ++ t) = map_string f s ++ map_string f t.
Proof.
  induction s as [| c s IH]; rewrite ?append_nil, ?append_cons; simpl;
    rewrite ?append_cons; congruence.
Qed.

Lemma read36_app (s t : string) (v : N) :
  read36 (s ++ t) v = read36 t (read36 s v).
Proof.
  revert v. induction s as [| c s IH]; intros v;
    rewrite ?append_nil, ?append_cons; cbn; [reflexivity | apply IH].
Qed.

Lemma has_dash_app (s t : string) :
  has_dash (s ++ t) = has_dash s || has_dash t.
Proof.
  induction s as [| c s IH]; rewrite ?append_nil, ?append_cons; cbn;
    [reflexivity |].
  now rewrite IH, orb_assoc.
Qed.

(** The digits already produced are only appended to. *)
Lemma toString36_aux_acc (fuel : nat) (n : N) (acc : string) :
  toString36_aux fuel n acc = toString36_aux fuel n "" ++ acc.
Proof.
  revert n acc. induction fuel as [| fuel IH]; intros n acc; cbn; [reflexivity |].
  destruct (n =? 0)%N; [reflexivity |].
  rewrite (IH _ (String _ acc)), (IH _ (String _ "")).
  now rewrite append_assoc.
Qed.

Lemma toString36_aux_read (fuel : nat) (n : N) :
  (n < 36 ^ N.of_nat fuel)%N ->
  read36 (toUpperCase (toString36_aux fuel n "")) 0 = n.
Proof.
  revert n. induction fuel as [| fuel IH]; intros n Hn.
  - cbn in *. lia.
  - cbn [toString36_aux]. destruct (N.eqb_spec n 0) as [-> | Hnz]; [reflexivity |].
    rewrite toString36_aux_acc. unfold toUpperCase.
    rewrite map_string_app, read36_app. fold toUpperCase.
    rewrite IH.
    + cbn. rewrite digit36_upper_value by (apply N.mod_lt; lia).
      rewrite (N.div_mod n 36) at 3 by lia. lia.
    + apply N.Div0.div_lt_upper_bound.
      rewrite Nat2N.inj_succ, N.pow_succ_r' in Hn. exact Hn.
Qed.

Lemma toString36_aux_no_dash (fuel : nat) (n : N) :
  has_dash (toUpperCase (toString36_aux fuel n "")) = false.
Proof.
  revert n. induction fuel as [| fuel IH]; intros n; cbn; [reflexivity |].
  destruct (n =? 0)%N; [reflexivity |].
  rewrite toString36_aux_acc. unfold toUpperCase.
  rewrite map_string_app, has_dash_app. fold toUpperCase.
  rewrite IH. cbn. rewrite digit36_upper_not_dash by (apply N.mod_lt; lia).
  reflexivity.
Qed.

Lemma size_enough (n : N) : (n < 36 ^ N.of_nat (N.to_nat (N.size n)))%N.
Proof.
  rewrite N2Nat.id.
  apply N.lt_le_trans with (2 ^ N.size n)%N; [apply N.size_gt |].
  apply N.pow_le_mono_l. lia.
Qed.

(** The base-36 numeral determines the number. *)
Lemma toString36_read (n : N) : read36 (toUpperCase (toString36 n)) 0 = n.
Proof.
  unfold toString36. destruct (N.eqb_spec n 0) as [-> | Hnz]; [reflexivity |].
  apply toString36_aux_read, size_enough.
Qed.

Lemma toString36_no_dash (n : N) : has_dash (toUpperCase (toString36 n)) = false.
Proof.
  unfold toString36. destruct (n =? 0)%N; [reflexivity |].
  apply toString36_aux_no_dash.
Qed.

Lemma split_at_dash (s1 s2 x1 x2 : string) :
  has_dash s1 = false -> has_dash s2 = false ->
  s1 ++ String "-" x1 = s2 ++ String "-" x2 ->
  s1 = s2 /\ x1 = x2.
Proof.
  revert s2. induction s1 as [| c s1 IH]; intros [| d s2] H1 H2 Heq;
    rewrite ?append_nil, ?append_cons in Heq; cbn in *.
  - injection Heq as ->. auto.
  - injection Heq as <- _. cbn in H2. discriminate.
  - injection Heq as -> _. cbn in H1. discriminate.
  - injection Heq as -> Heq.
    apply orb_false_elim in H1 as [_ H1]. apply orb_false_elim in H2 as [_ H2].
    destruct (IH s2 H1 H2 Heq) as [-> ->]. auto.
Qed.

(** The identifier determines the clock reading and the suffix. *)
Lemma reportId_inj (now1 now2 : N) (rand1 rand2 : string) :
  reportId now1 rand1 = reportId now2 rand2 ->
  now1 = now2
  /\ toUpperCase (slice_2_6 rand1) = toUpperCase (slice_2_6 rand2).
Proof.
  unfold reportId. rewrite !append_cons, !append_nil. intros Heq.
  injection Heq as Heq.
  apply split_at_dash in Heq as [Ht Hs]; try apply toString36_no_dash.
  split; [| exact Hs].
  rewrite <- (toString36_read now1), <- (toString36_read now2). now rewrite Ht.
Qed.

(** C8, as stated, fails: the same capture submitted twice within one
    millisecond, with two random draws that agree on their first four
    base-36 digits, gets the same identifier twice, and the second
    record replaces the first. *)
Lemma C8_counterexample :
  let request := JsonObject (sample_report (Some "123 Main St, Los Angeles, CA")) in
  let first := handleReport request sample_origin 1730000000000 "0.4fzyo82mvyr"
                 sample_date sample_iso ∅ in
  let second := handleReport request sample_origin 1730000000000 "0.4fzyabcdefg"
                  sample_date sample_iso (snd first) in
  response_id <$> fst first = Some (Some "LA-M2R1BZ7K-4FZY")
  /\ response_id <$> fst second = Some (Some "LA-M2R1BZ7K-4FZY")
  /\ snd second = snd first.
Proof.
  intros request first second.
  destruct (handleReport_sample_run "0.4fzyo82mvyr" ∅ eq_refl)
    as (letter1 & mail1 & H1).
  destruct (handleReport_sample_run "0.4fzyabcdefg" (snd first) eq_refl)
    as (letter2 & mail2 & H2).
  subst first second request. rewrite H2, H1. cbn [fst snd].
  split; [reflexivity |]. split; [reflexivity |].
  apply insert_insert_eq.
Qed.

(** C8, amended.  Two identifiers are distinct as soon as the clock
    readings differ or the four-character suffixes cut from the random
    draws differ, and every success response carries the identifier made
    from the clock reading and the draw of its call. *)
Theorem C8_ids_distinct_when_clock_or_suffix_differ (request : request_json)
    (origin : string) (now1 now2 : N) (rand1 rand2 date1 date2 iso1 iso2 : string)
    (kv1 kv2 : gmap string kv_entry) :
  now1 <> now2
  \/ toUpperCase (slice_2_6 rand1) <> toUpperCase (slice_2_6 rand2) ->
  reportId now1 rand1 <> reportId now2 rand2
  /\ forall id1 id2,
       response_id <$> fst (handleReport request origin now1 rand1 date1 iso1 kv1)
       = Some (Some id1) ->
       response_id <$> fst (handleReport request origin now2 rand2 date2 iso2 kv2)
       = Some (Some id2) ->
       id1 <> id2.
Proof.
  intros Hdiff.
  assert (Hne : reportId now1 rand1 <> reportId now2 rand2).
  { intros Heq. apply reportId_inj in Heq as [Hn Hs]. tauto. }
  split; [exact Hne |].
  intros id1 id2 H1 H2.
  destruct (handleReport_response request origin now1 rand1 date1 iso1 kv1)
    as (r1 & Hr1 & Hc1).
  destruct (handleReport_response request origin now2 rand2 date2 iso2 kv2)
    as (r2 & Hr2 & Hc2).
  rewrite Hr1 in H1. rewrite Hr2 in H2. cbn in H1, H2.
  destruct Hc1 as [-> | Hc1]; [discriminate |].
  destruct Hc2 as [-> | Hc2]; [discriminate |].
  congruence.
Qed.

Lemma C8_witness :
  reportId 1730000000000 "0.4fzyo82mvyr" <> reportId 1730000000001 "0.4fzyo82mvyr".
Proof.
  assert (H : 1730000000000%N <> 1730000000001%N
              \/ toUpperCase (slice_2_6 "0.4fzyo82mvyr")
                 <> toUpperCase (slice_2_6 "0.4fzyo82mvyr"))
    by (left; discriminate).
  exact (proj1 (C8_ids_distinct_when_clock_or_suffix_differ JsonNull sample_origin
                  1730000000000 1730000000001 "0.4fzyo82mvyr" "0.4fzyo82mvyr"
                  sample_date sample_date sample_iso sample_iso ∅ ∅ H)).
Defined.

(** ** The model on concrete inputs *)

Example blocks_downtown :
  blocks (mkCoordinate 34.0522 (-118.2437)) "Main St" = 0.
Proof.
  unfold blocks. change (isNS "Main St") with false. cbn.
  unfold Math_abs, dtLat, blockSize.
  replace (34.0522 - 34.0522) with 0 by lra. rewrite Rabs_R0. lra.
Qed.

Example blockEstimate_downtown :
  blockEstimate (mkCoordinate 34.0522 (-118.2437)) "Main St" = 100%Z.
Proof.
  unfold blockEstimate. rewrite blocks_downtown.
  rewrite (round_unique 100 (100 + 0 * 100)) by lra.
  rewrite (round_unique 10 (100 / 10)) by lra. reflexivity.
Qed.

(** 5.35 blocks north of the reference: 635, then 63.5 rounds up to 64. *)
Example blocks_north :
  blocks (mkCoordinate 34.0629 (-118.2437)) "Main St" = 5.35.
Proof.
  unfold blocks. change (isNS "Main St") with false. cbn.
  unfold Math_abs, dtLat, blockSize.
  rewrite Rabs_pos_eq by lra. lra.
Qed.

Example blockEstimate_north :
  blockEstimate (mkCoordinate 34.0629 (-118.2437)) "Main St" = 640%Z.
Proof.
  unfold blockEstimate. rewrite blocks_north.
  rewrite (round_unique 635 (100 + 5.35 * 100)) by lra.
  rewrite (round_unique 64 (635 / 10)) by lra. reflexivity.
Qed.

Example estimateFromBlock_north :
  estimateFromBlock (mkCoordinate 34.0629 (-118.2437)) "Main St" (1 / 2)
  = "665 (approx)".
Proof.
  unfold estimateFromBlock, estimateNumber. rewrite blockEstimate_north.
  unfold jitter, Math_floor. rewrite (Zfloor_eq 25 (1 / 2 * 50)) by lra.
  reflexivity.
Qed.

(** A street that runs north-south takes the other axis. *)
Example blocks_avenue :
  blocks (mkCoordinate 34.0629 (-118.2437)) "Grand Ave" = 0.
Proof.
  unfold blocks. change (isNS "Grand Ave") with true. cbn.
  unfold Math_abs, dtLng, blockSize.
  replace (-118.2437 - -118.2437) with 0 by lra. rewrite Rabs_R0. lra.
Qed.

Example parseInt_samples :
  parseInt "742" = Some 742%Z /\ parseInt " 12a" = Some 12%Z
  /\ parseInt "-0x1F" = Some (-31)%Z /\ parseInt "12-14" = Some 12%Z
  /\ parseInt "abc" = None /\ parseInt "" = None.
Proof. repeat split. Qed.

Example getAddress_with_house_number :
  getAddress (Some (mkCoordinate 34.05 (-118.25)))
    (ReverseData
       (Some (mkAddress (Some "123") (Some "Main St") None None
                (Some "Downtown") (Some "Los Angeles") (Some "90012")))
       (Some "123, Main St, Downtown, Los Angeles, California, 90012, US"))
    SearchThrows 0
  = "123 Main St, Downtown, Los Angeles, CA, 90012".
Proof. reflexivity. Qed.

Example getAddress_without_road :
  getAddress (Some (mkCoordinate 34.05 (-118.25)))
    (ReverseData (Some no_address) (Some "Los Angeles County, California, US"))
    SearchThrows 0
  = "Los Angeles County, California, US".
Proof. reflexivity. Qed.

(** The sample capture with its address: the map link and the answer. *)
Example handleReport_sample :
  googleMapsUrl sample_location = "https://www.google.com/maps?q=34.05,-118.25"
  /\ exists letter mail,
       mailtoUrl "LA-M2R1BZ7K-4FZY" "123 Main St" letter = Some mail
       /\ handleReport (JsonObject (sample_report (Some "123 Main St, Los Angeles, CA")))
         sample_origin 1730000000000 "0.4fzyo82mvyr" sample_date sample_iso ∅
       = (Some {| status := 200;
                  body := Success "LA-M2R1BZ7K-4FZY"
                            "https://www.google.com/maps?q=34.05,-118.25"
                            "https://potholela.com/image/LA-M2R1BZ7K-4FZY"
                            "https://potholela.com/view/LA-M2R1BZ7K-4FZY"
                            letter mail
                            "https://myla311.lacity.org/portal/faces/home"
                            "123 Main St, Los Angeles, CA" "Report ready!" |},
          {[ "LA-M2R1BZ7K-4FZY" :=
               stored_entry (sample_report (Some "123 Main St, Los Angeles, CA"))
                 sample_location sample_origin "LA-M2R1BZ7K-4FZY" sample_iso ]}).
Proof.
  split; [reflexivity |].
  destruct (handleReport_after_put sample_origin 1730000000000 "0.4fzyo82mvyr"
              sample_date sample_iso ∅ (sample_report (Some "123 Main St, Los Angeles, CA"))
              sample_location _ _ _ eq_refl eq_refl eq_refl eq_refl)
    as (letter & Hletter & H).
  destruct (mailtoUrl_sample letter _ Hletter) as (mail & Hmail).
  exists letter, mail. split; [exact Hmail |].
  rewrite H.
  change (reportId 1730000000000 "0.4fzyo82mvyr") with "LA-M2R1BZ7K-4FZY".
  rewrite Hmail. reflexivity.
Qed.

(** * Further properties of the code *)

(** ** Address Interpolator *)

Lemma sort_length {A : Type} (cmp : A -> A -> R) (l : list A) :
  length (sort cmp l) = length l.
Proof.
  apply Permutation_length, sort_Permutation.
Qed.

(** X1. With at least two candidates, the sort puts at the front two
    candidates [p1] and [p2] such that [p1] is at most as far from the
    target as [p2], and [p2] at most as far as every other candidate;
    the sorted list is a rearrangement of the candidates. *)
Theorem X1_sort_front_two_nearest (loc : Coordinate) (places : list place) :
  (2 <= length (withNumbers places))%nat ->
  exists p1 p2 rest,
    sort (compareFn loc) (withNumbers places) = p1 :: p2 :: rest
    /\ Permutation (p1 :: p2 :: rest) (withNumbers places)
    /\ distance loc p1 <= distance loc p2
    /\ Forall (fun q => distance loc p2 <= distance loc q) rest.
Proof.
  intros Hlen. rewrite <- (sort_length (compareFn loc)) in Hlen.
  destruct (sort (compareFn loc) (withNumbers places)) as [| p1 [| p2 rest]] eqn:Hs;
    cbn in Hlen; try lia.
  exists p1, p2, rest. split; [reflexivity |].
  apply sort_two_nearest, Hs.
Qed.

Lemma X1_witness :
  exists p1 p2 rest,
    sort (compareFn off_axis_loc) (withNumbers off_axis_places) = p1 :: p2 :: rest
    /\ distance off_axis_loc p1 <= distance off_axis_loc p2.
Proof.
  assert (H : (2 <= length (withNumbers off_axis_places))%nat)
    by (rewrite withNumbers_off_axis; cbn; lia).
  destruct (X1_sort_front_two_nearest off_axis_loc off_axis_places H)
    as (p1 & p2 & rest & Hs & _ & Hd & _).
  exists p1, p2, rest. split; assumption.
Defined.

Lemma interpolateAddress_two (loc : Coordinate) (streetName : string)
    (places : list place) (rnd : R) (p1 p2 : AddressPoint) (rest : list AddressPoint) :
  sort (compareFn loc) (withNumbers places) = p1 :: p2 :: rest ->
  interpolateAddress loc streetName (SearchPlaces places) rnd
  = toString (adjust (side loc p1 p2) (interpolated loc p1 p2)).
Proof.
  intros Hs. unfold interpolateAddress.
  assert (Hlen : (2 <= length (withNumbers places))%nat).
  { rewrite <- (sort_length (compareFn loc)), Hs. cbn. lia. }
  apply Nat.ltb_ge in Hlen. now rewrite Hlen, Hs.
Qed.

(** X2. In the interpolation branch, unless the two nearest candidates
    and the target all share one position, [interpolateAddress] prints
    an integer between the smaller of the two numbers and the larger
    plus one. *)
Theorem X2_interpolated_number_in_range (loc : Coordinate) (streetName : string)
    (places : list place) (rnd : R) (p1 p2 : AddressPoint) (rest : list AddressPoint) :
  sort (compareFn loc) (withNumbers places) = p1 :: p2 :: rest ->
  distinct_positions p1 p2 \/ ~ on_point loc p1 ->
  exists z,
    interpolateAddress loc streetName (SearchPlaces places) rnd = int_toString z
    /\ (Z.min (num p1) (num p2) <= z <= Z.max (num p1) (num p2) + 1)%Z.
Proof.
  intros Hs Hcase.
  rewrite (interpolateAddress_two loc streetName places rnd p1 p2 rest Hs).
  destruct (interpolated_range loc p1 p2 Hcase) as (z0 & z & _ & Ha & Hr & Hz).
  exists z. rewrite Ha. split; [reflexivity | lia].
Qed.

Lemma X2_witness :
  exists z,
    interpolateAddress off_axis_loc "Main St" (SearchPlaces off_axis_places) 0
    = int_toString z
    /\ (100 <= z <= 201)%Z.
Proof.
  assert (Hs : sort (compareFn off_axis_loc) (withNumbers off_axis_places)
               = [off_axis_p1; off_axis_p2])
    by (rewrite withNumbers_off_axis; apply off_axis_sorted).
  assert (Hd : distinct_positions off_axis_p1 off_axis_p2 \/ ~ on_point off_axis_loc off_axis_p1)
    by (left; left; cbn; lra).
  exact (X2_interpolated_number_in_range off_axis_loc "Main St" off_axis_places 0
           off_axis_p1 off_axis_p2 [] Hs Hd).
Defined.

(** X3. The two ends of the clamp, for candidates at distinct
    positions: a target on [p1] gets the number of [p1] before the parity
    step, and a target at least as far from [p1] as [p2] is gets the
    number of [p2], on whichever side of [p1] it lies. *)
Theorem X3_interpolated_at_the_ends (loc : Coordinate) (p1 p2 : AddressPoint) :
  distinct_positions p1 p2 ->
  (on_point loc p1 -> interpolated loc p1 p2 = Fin (num p1))
  /\ (Math_hypot (lat p2 - lat p1) (lng p2 - lng p1)
      <= Math_hypot (loc_lat loc - lat p1) (loc_lng loc - lng p1) ->
      interpolated loc p1 p2 = Fin (num p2)).
Proof.
  intros Hd. pose proof (totalDist_pos p1 p2 Hd) as Htot. split.
  - intros [Hlat Hlng].
    rewrite (interpolated_of_ratio loc p1 p2 0).
    + f_equal. apply round_eq. lra.
    + rewrite (ratio_distinct loc p1 p2 Hd).
      rewrite (Math_hypot_eq (loc_lat loc - lat p1) (loc_lng loc - lng p1) 0) by nra.
      f_equal. unfold Rdiv. rewrite Rmult_0_l. apply Rmin_right. lra.
  - intros Hfar.
    rewrite (interpolated_of_ratio loc p1 p2 1).
    + f_equal. apply round_eq. rewrite minus_IZR. lra.
    + rewrite (ratio_distinct loc p1 p2 Hd). f_equal. apply Rmin_left.
      apply Rmult_le_reg_r with (Math_hypot (lat p2 - lat p1) (lng p2 - lng p1));
        [exact Htot |].
      unfold Rdiv. rewrite Rmult_assoc, Rinv_l by lra. lra.
Qed.

Lemma X3_witness :
  interpolated (mkCoordinate 0 0) off_axis_p1 off_axis_p2 = Fin 100%Z.
Proof.
  assert (Hd : distinct_positions off_axis_p1 off_axis_p2) by (left; cbn; lra).
  assert (Hon : on_point (mkCoordinate 0 0) off_axis_p1) by (split; reflexivity).
  exact (proj1 (X3_interpolated_at_the_ends (mkCoordinate 0 0) off_axis_p1 off_axis_p2 Hd)
           Hon).
Defined.

(** X4. Every candidate kept by [withNumbers] comes from an entry of
    the search result that has an address with a non-empty house number:
    its number is what [parseInt] reads from that house number and its
    coordinates are those of the entry. *)
Theorem X4_withNumbers_sound (places : list place) (pt : AddressPoint) :
  In pt (withNumbers places) ->
  exists p a s,
    In p places /\ p_address p = Some a /\ house_number a = Some s /\ s <> ""
    /\ parseInt s = Some (num pt) /\ lat pt = p_lat p /\ lng pt = p_lon p.
Proof.
  unfold withNumbers. intros Hin.
  apply list_elem_of_In, list_elem_of_omap in Hin as (p & Hp & Hpt).
  apply list_elem_of_In, filter_In in Hp as [Hp Hh].
  unfold has_house_number in Hh. unfold to_point in Hpt.
  destruct (p_address p) as [a |] eqn:Ha; [| discriminate].
  cbn in Hpt. destruct (house_number a) as [s |] eqn:Hs; [| discriminate].
  cbn in Hpt, Hh. destruct (parseInt s) as [n |] eqn:Hn; [| discriminate].
  cbn in Hpt. injection Hpt as <-.
  exists p, a, s. repeat split; auto.
  intros ->. discriminate.
Qed.

Lemma X4_witness :
  exists p a s,
    In p off_axis_places /\ p_address p = Some a /\ house_number a = Some s
    /\ parseInt s = Some 100%Z.
Proof.
  assert (Hin : In off_axis_p1 (withNumbers off_axis_places))
    by (rewrite withNumbers_off_axis; left; reflexivity).
  destruct (X4_withNumbers_sound off_axis_places off_axis_p1 Hin)
    as (p & a & s & H1 & H2 & H3 & _ & H4 & _).
  exists p, a, s. repeat split; assumption.
Defined.

(** ** Grid Estimator *)

Lemma round_le (x y : R) : x <= y -> (round x <= round y)%Z.
Proof.
  intros Hxy. unfold round. apply Zfloor_le. lra.
Qed.

Lemma blocks_offset (loc : Coordinate) (streetName : string) :
  blocks loc streetName = Rabs (axis_offset loc streetName) / blockSize.
Proof.
  unfold blocks, axis_offset, Math_abs. now destruct (isNS streetName).
Qed.

Lemma blockEstimate_mono (loc loc' : Coordinate) (streetName : string) :
  Rabs (axis_offset loc streetName) <= Rabs (axis_offset loc' streetName) ->
  (blockEstimate loc streetName <= blockEstimate loc' streetName)%Z.
Proof.
  intros Hle. unfold blockEstimate.
  assert (Hb : blocks loc streetName <= blocks loc' streetName).
  { rewrite !blocks_offset. unfold blockSize.
    apply Rmult_le_compat_r; [| exact Hle].
    apply Rlt_le, Rinv_0_lt_compat. lra. }
  assert (H1 : (round (100 + blocks loc streetName * 100)
                <= round (100 + blocks loc' streetName * 100))%Z)
    by (apply round_le; lra).
  assert (H2 : (round (IZR (round (100 + blocks loc streetName * 100)) / 10)
                <= round (IZR (round (100 + blocks loc' streetName * 100)) / 10))%Z).
  { apply round_le. apply IZR_le in H1. lra. }
  lia.
Qed.

(** X5. On a given street the estimate before the random part does
    not decrease when the distance from the reference point along the
    chosen axis (longitude for a north-south street, latitude otherwise)
    grows, and it depends on that distance only: two points at the same
    distance, on the same side or on opposite sides, get the same
    estimate. *)
Theorem X5_estimate_grows_with_distance (loc loc' : Coordinate) (streetName : string) :
  Rabs (axis_offset loc streetName) <= Rabs (axis_offset loc' streetName) ->
  (blockEstimate loc streetName <= blockEstimate loc' streetName)%Z
  /\ (Rabs (axis_offset loc' streetName) <= Rabs (axis_offset loc streetName) ->
      blockEstimate loc streetName = blockEstimate loc' streetName).
Proof.
  intros Hle. split; [now apply blockEstimate_mono |].
  intros Hge. apply Z.le_antisymm; now apply blockEstimate_mono.
Qed.

Lemma X5_witness :
  blockEstimate (mkCoordinate (dtLat - 1 / 100) dtLng) "Main St"
  = blockEstimate (mkCoordinate (dtLat + 1 / 100) dtLng) "Main St".
Proof.
  assert (H : Rabs (axis_offset (mkCoordinate (dtLat - 1 / 100) dtLng) "Main St")
              = Rabs (axis_offset (mkCoordinate (dtLat + 1 / 100) dtLng) "Main St")).
  { unfold axis_offset. change (isNS "Main St") with false. cbn.
    rewrite Rabs_left, Rabs_pos_eq by lra. lra. }
  apply (X5_estimate_grows_with_distance (mkCoordinate (dtLat - 1 / 100) dtLng)
           (mkCoordinate (dtLat + 1 / 100) dtLng) "Main St"); rewrite H; lra.
Defined.

(** X6. The estimate before the random part is within 5.5 of
    [100 + 100 * blocks], and the number printed is less than 55.5 above
    it when the draw is in [0, 1). *)
Theorem X6_estimate_close_to_linear (loc : Coordinate) (streetName : string)
    (rnd : R) :
  0 <= rnd < 1 ->
  Rabs (IZR (blockEstimate loc streetName) - (100 + 100 * blocks loc streetName))
  <= 5.5
  /\ 100 + 100 * blocks loc streetName - 5.5
     <= IZR (estimateNumber loc streetName rnd)
     < 100 + 100 * blocks loc streetName + 55.5.
Proof.
  intros Hrnd.
  pose proof (blockEstimate_nearest_10 loc streetName) as H10.
  pose proof (round_near (100 + blocks loc streetName * 100)) as [Hlo Hhi].
  pose proof (jitter_range rnd Hrnd) as [Hj0 Hj1].
  set (e := round (100 + blocks loc streetName * 100)) in *.
  set (b := blockEstimate loc streetName) in *.
  assert (Hb : IZR e - 5 <= IZR b <= IZR e + 5).
  { split.
    - replace (IZR e - 5) with (IZR (e - 5)) by (rewrite minus_IZR; reflexivity).
      apply IZR_le. lia.
    - replace (IZR e + 5) with (IZR (e + 5)) by (rewrite plus_IZR; reflexivity).
      apply IZR_le. lia. }
  split.
  - apply Rabs_le. lra.
  - unfold estimateNumber. fold b. rewrite plus_IZR.
    apply IZR_le in Hj0. assert (Hj : IZR (jitter rnd) <= 49) by (apply IZR_le; lia).
    lra.
Qed.

Lemma X6_witness :
  Rabs (IZR (blockEstimate (mkCoordinate 34.0629 (-118.2437)) "Main St")
        - (100 + 100 * blocks (mkCoordinate 34.0629 (-118.2437)) "Main St"))
  <= 5.5.
Proof.
  assert (H : 0 <= 0 < 1) by lra.
  exact (proj1 (X6_estimate_close_to_linear (mkCoordinate 34.0629 (-118.2437))
                  "Main St" 0 H)).
Defined.

Lemma prefix_single (c : ascii) (t : string) :
  String.prefix (String c EmptyString) (String c t) = true.
Proof.
  cbn. destruct (ascii_dec c c) as [_ | Hne]; [| congruence]. now destruct t.
Qed.

(** X7. A street whose name begins with N or S, in either case, is
    taken to run north-south whatever the rest of the name is, so its
    estimate is computed from the longitude; the alternatives "North"
    and "South" of the pattern add nothing. *)
Theorem X7_initial_N_or_S_is_north_south (c : ascii) (rest : string)
    (loc : Coordinate) :
  lower_ascii c = "n"%char \/ lower_ascii c = "s"%char ->
  isNS (String c rest) = true
  /\ blocks loc (String c rest) = Rabs (loc_lng loc - dtLng) / blockSize.
Proof.
  intros Hc.
  assert (Hns : isNS (String c rest) = true).
  { unfold isNS, starts_with_i, toLowerCase. cbn [map_string].
    destruct Hc as [-> | ->]; rewrite prefix_single; cbn;
      rewrite ?orb_true_r; reflexivity. }
  split; [exact Hns |].
  rewrite blocks_offset. unfold axis_offset. now rewrite Hns.
Qed.

Lemma X7_witness : isNS "Sunset Blvd" = true.
Proof.
  assert (H : lower_ascii "S" = "n"%char \/ lower_ascii "S" = "s"%char)
    by (right; reflexivity).
  exact (proj1 (X7_initial_N_or_S_is_north_south "S" "unset Blvd"
                  (mkCoordinate 0 0) H)).
Defined.

(** ** Address composers *)

Lemma concat_cons (sep x : string) (l : list string) :
  l <> [] -> String.concat sep (x :: l) = x ++ sep ++ String.concat sep l.
Proof.
  destruct l; [congruence | reflexivity].
Qed.

(** The filter of the parts keeps "CA". *)
Lemma kept_parts_hold_CA (before after : list (option string)) :
  In "CA" (omap (fun x : option string => if truthy x then x else None)
             (before ++ Some "CA" :: after)%list).
Proof.
  apply list_elem_of_In, list_elem_of_omap. exists (Some "CA").
  split; [| reflexivity]. apply list_elem_of_In, in_or_app. right. now left.
Qed.

Lemma append_nil_r (s : string) : s ++ "" = s.
Proof.
  induction s as [| c s IH]; [reflexivity |].
  rewrite append_cons. now rewrite IH.
Qed.

Lemma contains_refl (s : string) : contains s s.
Proof.
  exists "", "". now rewrite append_nil, append_nil_r.
Qed.

Lemma contains_append_r (sub s t : string) : contains sub t -> contains sub (s ++ t).
Proof.
  intros (pre & post & ->). exists (s ++ pre), post. now rewrite append_assoc.
Qed.

Lemma contains_append_l (sub s t : string) : contains sub s -> contains sub (s ++ t).
Proof.
  intros (pre & post & ->). exists pre, (post ++ t). now rewrite !append_assoc.
Qed.

Lemma contains_trans (a b c : string) : contains a b -> contains b c -> contains a c.
Proof.
  intros Hab (pre & post & ->).
  now apply contains_append_r, contains_append_l.
Qed.

(** An element of a joined list occurs in the result. *)
Lemma In_contains (sep x : string) (l : list string) :
  In x l -> contains x (String.concat sep l).
Proof.
  induction l as [| y t IH]; intros Hin; [destruct Hin |].
  destruct t as [| z t'].
  - destruct Hin as [-> | []]. apply contains_refl.
  - rewrite concat_cons by discriminate.
    destruct Hin as [-> | Hin].
    + apply contains_append_l, contains_refl.
    + now apply contains_append_r, contains_append_r, IH.
Qed.

(** X8. The composer of the "Fix My Street" page never returns the
    empty string, and once the lookup has answered its result is the
    joined list of parts: the [display_name] of the answer and the
    "Bel Air, Los Angeles, CA" default behind it are never used, because
    the list always holds the city and "CA". *)
Theorem X8_reverseGeo_never_uses_display_name (l : option Coordinate)
    (rev : reverse_result) (loc : Coordinate) (address : option address_details)
    (display_name display_name' : option string) :
  reverseGeo l rev <> ""
  /\ reverseGeo (Some loc) (ReverseData address display_name)
     = reverseGeo (Some loc) (ReverseData address display_name')
  /\ contains "CA" (reverseGeo (Some loc) (ReverseData address display_name)).
Proof.
  split; [apply reverseGeo_nonempty |].
  set (a := default no_address address).
  set (parts := omap (fun x : option string => if truthy x then x else None)
                  [ house_number a; road a;
                    (if truthy (neighbourhood a) then neighbourhood a else suburb a);
                    Some (or_else (city a) "Los Angeles"); Some "CA"; postcode a ]).
  assert (Hin : In "CA" parts)
    by apply (kept_parts_hold_CA
                [ house_number a; road a;
                  (if truthy (neighbourhood a) then neighbourhood a else suburb a);
                  Some (or_else (city a) "Los Angeles") ] [postcode a]).
  assert (Hne : nonempty (String.concat ", " parts) = true).
  { apply nonempty_true, (concat_nonempty ", " "CA"); [exact Hin | discriminate]. }
  assert (Hj : forall d,
             reverseGeo (Some loc) (ReverseData address d) = String.concat ", " parts).
  { intros d. unfold reverseGeo. fold a. fold parts. now rewrite Hne. }
  split; [now rewrite !Hj |].
  rewrite Hj. now apply In_contains.
Qed.

Lemma omap_cons_Some {A B : Type} (f : A -> option B) (x : A) (y : B) (l : list A) :
  f x = Some y -> omap f (x :: l) = y :: omap f l.
Proof.
  intros H. cbn. now rewrite H.
Qed.

Lemma approxNum_range (l : Coordinate) : (0 <= PotholeHunter.approxNum l < 10000)%Z.
Proof.
  unfold PotholeHunter.approxNum.
  pose proof (Z.rem_bound_abs (round (loc_lng l * 10000)) 10000) as H.
  lia.
Qed.

(** X9. The composer of the "Pothole Hunter" page never returns the
    empty string either, and once the lookup has answered it never uses
    the [display_name] of the answer: the result is the joined list of
    parts, which always holds the city and "CA". *)
Theorem X9_PotholeHunter_reverseGeo_nonempty (l : option Coordinate)
    (rev : reverse_result) (loc : Coordinate) (address : option address_details)
    (display_name display_name' : option string) :
  PotholeHunter.reverseGeo l rev <> ""
  /\ PotholeHunter.reverseGeo (Some loc) (ReverseData address display_name)
     = PotholeHunter.reverseGeo (Some loc) (ReverseData address display_name').
Proof.
  assert (Hj : forall lc a d,
             exists parts,
               In "CA" parts
               /\ PotholeHunter.reverseGeo (Some lc) (ReverseData a d)
                  = String.concat ", " parts
               /\ forall d', PotholeHunter.reverseGeo (Some lc) (ReverseData a d')
                             = String.concat ", " parts).
  { intros lc a0 d. unfold PotholeHunter.reverseGeo.
    set (a := default no_address a0).
    set (streetPart := if truthy (house_number a) && truthy (road a) then _ else _).
    set (parts := omap _ _).
    assert (Hin : In "CA" parts)
      by apply (kept_parts_hold_CA
                  [ Some streetPart;
                    (if truthy (neighbourhood a) then neighbourhood a else suburb a);
                    Some (or_else (city a) "Los Angeles") ] [postcode a]).
    assert (Hne : nonempty (String.concat ", " parts) = true).
    { apply nonempty_true, (concat_nonempty ", " "CA"); [exact Hin | discriminate]. }
    exists parts. rewrite Hne. auto. }
  split.
  - destruct l as [lc |]; [| discriminate].
    destruct rev as [| a d]; [discriminate |].
    destruct (Hj lc a d) as (parts & Hin & -> & _).
    apply (concat_nonempty ", " "CA"); [exact Hin | discriminate].
  - destruct (Hj loc address display_name) as (parts & _ & -> & Hd).
    now rewrite Hd.
Qed.

(** X10. Without a house number, the "Pothole Hunter" composer puts in
    front of the road a number made from the longitude,
    [|round(lng * 10000) % 10000|], which lies between 0 and 9999, and
    tags the street part with "(approx)". *)
Theorem X10_PotholeHunter_approximate_number (loc : Coordinate)
    (address : address_details) (display_name : option string) (r : string) :
  truthy (house_number address) = false ->
  road address = Some r ->
  r <> "" ->
  (0 <= PotholeHunter.approxNum loc < 10000)%Z
  /\ exists rest,
       PotholeHunter.reverseGeo (Some loc) (ReverseData (Some address) display_name)
       = int_toString (PotholeHunter.approxNum loc) ++ " " ++ r ++ " (approx)"
         ++ ", " ++ rest.
Proof.
  intros Hh Hr Hne. split; [apply approxNum_range |].
  unfold PotholeHunter.reverseGeo.
  change (default no_address (Some address)) with address.
  rewrite Hh, Hr. cbn [andb].
  assert (Ht : truthy (Some r) = true) by (apply nonempty_true in Hne; exact Hne).
  rewrite Ht. change (default "" (Some r)) with r.
  set (streetPart := int_toString (PotholeHunter.approxNum loc) ++ " " ++ r ++ " (approx)").
  assert (Hsp : truthy (Some streetPart) = true).
  { apply nonempty_true. unfold streetPart.
    apply append_nonempty_l, int_toString_nonempty. }
  rewrite (omap_cons_Some _ (Some streetPart) streetPart) by now rewrite Hsp.
  set (tail := omap _ _).
  assert (Htail : tail <> []).
  { assert (Hin : In "CA" tail)
      by apply (kept_parts_hold_CA
                  [ (if truthy (neighbourhood address) then neighbourhood address
                     else suburb address);
                    Some (or_else (city address) "Los Angeles") ] [postcode address]).
    intros Hnil. rewrite Hnil in Hin. destruct Hin. }
  rewrite concat_cons by exact Htail.
  assert (Hj : nonempty (streetPart ++ ", " ++ String.concat ", " tail) = true).
  { apply nonempty_true, append_nonempty_l. now apply nonempty_true. }
  rewrite Hj. exists (String.concat ", " tail).
  unfold streetPart. now rewrite !append_assoc.
Qed.

Lemma X10_witness :
  exists rest,
    PotholeHunter.reverseGeo (Some (mkCoordinate 34.05 (-118.25)))
      (ReverseData (Some (mkAddress None (Some "Main St") None None None None None))
         None)
    = int_toString (PotholeHunter.approxNum (mkCoordinate 34.05 (-118.25)))
      ++ " " ++ "Main St" ++ " (approx)" ++ ", " ++ rest.
Proof.
  assert (Hne : "Main St" <> "") by discriminate.
  exact (proj2 (X10_PotholeHunter_approximate_number (mkCoordinate 34.05 (-118.25))
                  (mkAddress None (Some "Main St") None None None None None)
                  None "Main St" eq_refl eq_refl Hne)).
Defined.

(** X11. [getAddress] consults the search (and the random draw of the
    fallback) only when the answer has a road but no house number: with
    a house number, or without a road, the result is the same whatever
    the search gives. *)
Theorem X11_getAddress_search_only_without_number (l : option Coordinate)
    (address : option address_details) (display_name : option string)
    (search search' : search_result) (rnd rnd' : R) :
  truthy (house_number (default no_address address)) = true
  \/ or_else (road (default no_address address))
       (or_else (street (default no_address address)) "") = "" ->
  getAddress l (ReverseData address display_name) search rnd
  = getAddress l (ReverseData address display_name) search' rnd'.
Proof.
  intros Hcase. destruct l as [loc |]; [| reflexivity].
  rewrite !getAddress_formula.
  destruct Hcase as [Hh | Hr].
  - now rewrite Hh.
  - now rewrite Hr.
Qed.

Lemma X11_witness :
  getAddress (Some (mkCoordinate 34.05 (-118.25)))
    (ReverseData
       (Some (mkAddress (Some "123") (Some "Main St") None None None None None)) None)
    SearchThrows 0
  = getAddress (Some (mkCoordinate 34.05 (-118.25)))
      (ReverseData
         (Some (mkAddress (Some "123") (Some "Main St") None None None None None)) None)
      (SearchPlaces off_axis_places) 1.
Proof.
  apply X11_getAddress_search_only_without_number. left. reflexivity.
Defined.

(** X12. With a road, no house number and fewer than two usable
    candidates (or a failing search), the address returned by
    [getAddress] begins with the grid estimate for that road, tagged:
    number, " (approx) ", road, then the other parts. *)
Theorem X12_getAddress_grid_fallback (loc : Coordinate)
    (address : address_details) (display_name : option string)
    (search : search_result) (rnd : R) (r : string) :
  truthy (house_number address) = false ->
  or_else (road address) (or_else (street address) "") = r ->
  r <> "" ->
  match search with
  | SearchThrows => True
  | SearchPlaces places => (length (List.filter parseable places) < 2)%nat
  end ->
  exists rest,
    getAddress (Some loc) (ReverseData (Some address) display_name) search rnd
    = int_toString (estimateNumber loc r rnd) ++ " (approx) " ++ r ++ ", " ++ rest.
Proof.
  intros Hh Hr Hne Hsearch.
  rewrite getAddress_formula.
  change (default no_address (Some address)) with address. rewrite Hh, Hr.
  apply nonempty_true in Hne. rewrite Hne.
  assert (Hint : interpolateAddress loc r search rnd = estimateFromBlock loc r rnd).
  { destruct search as [| places]; [reflexivity |].
    unfold interpolateAddress. rewrite withNumbers_length.
    apply Nat.ltb_lt in Hsearch. now rewrite Hsearch. }
  rewrite Hint. unfold estimateFromBlock.
  set (tail := ((if truthy (neighbourhood address) then _ else _) ++ _)%list).
  assert (Htail : tail <> []).
  { unfold tail. destruct (truthy (neighbourhood address)), (truthy (suburb address));
      discriminate. }
  rewrite concat_cons by exact Htail.
  exists (String.concat ", " tail).
  now rewrite !append_assoc.
Qed.

Lemma X12_witness :
  exists rest,
    getAddress (Some (mkCoordinate 34.05 (-118.25)))
      (ReverseData (Some (mkAddress None (Some "Main St") None None None None None))
         None) SearchThrows 0
    = int_toString (estimateNumber (mkCoordinate 34.05 (-118.25)) "Main St" 0)
      ++ " (approx) " ++ "Main St" ++ ", " ++ rest.
Proof.
  assert (Hne : "Main St" <> "") by discriminate.
  exact (X12_getAddress_grid_fallback (mkCoordinate 34.05 (-118.25))
           (mkAddress None (Some "Main St") None None None None None)
           None SearchThrows 0 "Main St" eq_refl eq_refl Hne I).
Defined.

(** ** Report Builder: the letter, the mail link, the store *)

Lemma contains_prefix (s t : string) : contains s (s ++ t).
Proof.
  apply contains_append_l, contains_refl.
Qed.

Lemma contains_suffix (s t : string) : contains t (s ++ t).
Proof.
  apply contains_append_r, contains_refl.
Qed.

(** A 200 answer is given to a capture with its location, both
    coordinates and its address only, once its record is written, its
    letter built and both texts of the mail link encoded. *)
Lemma handleReport_200 (request : request_json) (origin : string) (now : N)
    (rand36 date iso : string) (kv : gmap string kv_entry) (resp : Response) :
  fst (handleReport request origin now rand36 date iso kv) = Some resp ->
  status resp = 200%Z ->
  exists report location la ln address letter mail,
    request = JsonObject report
    /\ r_location report = Some location
    /\ l_lat location = Some la /\ l_lng location = Some ln
    /\ r_address report = Some address
    /\ generateFormalLetter report location (reportId now rand36)
         (googleMapsUrl location) (imageUrl origin (reportId now rand36))
         (viewUrl origin (reportId now rand36)) date
         (<[reportId now rand36 :=
              stored_entry report location origin (reportId now rand36) iso]> kv)
       = (Some letter,
          <[reportId now rand36 :=
              stored_entry report location origin (reportId now rand36) iso]> kv)
    /\ mailtoUrl (reportId now rand36) (streetName_of address) letter = Some mail
    /\ handleReport request origin now rand36 date iso kv
       = (Some resp,
          <[reportId now rand36 :=
              stored_entry report location origin (reportId now rand36) iso]> kv)
    /\ resp = {| status := 200;
                 body := Success (reportId now rand36) (googleMapsUrl location)
                           (imageUrl origin (reportId now rand36))
                           (viewUrl origin (reportId now rand36)) letter mail
                           "https://myla311.lacity.org/portal/faces/home"
                           address "Report ready!" |}.
Proof.
  intros Hresp Hstatus.
  assert (Hno : Some failure = Some resp -> False).
  { intros Heq. injection Heq as <-. discriminate Hstatus. }
  destruct request as [| | report]; try (exfalso; exact (Hno Hresp)).
  destruct report as [type [location |] timestamp image address source];
    [| exfalso; exact (Hno Hresp)].
  destruct location as [[la |] [ln |] accuracy], address as [address |];
    try (exfalso; exact (Hno Hresp)).
  destruct (handleReport_after_put origin now rand36 date iso kv
              (mkReport type (Some (mkLocation (Some la) (Some ln) accuracy))
                 timestamp image (Some address) source)
              _ la ln address eq_refl eq_refl eq_refl eq_refl)
    as (letter & Hletter & Hrun).
  rewrite Hrun in Hresp |- *. cbn [fst] in Hresp.
  destruct (mailtoUrl _ _ letter) as [mail |] eqn:Hmail;
    [| exfalso; exact (Hno Hresp)].
  injection Hresp as <-.
  eexists _, _, la, ln, address, letter, mail.
  repeat split; try reflexivity; assumption.
Qed.

(** X13. A 200 answer of [handleReport] is given to a capture with its
    location, both coordinates and its address only, and carries the
    submitted address, a map link that holds "lat,lng" as the body wrote
    them, image and page links that hold the identifier, the mail link
    built from the letter, and a letter that holds the address line, the
    coordinates with six decimals, the map link, both links and the
    identifier. *)
Theorem X13_success_response_contents (request : request_json) (origin : string)
    (now : N) (rand36 date iso : string) (kv : gmap string kv_entry)
    (resp : Response) :
  fst (handleReport request origin now rand36 date iso kv) = Some resp ->
  status resp = 200%Z ->
  exists report location la ln address id g i v letter m u,
    request = JsonObject report
    /\ r_location report = Some location
    /\ l_lat location = Some la /\ l_lng location = Some ln
    /\ r_address report = Some address
    /\ resp = {| status := 200;
                 body := Success id g i v letter m u address "Report ready!" |}
    /\ id = reportId now rand36
    /\ contains (text la ++ "," ++ text ln) g
    /\ i = origin ++ "/image/" ++ id /\ v = origin ++ "/view/" ++ id
    /\ mailtoUrl id (streetName_of address) letter = Some m
    /\ contains ("STREET ADDRESS: " ++ address) letter
    /\ contains ("GPS COORDINATES: " ++ toFixed6 (value la) ++ ", "
                 ++ toFixed6 (value ln)) letter
    /\ contains ("GOOGLE MAPS: " ++ g) letter
    /\ contains ("PHOTO OF POTHOLE: " ++ i) letter
    /\ contains ("FULL REPORT WITH PHOTO: " ++ v) letter
    /\ contains ("Report ID: " ++ id) letter.
Proof.
  intros Hresp Hstatus.
  destruct (handleReport_200 _ _ _ _ _ _ _ _ Hresp Hstatus)
    as (report & location & la & ln & address & letter & mail
        & -> & Hloc & Hla & Hln & Haddr & Hletter & Hmail & _ & ->).
  destruct report as [type location' timestamp image address' source].
  destruct location as [la' ln' accuracy].
  cbn in Hloc, Hla, Hln, Haddr. subst location' la' ln' address'.
  unfold generateFormalLetter, bind, required, ret in Hletter.
  cbn [l_lat l_lng r_address fst snd] in Hletter.
  match type of Hletter with
  | (Some ?x, _) = _ => assert (Hl : letter = x) by congruence
  end.
  clear Hletter. subst letter.
  do 12 eexists.
  do 5 (split; [reflexivity |]).
  split; [reflexivity |]. split; [reflexivity |].
  split; [apply contains_suffix |].
  split; [reflexivity |]. split; [reflexivity |].
  split; [exact Hmail |].
  repeat split; apply In_contains; cbn; tauto.
Qed.

Lemma X13_witness :
  exists resp id g i v letter m u,
    fst (handleReport (JsonObject (sample_report (Some "123 Main St, Los Angeles, CA")))
           sample_origin 1730000000000 "0.4fzyo82mvyr" sample_date sample_iso ∅)
    = Some resp
    /\ status resp = 200%Z
    /\ resp = {| status := 200;
                 body := Success id g i v letter m u "123 Main St, Los Angeles, CA"
                           "Report ready!" |}
    /\ contains ("34.05" ++ "," ++ "-118.25") g
    /\ contains ("STREET ADDRESS: " ++ "123 Main St, Los Angeles, CA") letter.
Proof.
  destruct (handleReport_sample_run "0.4fzyo82mvyr" ∅ eq_refl)
    as (letter0 & mail0 & Hrun).
  apply (f_equal fst) in Hrun. cbn [fst] in Hrun.
  destruct (X13_success_response_contents _ _ _ _ _ _ _ _ Hrun eq_refl)
    as (report & location & la & ln & address & id & g & i & v & letter & m & u
        & Hreq & Hloc & Hla & Hln & Haddr & Hresp & _ & Hg & _ & _ & _ & Hl & _).
  injection Hreq as <-.
  injection Hloc as <-. injection Hla as <-. injection Hln as <-.
  injection Haddr as <-.
  eexists _, id, g, i, v, letter, m, u.
  split; [exact Hrun |]. split; [reflexivity |].
  split; [| split; assumption].
  injection Hresp as -> -> -> -> -> -> ->. reflexivity.
Defined.

(** ** Report Builder: a lone surrogate in the address *)

Lemma lone_surrogate_app_l (s t : string) :
  lone_surrogate t = true -> lone_surrogate (s ++ t) = true.
Proof.
  intros Ht. induction s as [| c s IH]; [now rewrite append_nil |].
  rewrite append_cons. cbn [lone_surrogate]. rewrite IH. apply orb_true_r.
Qed.

Lemma lone_surrogate_app_r (s t : string) :
  lone_surrogate s = true -> lone_surrogate (s ++ t) = true.
Proof.
  induction s as [| c s IH]; [discriminate |].
  rewrite append_cons. cbn [lone_surrogate].
  destruct (lone_surrogate s); [intros _; rewrite IH by reflexivity;
                                apply orb_true_r |].
  destruct s as [| d s']; [discriminate |].
  rewrite append_cons. intros H. rewrite orb_false_r in H. now rewrite H.
Qed.

Lemma lone_surrogate_contains (sub s : string) :
  contains sub s -> lone_surrogate sub = true -> lone_surrogate s = true.
Proof.
  intros (pre & post & ->) Hsub.
  now apply lone_surrogate_app_l, lone_surrogate_app_r.
Qed.

(** The letter holds the address as it was submitted. *)
Lemma generateFormalLetter_address (report : PotholeReport) (location : Location)
    (reportId googleMapsUrl imageUrl viewUrl date address letter : string)
    (kv kv' : gmap string kv_entry) :
  r_address report = Some address ->
  generateFormalLetter report location reportId googleMapsUrl imageUrl viewUrl
    date kv = (Some letter, kv') ->
  contains ("STREET ADDRESS: " ++ address) letter.
Proof.
  intros Haddr Hletter.
  unfold generateFormalLetter, bind, required, ret, throw in Hletter.
  destruct (l_lat location) as [la |]; [| discriminate Hletter].
  destruct (l_lng location) as [ln |]; [| discriminate Hletter].
  match type of Hletter with
  | (Some ?x, _) = _ => assert (Hl : letter = x) by congruence
  end.
  clear Hletter. subst letter. rewrite Haddr.
  apply In_contains. cbn. tauto.
Qed.

(** X29. A capture whose address holds a lone surrogate gets the 500
    answer after its record was written: the letter holds the address,
    [encodeURIComponent] throws on the letter, and the write has already
    been done. *)
Theorem X29_lone_surrogate_fails_after_write (origin : string) (now : N)
    (rand36 date iso : string) (kv : gmap string kv_entry)
    (report : PotholeReport) (location : Location) (la ln : json_number)
    (address : string) :
  r_location report = Some location ->
  l_lat location = Some la -> l_lng location = Some ln ->
  r_address report = Some address ->
  lone_surrogate address = true ->
  encodeURIComponent address = None
  /\ handleReport (JsonObject report) origin now rand36 date iso kv
     = (Some failure,
        <[reportId now rand36 :=
            stored_entry report location origin (reportId now rand36) iso]> kv).
Proof.
  intros Hloc Hla Hln Haddr Hsur.
  split; [unfold encodeURIComponent; now rewrite Hsur |].
  destruct (handleReport_after_put origin now rand36 date iso kv report location
              la ln address Hloc Hla Hln Haddr) as (letter & Hletter & Hrun).
  rewrite Hrun.
  assert (Hl : lone_surrogate letter = true).
  { apply (lone_surrogate_contains ("STREET ADDRESS: " ++ address)).
    - exact (generateFormalLetter_address _ _ _ _ _ _ _ _ _ _ _ Haddr Hletter).
    - now apply lone_surrogate_app_l. }
  assert (Hnone : encodeURIComponent letter = None)
    by (unfold encodeURIComponent; now rewrite Hl).
  unfold mailtoUrl. rewrite Hnone.
  match goal with
  | |- context [encodeURIComponent ?x] => destruct (encodeURIComponent x)
  end; reflexivity.
Qed.

Lemma X29_witness :
  lone_surrogate surrogate_address = true
  /\ handleReport (JsonObject (sample_report (Some surrogate_address))) sample_origin
       1730000000000 "0.4fzyo82mvyr" sample_date sample_iso ∅
     = (Some failure,
        {[ "LA-M2R1BZ7K-4FZY" :=
             stored_entry (sample_report (Some surrogate_address)) sample_location
               sample_origin "LA-M2R1BZ7K-4FZY" sample_iso ]}).
Proof.
  split; [reflexivity |].
  exact (proj2 (X29_lone_surrogate_fails_after_write sample_origin 1730000000000
                  "0.4fzyo82mvyr" sample_date sample_iso ∅
                  (sample_report (Some surrogate_address)) sample_location
                  (mkNumber 34.05 "34.05") (mkNumber (-118.25) "-118.25")
                  surrogate_address eq_refl eq_refl eq_refl eq_refl eq_refl)).
Defined.

Lemma all_chars_app (f : ascii -> bool) (s t : string) :
  all_chars f (s ++ t) = all_chars f s && all_chars f t.
Proof.
  induction s as [| c s IH]; rewrite ?append_nil, ?append_cons; cbn;
    [reflexivity |].
  now rewrite IH, andb_assoc.
Qed.

Lemma all_chars_impl (f g : ascii -> bool) (s : string) :
  (forall c, f c = true -> g c = true) ->
  all_chars f s = true -> all_chars g s = true.
Proof.
  intros Hfg. induction s as [| c s IH]; cbn; [reflexivity |].
  rewrite !andb_true_iff. intros [Hc Hs]. auto.
Qed.

Lemma hex_digit_unreserved (k : nat) : (k < 16)%nat -> unreserved (hex_digit k) = true.
Proof.
  intros Hk. do 16 (destruct k as [| k]; [reflexivity |]). lia.
Qed.

Lemma percent_encode_safe (s : string) :
  all_chars url_safe (percent_encode s) = true.
Proof.
  induction s as [| c s IH]; [reflexivity |].
  cbn [percent_encode]. destruct (unreserved c) eqn:Hc.
  - cbn. unfold url_safe at 1. now rewrite Hc, IH.
  - cbn [all_chars]. rewrite IH.
    assert (Hn : (nat_of_ascii c < 256)%nat) by apply nat_ascii_bounded.
    unfold url_safe.
    rewrite !hex_digit_unreserved; [reflexivity | |].
    + apply Nat.mod_upper_bound. lia.
    + apply Nat.Div0.div_lt_upper_bound. lia.
Qed.

(** A character that would end or split a part of a [mailto:] link. *)
Lemma delimiters_not_safe (c : ascii) :
  url_safe c = true ->
  negb (existsb (Ascii.eqb c) (list_ascii_of_string "&=?#+/ ,")
        || is_space c) = true.
Proof.
  destruct c as [[|] [|] [|] [|] [|] [|] [|] [|]]; intros H;
    first [reflexivity | discriminate H].
Qed.

(** What [encodeURIComponent] returns is the escaped text. *)
Lemma encodeURIComponent_Some (s out : string) :
  encodeURIComponent s = Some out -> out = percent_encode s.
Proof.
  unfold encodeURIComponent. destruct (lone_surrogate s); [discriminate |].
  now intros [= <-].
Qed.

(** X14. Whatever the text, the escaping of [encodeURIComponent] writes
    only letters, digits, the marks [-_.!~*'()] and "%" followed by two
    hexadecimal digits, and every result of [encodeURIComponent] is that
    escaping: no "&", "=", "?", "#", "+", "/", ",", blank or line break
    can appear in the subject or the body of the mail link. *)
Theorem X14_encodeURIComponent_output_alphabet (s : string) :
  all_chars url_safe (percent_encode s) = true
  /\ all_chars (fun c => negb (existsb (Ascii.eqb c) (list_ascii_of_string "&=?#+/ ,")
                              || is_space c))
       (percent_encode s) = true
  /\ forall out, encodeURIComponent s = Some out -> out = percent_encode s.
Proof.
  split; [apply percent_encode_safe |].
  split; [| apply encodeURIComponent_Some].
  apply (all_chars_impl url_safe); [apply delimiters_not_safe |].
  apply percent_encode_safe.
Qed.

Lemma percent_decode_step (c : ascii) (t : string) :
  percent_decode (percent_encode (String c t))
  = String c (percent_decode (percent_encode t)).
Proof.
  destruct c as [[|] [|] [|] [|] [|] [|] [|] [|]]; reflexivity.
Qed.

(** X15. [encodeURIComponent] loses nothing: reading every "%XX" of its
    escaping back as the byte XX gives the original text, so two
    different texts never get the same encoding. *)
Theorem X15_encodeURIComponent_decodes_back (s t : string) :
  percent_decode (percent_encode s) = s
  /\ (percent_encode s = percent_encode t -> s = t)
  /\ (forall out, encodeURIComponent s = Some out -> percent_decode out = s)
  /\ (forall out, encodeURIComponent s = Some out ->
                  encodeURIComponent t = Some out -> s = t).
Proof.
  assert (Hback : forall x, percent_decode (percent_encode x) = x).
  { induction x as [| c x IH]; [reflexivity |].
    now rewrite percent_decode_step, IH. }
  assert (Hinj : forall x y, percent_encode x = percent_encode y -> x = y).
  { intros x y Heq. rewrite <- (Hback x), <- (Hback y). now rewrite Heq. }
  split; [apply Hback |]. split; [apply Hinj |]. split.
  - intros out Hs. apply encodeURIComponent_Some in Hs as ->. apply Hback.
  - intros out Hs Ht. apply encodeURIComponent_Some in Hs, Ht.
    apply Hinj. congruence.
Qed.

Lemma before_comma_no_comma (s : string) :
  all_chars (fun c => negb (Ascii.eqb c ",")) (before_comma s) = true.
Proof.
  induction s as [| c s IH]; [reflexivity |].
  cbn. destruct (Ascii.eqb c ",") eqn:Hc; [reflexivity |].
  cbn. now rewrite Hc, IH.
Qed.

Lemma before_comma_prefix (s : string) : exists rest, s = before_comma s ++ rest.
Proof.
  induction s as [| c s [rest IH]]; [now exists "" |].
  cbn. destruct (Ascii.eqb c ","); [now exists (String c s) |].
  exists rest. rewrite append_cons. now rewrite <- IH.
Qed.

(** X16. The street name put in the subject of the mail is never
    empty and holds no comma: it is the part of the address before its
    first comma, or "Unknown Location" when that part is empty (an empty
    address, or one that begins with a comma). *)
Theorem X16_streetName_nonempty_without_comma (address : string) :
  streetName_of address <> ""
  /\ all_chars (fun c => negb (Ascii.eqb c ",")) (streetName_of address) = true
  /\ (streetName_of address = "Unknown Location"
      \/ exists rest, address = streetName_of address ++ rest)
  /\ (before_comma address = "" -> streetName_of address = "Unknown Location").
Proof.
  unfold streetName_of.
  destruct (nonempty (before_comma address)) eqn:Hn.
  - split; [now apply nonempty_true |].
    split; [apply before_comma_no_comma |].
    split; [right; apply before_comma_prefix |].
    intros He. rewrite He in Hn. discriminate.
  - repeat split; try discriminate; auto.
Qed.

(** Either the handler fails before the write, or it writes the entry
    of its identifier and then fails or answers. *)
Lemma handleReport_cases (request : request_json) (origin : string) (now : N)
    (rand36 date iso : string) (kv : gmap string kv_entry) :
  handleReport request origin now rand36 date iso kv = (Some failure, kv)
  \/ exists report location resp,
       request = JsonObject report /\ r_location report = Some location
       /\ handleReport request origin now rand36 date iso kv
          = (Some resp,
             <[reportId now rand36 :=
                 stored_entry report location origin (reportId now rand36) iso]> kv).
Proof.
  destruct request as [| | report]; try (now left).
  destruct report as [type [location |] timestamp image address source];
    [| now left].
  right.
  destruct location as [[la |] [ln |] accuracy], address as [address |];
    try (eexists _, _, _; (split; [reflexivity |]); (split; reflexivity)).
  destruct (handleReport_after_put origin now rand36 date iso kv
              (mkReport type (Some (mkLocation (Some la) (Some ln) accuracy))
                 timestamp image (Some address) source)
              _ la ln address eq_refl eq_refl eq_refl eq_refl)
    as (letter & _ & Hrun).
  eexists _, _, _. split; [reflexivity |]. split; [reflexivity |]. exact Hrun.
Qed.

(** X17. [handleReport] touches one key at most, the identifier it has
    just made: every other key of the store keeps its value, nothing is
    deleted, and after a 200 answer the store holds under that
    identifier the submitted body with the identifier, the status
    "pending_submission" and a time to live of 15,552,000 seconds (180
    days). *)
Theorem X17_handleReport_store_effect (request : request_json) (origin : string)
    (now : N) (rand36 date iso : string) (kv : gmap string kv_entry) :
  (forall k, k <> reportId now rand36 ->
             snd (handleReport request origin now rand36 date iso kv) !! k = kv !! k)
  /\ (forall k, is_Some (kv !! k) ->
                is_Some (snd (handleReport request origin now rand36 date iso kv) !! k))
  /\ (forall resp,
        fst (handleReport request origin now rand36 date iso kv) = Some resp ->
        status resp = 200%Z ->
        exists e,
          snd (handleReport request origin now rand36 date iso kv)
            !! reportId now rand36 = Some e
          /\ request = JsonObject (f_report (kv_value e))
          /\ f_id (kv_value e) = reportId now rand36
          /\ f_status (kv_value e) = "pending_submission"
          /\ kv_expirationTtl e = 15552000%Z).
Proof.
  destruct (handleReport_cases request origin now rand36 date iso kv)
    as [Hfail | (report & location & resp0 & -> & Hloc & Hput)].
  - rewrite Hfail. cbn [fst snd]. split; [auto |]. split; [auto |].
    intros resp Hresp Hstatus. injection Hresp as <-. discriminate.
  - rewrite Hput. cbn [fst snd]. split; [| split].
    + intros k Hk. now rewrite lookup_insert_ne.
    + intros k Hk. destruct (decide (k = reportId now rand36)) as [-> | Hne].
      * rewrite lookup_insert_eq. eauto.
      * now rewrite lookup_insert_ne.
    + intros resp Hresp Hstatus. eexists. rewrite lookup_insert_eq.
      split; [reflexivity |]. cbn. repeat split.
Qed.

Lemma digit36_upper_id_char (m : N) :
  (m < 36)%N -> id_char (upper_ascii (digit36 m)) = true.
Proof.
  intros Hm. destruct m as [| p]; [reflexivity |].
  do 6 (try (destruct p as [p | p |]; try reflexivity)); lia.
Qed.

Lemma toString36_aux_id_chars (fuel : nat) (n : N) :
  all_chars id_char (toUpperCase (toString36_aux fuel n "")) = true.
Proof.
  revert n. induction fuel as [| fuel IH]; intros n; cbn; [reflexivity |].
  destruct (n =? 0)%N; [reflexivity |].
  rewrite toString36_aux_acc. unfold toUpperCase.
  rewrite map_string_app, all_chars_app. fold toUpperCase.
  rewrite IH. cbn. rewrite digit36_upper_id_char by (apply N.mod_lt; lia).
  reflexivity.
Qed.

Lemma toString36_id_chars (n : N) :
  all_chars id_char (toUpperCase (toString36 n)) = true.
Proof.
  unfold toString36. destruct (n =? 0)%N; [reflexivity |].
  apply toString36_aux_id_chars.
Qed.

Lemma upper_base36_id_char (c : ascii) :
  base36_char c = true -> id_char (upper_ascii c) = true.
Proof.
  destruct c as [[|] [|] [|] [|] [|] [|] [|] [|]]; intros H;
    first [reflexivity | discriminate H].
Qed.

Lemma toUpperCase_id_chars (s : string) :
  all_chars base36_char s = true -> all_chars id_char (toUpperCase s) = true.
Proof.
  induction s as [| c s IH]; cbn; [reflexivity |].
  rewrite !andb_true_iff. intros [Hc Hs].
  split; [now apply upper_base36_id_char | now apply IH].
Qed.

Lemma map_string_length (f : ascii -> ascii) (s : string) :
  String.length (map_string f s) = String.length s.
Proof.
  induction s as [| c s IH]; cbn; [reflexivity | now rewrite IH].
Qed.

Lemma substring_length_le (n m : nat) (s : string) :
  (String.length (substring n m s) <= m)%nat.
Proof.
  revert n m. induction s as [| c s IH]; intros [| n] [| m]; cbn; try lia.
  - specialize (IH 0%nat m). lia.
  - apply (IH n 0%nat).
  - apply (IH n (S m)).
Qed.

(** X18. An identifier is "LA-", the clock reading in upper-case base
    36, "-", and at most four characters of the random draw; when those
    are base-36 digits, as [toString(36)] writes them, the whole
    identifier is made of upper-case letters, digits and "-" only, so it
    can stand as a path segment of the image and page links. *)
Theorem X18_reportId_shape (now : N) (rand36 : string) :
  all_chars base36_char (slice_2_6 rand36) = true ->
  all_chars id_char (reportId now rand36) = true
  /\ (exists time suffix,
        reportId now rand36 = "LA-" ++ time ++ "-" ++ suffix
        /\ time <> "" /\ has_dash time = false
        /\ (String.length suffix <= 4)%nat).
Proof.
  intros Hr. split.
  - unfold reportId. rewrite !all_chars_app.
    rewrite toString36_id_chars, (toUpperCase_id_chars _ Hr). reflexivity.
  - exists (toUpperCase (toString36 now)), (toUpperCase (slice_2_6 rand36)).
    split; [reflexivity |]. split; [| split].
    + intros He. pose proof (toString36_read now) as Hread. rewrite He in Hread.
      cbn in Hread. subst now. discriminate He.
    + apply toString36_no_dash.
    + unfold toUpperCase, slice_2_6. rewrite map_string_length.
      apply substring_length_le.
Qed.

Lemma X18_witness :
  all_chars id_char (reportId 1730000000000 "0.4fzyo82mvyr") = true.
Proof.
  assert (H : all_chars base36_char (slice_2_6 "0.4fzyo82mvyr") = true) by reflexivity.
  exact (proj1 (X18_reportId_shape 1730000000000 "0.4fzyo82mvyr" H)).
Defined.

(** ** Request Router *)

Lemma remove_first_eq (p s : string) :
  remove_first p s
  = if String.prefix p s then drop_string (String.length p) s
    else match s with
         | EmptyString => EmptyString
         | String c t => String c (remove_first p t)
         end.
Proof.
  destruct s; reflexivity.
Qed.

Lemma prefix_append (p s : string) : String.prefix p (p ++ s) = true.
Proof.
  induction p as [| c p IH]; [now destruct s |].
  rewrite append_cons. cbn. destruct (ascii_dec c c); [exact IH | congruence].
Qed.

Lemma drop_string_append (p s : string) : drop_string (String.length p) (p ++ s) = s.
Proof.
  induction p as [| c p IH]; [reflexivity |].
  rewrite append_cons. exact IH.
Qed.

(** Removing a leading pattern leaves what follows it, even when the
    pattern occurs again further on. *)
Lemma remove_first_prefix (p s : string) : remove_first p (p ++ s) = s.
Proof.
  rewrite remove_first_eq, prefix_append. apply drop_string_append.
Qed.

Lemma serveImage_store (reportId : string) (kv : gmap string kv_entry) :
  snd (serveImage reportId kv) = kv.
Proof.
  unfold serveImage, bind, kv_get. cbn.
  destruct (kv !! reportId) as [e |]; cbn; [| reflexivity].
  destruct (r_image (f_report (kv_value e))) as [image |]; cbn; [| reflexivity].
  destruct (atob _); reflexivity.
Qed.

Lemma serveReportPage_store (reportId : string) (kv : gmap string kv_entry) :
  snd (serveReportPage reportId kv) = kv.
Proof.
  unfold serveReportPage, bind, kv_get. cbn.
  destruct (kv !! reportId) as [e |]; cbn; [| reflexivity].
  destruct (r_location (f_report (kv_value e))) as [[[la |] [ln |] acc] |];
    reflexivity.
Qed.

(** X19. Only [POST /report] can change the store: for every other
    request (other paths, other methods, the preflight) the router leaves
    the store as it was, whether it answers or throws. *)
Theorem X19_only_post_report_writes (request : Request) (now : N)
    (rand36 date iso : string) (kv : gmap string kv_entry) :
  ~ (method request = "POST" /\ url_pathname request = "/report") ->
  snd (fetch request now rand36 date iso kv) = kv.
Proof.
  intros Hnot. unfold fetch.
  destruct (String.eqb (method request) "OPTIONS"); [reflexivity |].
  destruct (String.eqb (url_pathname request) "/report") eqn:Hp,
    (String.eqb (method request) "POST") eqn:Hm; cbn [andb].
  - exfalso. apply Hnot. split; now apply String.eqb_eq.
  - destruct (startsWith "/image/" _); [apply serveImage_store |].
    destruct (startsWith "/view/" _); [apply serveReportPage_store |].
    destruct (String.eqb _ "/health"); [reflexivity |].
    destruct (String.eqb _ "/og.png"); reflexivity.
  - destruct (startsWith "/image/" _); [apply serveImage_store |].
    destruct (startsWith "/view/" _); [apply serveReportPage_store |].
    destruct (String.eqb _ "/health"); [reflexivity |].
    destruct (String.eqb _ "/og.png"); reflexivity.
  - destruct (startsWith "/image/" _); [apply serveImage_store |].
    destruct (startsWith "/view/" _); [apply serveReportPage_store |].
    destruct (String.eqb _ "/health"); [reflexivity |].
    destruct (String.eqb _ "/og.png"); reflexivity.
Qed.

Lemma X19_witness :
  snd (fetch (mkRequest "GET" sample_origin "/report" JsonThrows)
         1730000000000 "0.4fzyo82mvyr" sample_date sample_iso ∅) = ∅.
Proof.
  apply X19_only_post_report_writes. cbn. intros [H _]. discriminate H.
Defined.

Lemma fetch_view (m origin id : string) (j : request_json) (now : N)
    (rand36 date iso : string) (kv : gmap string kv_entry) :
  m <> "OPTIONS" ->
  fetch (mkRequest m origin ("/view/" ++ id) j) now rand36 date iso kv
  = serveReportPage id kv.
Proof.
  intros Hm. unfold fetch. cbn [method url_pathname].
  apply String.eqb_neq in Hm. rewrite Hm.
  change (String.eqb ("/view/" ++ id) "/report") with false. cbn [andb].
  change (startsWith "/image/" ("/view/" ++ id)) with false. cbv iota.
  unfold startsWith. rewrite prefix_append, remove_first_prefix. reflexivity.
Qed.

Lemma fetch_image (m origin id : string) (j : request_json) (now : N)
    (rand36 date iso : string) (kv : gmap string kv_entry) :
  m <> "OPTIONS" ->
  fetch (mkRequest m origin ("/image/" ++ id) j) now rand36 date iso kv
  = serveImage id kv.
Proof.
  intros Hm. unfold fetch. cbn [method url_pathname].
  apply String.eqb_neq in Hm. rewrite Hm.
  change (String.eqb ("/image/" ++ id) "/report") with false. cbn [andb].
  unfold startsWith. rewrite prefix_append, remove_first_prefix. reflexivity.
Qed.

(** X20. What [POST /report] stores can be read back: when the POST is
    answered 200, its body was a capture with its location, both
    coordinates and its address, and a request on the page link of the
    answer ([/view/] followed by the identifier) is routed to
    [serveReportPage] with that identifier and gets a 200 page showing
    the identifier, the submitted address, the coordinates with six
    decimals and the map link of the answer. *)
Theorem X20_view_after_report (origin : string) (now : N)
    (rand36 date iso : string) (kv kv1 : gmap string kv_entry)
    (request : request_json) (r1 : http_response)
    (m o : string) (j : request_json) (now' : N)
    (rand36' date' iso' : string) :
  fetch (mkRequest "POST" origin "/report" request) now rand36 date iso kv
  = (Some r1, kv1) ->
  h_status r1 = 200%Z ->
  m <> "OPTIONS" ->
  exists report location la ln address letter mail,
    request = JsonObject report
    /\ r_location report = Some location
    /\ l_lat location = Some la /\ l_lng location = Some ln
    /\ r_address report = Some address
    /\ h_body r1
       = BodyReport
           (Success (reportId now rand36) (googleMapsUrl location)
              (origin ++ "/image/" ++ reportId now rand36)
              (origin ++ "/view/" ++ reportId now rand36) letter mail
              "https://myla311.lacity.org/portal/faces/home" address "Report ready!")
    /\ fetch (mkRequest m o ("/view/" ++ reportId now rand36) j) now' rand36' date' iso'
         kv1
       = (Some {| h_status := 200;
                  h_headers := [ ("Content-Type", "text/html") ];
                  h_body := BodyReportPage (reportId now rand36) address
                              (toFixed6 (value la)) (toFixed6 (value ln))
                              (googleMapsUrl location) |}, kv1).
Proof.
  intros Hpost Hstatus Hm.
  unfold fetch in Hpost.
  cbn [method url_pathname json url_origin String.eqb Ascii.eqb Bool.eqb andb]
    in Hpost.
  unfold bind in Hpost.
  destruct (handleReport request origin now rand36 date iso kv)
    as [[resp |] kv'] eqn:Hrun; [| discriminate Hpost].
  unfold ret in Hpost. injection Hpost as <- <-.
  cbn [report_response h_status] in Hstatus.
  assert (Hresp : fst (handleReport request origin now rand36 date iso kv)
                  = Some resp) by now rewrite Hrun.
  destruct (handleReport_200 _ _ _ _ _ _ _ _ Hresp Hstatus)
    as (report & location & la & ln & address & letter & mail
        & -> & Hloc & Hla & Hln & Haddr & _ & _ & Hput & ->).
  rewrite Hput in Hrun. injection Hrun as <-.
  exists report, location, la, ln, address, letter, mail.
  do 5 (split; [first [reflexivity | assumption] |]).
  split; [reflexivity |].
  rewrite fetch_view by exact Hm.
  unfold serveReportPage, bind, kv_get. cbn [fst snd].
  rewrite lookup_insert_eq. cbn. rewrite Hloc. cbn. rewrite Hla, Hln. cbn.
  rewrite Haddr. reflexivity.
Qed.

Lemma X20_witness :
  exists r1 kv1,
    fetch (mkRequest "POST" sample_origin "/report"
             (JsonObject (sample_report (Some "123 Main St, Los Angeles, CA"))))
      1730000000000 "0.4fzyo82mvyr" sample_date sample_iso ∅ = (Some r1, kv1)
    /\ h_status r1 = 200%Z
    /\ exists lat lng,
         fetch (mkRequest "GET" sample_origin ("/view/" ++ "LA-M2R1BZ7K-4FZY") JsonThrows)
           1730000000001 "0.abcdefgh" sample_date sample_iso kv1
         = (Some {| h_status := 200;
                    h_headers := [ ("Content-Type", "text/html") ];
                    h_body := BodyReportPage "LA-M2R1BZ7K-4FZY"
                                "123 Main St, Los Angeles, CA" lat lng
                                "https://www.google.com/maps?q=34.05,-118.25" |}, kv1).
Proof.
  assert (Hm : "GET" <> "OPTIONS") by discriminate.
  destruct (handleReport_sample_run "0.4fzyo82mvyr" ∅ eq_refl)
    as (letter0 & mail0 & Hrun).
  assert (Hpost :
    fetch (mkRequest "POST" sample_origin "/report"
             (JsonObject (sample_report (Some "123 Main St, Los Angeles, CA"))))
      1730000000000 "0.4fzyo82mvyr" sample_date sample_iso ∅
    = (Some (report_response
               {| status := 200;
                  body := Success "LA-M2R1BZ7K-4FZY" (googleMapsUrl sample_location)
                            (imageUrl sample_origin "LA-M2R1BZ7K-4FZY")
                            (viewUrl sample_origin "LA-M2R1BZ7K-4FZY") letter0 mail0
                            "https://myla311.lacity.org/portal/faces/home"
                            "123 Main St, Los Angeles, CA" "Report ready!" |}),
       <["LA-M2R1BZ7K-4FZY" :=
           stored_entry (sample_report (Some "123 Main St, Los Angeles, CA"))
             sample_location sample_origin "LA-M2R1BZ7K-4FZY" sample_iso]> ∅)).
  { unfold fetch.
    cbn [method url_pathname json url_origin String.eqb Ascii.eqb Bool.eqb andb].
    unfold bind. rewrite Hrun. reflexivity. }
  destruct (X20_view_after_report sample_origin 1730000000000 "0.4fzyo82mvyr"
              sample_date sample_iso ∅ _ _ _ "GET" sample_origin JsonThrows
              1730000000001 "0.abcdefgh" sample_date sample_iso
              Hpost eq_refl Hm)
    as (report & location & la & ln & address & letter & mail
        & Hreq & Hloc & Hla & Hln & Haddr & _ & Hview).
  injection Hreq as <-. injection Hloc as <-. injection Haddr as <-.
  eexists _, _. split; [exact Hpost |]. split; [reflexivity |].
  eexists _, _. exact Hview.
Defined.

(** X21. An identifier that is not in the store gets a 404, "Report
    not found" from the page route and "Not found" from the image route,
    for every method but the preflight, and the store is left as it
    was. *)
Theorem X21_unknown_identifier_not_found (m o id : string) (j : request_json)
    (now : N) (rand36 date iso : string) (kv : gmap string kv_entry) :
  kv !! id = None ->
  m <> "OPTIONS" ->
  fetch (mkRequest m o ("/view/" ++ id) j) now rand36 date iso kv
  = (Some {| h_status := 404; h_headers := [];
             h_body := BodyText "Report not found" |}, kv)
  /\ fetch (mkRequest m o ("/image/" ++ id) j) now rand36 date iso kv
     = (Some {| h_status := 404; h_headers := [];
                h_body := BodyText "Not found" |}, kv).
Proof.
  intros Hnone Hm. rewrite fetch_view, fetch_image by exact Hm.
  unfold serveReportPage, serveImage, bind, kv_get. now rewrite Hnone.
Qed.

Lemma X21_witness :
  fetch (mkRequest "GET" sample_origin ("/view/" ++ "LA-NEVER-PUT") JsonThrows)
    1730000000000 "0.4fzyo82mvyr" sample_date sample_iso ∅
  = (Some {| h_status := 404; h_headers := [];
             h_body := BodyText "Report not found" |}, ∅).
Proof.
  assert (Hm : "GET" <> "OPTIONS") by discriminate.
  exact (proj1 (X21_unknown_identifier_not_found "GET" sample_origin "LA-NEVER-PUT"
                  JsonThrows 1730000000000 "0.4fzyo82mvyr" sample_date sample_iso ∅
                  (lookup_empty _) Hm)).
Defined.

(** X22. The record that a failed call leaves behind is served by the
    page route: for a capture with its location and no address, the 500
    answer is followed, on [/view/] with the identifier of the call, by
    a 200 page whose address reads "undefined" when both coordinates are
    there, and by an exception when one of them is missing. *)
Theorem X22_view_after_failed_report (origin : string) (now : N)
    (rand36 date iso : string) (kv : gmap string kv_entry)
    (report : PotholeReport) (location : Location) :
  r_location report = Some location ->
  r_address report = None ->
  exists kv1,
    handleReport (JsonObject report) origin now rand36 date iso kv
    = (Some failure, kv1)
    /\ serveReportPage (reportId now rand36) kv1
       = (match l_lat location, l_lng location with
          | Some la, Some ln =>
              Some {| h_status := 200;
                      h_headers := [ ("Content-Type", "text/html") ];
                      h_body := BodyReportPage (reportId now rand36) "undefined"
                                  (toFixed6 (value la)) (toFixed6 (value ln))
                                  (googleMapsUrl location) |}
          | _, _ => None
          end, kv1).
Proof.
  intros Hloc Haddr. eexists. split.
  - apply (handleReport_throws_after_put origin now rand36 date iso kv report location
             Hloc). now left.
  - unfold serveReportPage, bind, kv_get. cbn [fst snd].
    rewrite lookup_insert_eq. cbn. rewrite Hloc. cbn.
    destruct (l_lat location) as [la |]; cbn; [| reflexivity].
    destruct (l_lng location) as [ln |]; cbn; [| reflexivity].
    now rewrite Haddr.
Qed.

Lemma X22_witness :
  exists kv1,
    handleReport (JsonObject (sample_report None)) sample_origin 1730000000000
      "0.4fzyo82mvyr" sample_date sample_iso ∅ = (Some failure, kv1)
    /\ fst (serveReportPage "LA-M2R1BZ7K-4FZY" kv1)
       = Some {| h_status := 200;
                 h_headers := [ ("Content-Type", "text/html") ];
                 h_body := BodyReportPage "LA-M2R1BZ7K-4FZY" "undefined"
                             (toFixed6 34.05) (toFixed6 (-118.25))
                             "https://www.google.com/maps?q=34.05,-118.25" |}.
Proof.
  destruct (X22_view_after_failed_report sample_origin 1730000000000 "0.4fzyo82mvyr"
              sample_date sample_iso ∅ (sample_report None) sample_location
              eq_refl eq_refl) as (kv1 & H1 & H2).
  exists kv1. split; [exact H1 |].
  change (reportId 1730000000000 "0.4fzyo82mvyr") with "LA-M2R1BZ7K-4FZY" in H2.
  rewrite H2. reflexivity.
Defined.

(** ** The image route and base64 *)

Lemma triple_ind (P : list N -> Prop) :
  P [] -> (forall a, P [a]) -> (forall a b, P [a; b]) ->
  (forall a b c l, P l -> P (a :: b :: c :: l)) ->
  forall l, P l.
Proof.
  intros H0 H1 H2 H3.
  assert (H : forall l, P l /\ (forall a, P (a :: l)) /\ (forall a b, P (a :: b :: l))).
  { induction l as [| x l (IHa & IHb & IHc)]; [now auto |].
    split; [apply IHb |]. split; [intros a; apply IHc |].
    intros a b. now apply H3. }
  intros l. apply H.
Qed.

Lemma div_known (a b q r : N) :
  (a = b * q + r)%N -> (r < b)%N -> (a / b = q)%N /\ (a mod b = r)%N.
Proof.
  intros Ha Hr. split.
  - symmetry. now apply (N.div_unique a b q r).
  - symmetry. now apply (N.mod_unique a b q r).
Qed.

Lemma sextets_recompose (n : N) :
  (n / 262144 * 262144 + (n / 4096) mod 64 * 4096 + (n / 64) mod 64 * 64 + n mod 64
   = n)%N.
Proof.
  pose proof (N.div_mod n 64) as H1.
  pose proof (N.div_mod (n / 64) 64) as H2.
  pose proof (N.div_mod (n / 4096) 64) as H3.
  rewrite N.Div0.div_div in H2, H3.
  change (64 * 64)%N with 4096%N in H2. change (4096 * 64)%N with 262144%N in H3.
  specialize (H1 ltac:(lia)). specialize (H2 ltac:(lia)). specialize (H3 ltac:(lia)).
  lia.
Qed.

Lemma sextets_recompose_3 (n : N) :
  (n < 262144)%N ->
  (n / 4096 * 4096 + (n / 64) mod 64 * 64 + n mod 64 = n)%N.
Proof.
  intros Hn.
  pose proof (N.div_mod n 64) as H1.
  pose proof (N.div_mod (n / 64) 64) as H2.
  rewrite N.Div0.div_div in H2. change (64 * 64)%N with 4096%N in H2.
  specialize (H1 ltac:(lia)). specialize (H2 ltac:(lia)). lia.
Qed.

Lemma sextets_recompose_2 (n : N) : (n / 64 * 64 + n mod 64 = n)%N.
Proof.
  pose proof (N.div_mod n 64) as H1. specialize (H1 ltac:(lia)). lia.
Qed.

(** Decoding the 6-bit values of the encoding gives the bytes back. *)
Lemma decode_sextets_encode (bs : list N) :
  Forall (fun b => (b < 256)%N) bs -> decode_sextets (b64_sextets bs) = bs.
Proof.
  induction bs as [| a | a b | a b c l IH] using triple_ind; intros Hall.
  - reflexivity.
  - inversion Hall as [| ? ? Ha _]; subst.
    cbn [b64_sextets decode_sextets]. rewrite sextets_recompose_2.
    destruct (div_known (a * 16) 16 a 0) as [-> _]; [lia | lia |]. reflexivity.
  - inversion Hall as [| ? ? Ha Hall']; subst.
    inversion Hall' as [| ? ? Hb _]; subst.
    cbn [b64_sextets decode_sextets].
    rewrite sextets_recompose_3 by lia.
    destruct (div_known (a * 1024 + b * 4) 1024 a (b * 4)) as [-> _]; [lia | lia |].
    destruct (div_known (a * 1024 + b * 4) 4 (a * 256 + b) 0) as [-> _]; [lia | lia |].
    destruct (div_known (a * 256 + b) 256 a b) as [_ ->]; [lia | lia |].
    reflexivity.
  - inversion Hall as [| ? ? Ha Hall1]; subst.
    inversion Hall1 as [| ? ? Hb Hall2]; subst.
    inversion Hall2 as [| ? ? Hc Hall3]; subst.
    cbn [b64_sextets decode_sextets].
    rewrite sextets_recompose, (IH Hall3).
    destruct (div_known (a * 65536 + b * 256 + c) 65536 a (b * 256 + c)) as [-> _];
      [lia | lia |].
    destruct (div_known (a * 65536 + b * 256 + c) 256 (a * 256 + b) c) as [-> ->];
      [lia | lia |].
    destruct (div_known (a * 256 + b) 256 a b) as [_ ->]; [lia | lia |].
    reflexivity.
Qed.

Lemma b64_sextets_bound (bs : list N) :
  Forall (fun b => (b < 256)%N) bs -> Forall (fun v => (v < 64)%N) (b64_sextets bs).
Proof.
  induction bs as [| a | a b | a b c l IH] using triple_ind; intros Hall.
  - constructor.
  - inversion Hall as [| ? ? Ha _]; subst. cbn [b64_sextets].
    repeat constructor.
    + apply N.Div0.div_lt_upper_bound. lia.
    + apply N.mod_lt. lia.
  - inversion Hall as [| ? ? Ha Hall']; subst.
    inversion Hall' as [| ? ? Hb _]; subst. cbn [b64_sextets].
    repeat constructor; try (apply N.mod_lt; lia).
    apply N.Div0.div_lt_upper_bound. lia.
  - inversion Hall as [| ? ? Ha Hall1]; subst.
    inversion Hall1 as [| ? ? Hb Hall2]; subst.
    inversion Hall2 as [| ? ? Hc Hall3]; subst. cbn [b64_sextets].
    repeat (constructor; [try (apply N.mod_lt; lia) |]); [| now apply IH].
    apply N.Div0.div_lt_upper_bound. lia.
Qed.

Lemma b64_encode_decomp (bs : list N) :
  b64_encode bs = (map b64_char (b64_sextets bs) ++ b64_padding bs)%list.
Proof.
  induction bs as [| a | a b | a b c l IH] using triple_ind; try reflexivity.
  cbn [b64_encode b64_sextets b64_padding map app]. now rewrite IH.
Qed.

Lemma b64_char_facts (v : N) :
  (v < 64)%N ->
  b64_value (b64_char v) = Some v
  /\ b64_space (b64_char v) = false
  /\ b64_char v <> "="%char
  /\ Ascii.eqb (b64_char v) "," = false.
Proof.
  intros Hv. destruct v as [| p]; [repeat split; discriminate |].
  do 7 (try (destruct p as [p | p |]; try (repeat split; discriminate))); lia.
Qed.

Lemma sextets_of_chars (vs : list N) :
  Forall (fun v => (v < 64)%N) vs -> sextets (map b64_char vs) = Some vs.
Proof.
  induction 1 as [| v vs Hv _ IH]; [reflexivity |].
  cbn [map sextets]. destruct (b64_char_facts v Hv) as (-> & _). now rewrite IH.
Qed.

Lemma filter_spaces_chars (vs : list N) (pad : list ascii) :
  Forall (fun v => (v < 64)%N) vs ->
  Forall (fun c => b64_space c = false) pad ->
  List.filter (fun c => negb (b64_space c)) (map b64_char vs ++ pad)%list
  = (map b64_char vs ++ pad)%list.
Proof.
  intros Hvs Hpad. induction Hvs as [| v vs Hv _ IH]; cbn [map app List.filter].
  - induction Hpad as [| c pad Hc _ IH]; [reflexivity |].
    cbn [List.filter]. rewrite Hc. cbn. now rewrite IH.
  - destruct (b64_char_facts v Hv) as (_ & -> & _). cbn. now rewrite IH.
Qed.

Lemma b64_padding_cases (bs : list N) :
  b64_padding bs = [] \/ b64_padding bs = [ "="%char ]
  \/ b64_padding bs = [ "="%char; "="%char ].
Proof.
  induction bs as [| a | a b | a b c l IH] using triple_ind; cbn; auto.
Qed.

Lemma b64_encode_length (bs : list N) : exists k, length (b64_encode bs) = (4 * k)%nat.
Proof.
  induction bs as [| a | a b | a b c l [k IH]] using triple_ind.
  - now exists 0%nat.
  - now exists 1%nat.
  - now exists 1%nat.
  - exists (S k). cbn [b64_encode length]. rewrite IH. lia.
Qed.

Lemma b64_sextets_length (bs : list N) :
  exists k, length (b64_sextets bs) = (4 * k)%nat
            \/ length (b64_sextets bs) = (4 * k + 2)%nat
            \/ length (b64_sextets bs) = (4 * k + 3)%nat.
Proof.
  induction bs as [| a | a b | a b c l [k IH]] using triple_ind.
  - exists 0%nat. now left.
  - exists 0%nat. right. now left.
  - exists 0%nat. right. now right.
  - exists (S k). cbn [b64_sextets length]. lia.
Qed.

Lemma strip_reversed_keep (l rl : list ascii) :
  (forall c r, rl = c :: r -> c <> "="%char) -> strip_reversed l rl = l.
Proof.
  intros Hhd. destruct rl as [| c r]; [reflexivity |].
  specialize (Hhd c r eq_refl).
  destruct c as [[|] [|] [|] [|] [|] [|] [|] [|]]; try reflexivity.
  congruence.
Qed.

Lemma strip_reversed_one (l r : list ascii) :
  (forall c r', r = c :: r' -> c <> "="%char) ->
  strip_reversed l ("="%char :: r) = rev r.
Proof.
  intros Hhd. destruct r as [| c r']; [reflexivity |].
  specialize (Hhd c r' eq_refl).
  destruct c as [[|] [|] [|] [|] [|] [|] [|] [|]]; try reflexivity.
  congruence.
Qed.

Lemma rev_head_in {A : Type} (l : list A) (c : A) (r : list A) :
  rev l = c :: r -> In c l.
Proof.
  intros H. apply in_rev. rewrite H. now left.
Qed.

Lemma strip_padding_encode (bs : list N) :
  Forall (fun b => (b < 256)%N) bs ->
  strip_padding (b64_encode bs) = map b64_char (b64_sextets bs).
Proof.
  intros Hall. unfold strip_padding.
  destruct (b64_encode_length bs) as [k Hk].
  replace (length (b64_encode bs) mod 4)%nat with 0%nat
    by (rewrite Hk, Nat.mul_comm; symmetry; apply Nat.Div0.mod_mul).
  cbn [Nat.eqb]. fold (strip_reversed (b64_encode bs) (rev (b64_encode bs))).
  rewrite b64_encode_decomp.
  pose proof (b64_sextets_bound bs Hall) as Hb.
  assert (Hhd : forall c r, rev (map b64_char (b64_sextets bs)) = c :: r -> c <> "="%char).
  { intros c r Hr. apply rev_head_in, in_map_iff in Hr as (v & <- & Hv).
    rewrite Forall_forall in Hb. now apply b64_char_facts, Hb, list_elem_of_In. }
  destruct (b64_padding_cases bs) as [-> | [-> | ->]]; rewrite rev_app_distr.
  - cbn [rev app]. rewrite app_nil_r. now apply strip_reversed_keep.
  - cbn [rev app]. rewrite strip_reversed_one by exact Hhd. apply rev_involutive.
  - cbn [rev app strip_reversed]. apply rev_involutive.
Qed.

(** [atob] undoes the base64 encoding of any sequence of bytes. *)
Lemma atob_encode (bs : list N) :
  Forall (fun b => (b < 256)%N) bs ->
  atob (string_of_list_ascii (b64_encode bs)) = Some bs.
Proof.
  intros Hall. unfold atob. cbv zeta.
  rewrite list_ascii_of_string_of_list_ascii.
  pose proof (b64_sextets_bound bs Hall) as Hb.
  assert (Hf : List.filter (fun c => negb (b64_space c)) (b64_encode bs)
               = b64_encode bs).
  { rewrite b64_encode_decomp. apply filter_spaces_chars; [exact Hb |].
    destruct (b64_padding_cases bs) as [-> | [-> | ->]]; repeat constructor. }
  rewrite !Hf, !strip_padding_encode by exact Hall.
  destruct (b64_sextets_length bs) as [k Hk].
  rewrite length_map.
  replace (length (b64_sextets bs) mod 4 =? 1)%nat with false.
  - rewrite sextets_of_chars by exact Hb. cbn.
    now rewrite decode_sextets_encode.
  - symmetry. apply Nat.eqb_neq.
    destruct Hk as [-> | [-> | ->]].
    + rewrite Nat.mul_comm, Nat.Div0.mod_mul. discriminate.
    + rewrite Nat.add_comm, Nat.mul_comm, Nat.Div0.mod_add. discriminate.
    + rewrite Nat.add_comm, Nat.mul_comm, Nat.Div0.mod_add. discriminate.
Qed.

Lemma second_field_after (header rest : string) :
  no_comma header = true ->
  second_field (header ++ String "," rest) = Some (before_comma rest).
Proof.
  unfold no_comma. induction header as [| c h IH]; intros Hh.
  - reflexivity.
  - rewrite append_cons. cbn in Hh |- *.
    apply andb_true_iff in Hh as [Hc Hh']. apply negb_true_iff in Hc.
    rewrite Hc. now apply IH.
Qed.

Lemma second_field_none (s : string) : no_comma s = true -> second_field s = None.
Proof.
  unfold no_comma. induction s as [| c s IH]; intros Hs; [reflexivity |].
  cbn in Hs |- *. apply andb_true_iff in Hs as [Hc Hs']. apply negb_true_iff in Hc.
  rewrite Hc. now apply IH.
Qed.

Lemma before_comma_all (s : string) : no_comma s = true -> before_comma s = s.
Proof.
  unfold no_comma. induction s as [| c s IH]; intros Hs; [reflexivity |].
  cbn in Hs |- *. apply andb_true_iff in Hs as [Hc Hs']. apply negb_true_iff in Hc.
  rewrite Hc. now rewrite IH.
Qed.

Lemma b64_encode_no_comma (bs : list N) :
  Forall (fun b => (b < 256)%N) bs ->
  no_comma (string_of_list_ascii (b64_encode bs)) = true.
Proof.
  intros Hall. pose proof (b64_sextets_bound bs Hall) as Hb.
  rewrite b64_encode_decomp. unfold no_comma.
  induction Hb as [| v vs Hv _ IH]; cbn [map app string_of_list_ascii all_chars].
  - destruct (b64_padding_cases bs) as [-> | [-> | ->]]; reflexivity.
  - destruct (b64_char_facts v Hv) as (_ & _ & _ & ->). exact IH.
Qed.

(** X23. The image route gives back the picture that was submitted:
    when the stored [image] is a data URI, a header without comma, a
    comma and the base64 encoding of some bytes, the answer is 200,
    typed [image/jpeg], and its body is exactly those bytes; the store is
    not changed. *)
Theorem X23_serveImage_returns_encoded_bytes (reportId : string)
    (kv : gmap string kv_entry) (e : kv_entry) (header : string) (bytes : list N) :
  kv !! reportId = Some e ->
  r_image (f_report (kv_value e))
  = Some (header ++ "," ++ string_of_list_ascii (b64_encode bytes)) ->
  no_comma header = true ->
  Forall (fun b => (b < 256)%N) bytes ->
  serveImage reportId kv
  = (Some {| h_status := 200;
             h_headers := [ ("Content-Type", "image/jpeg");
                            ("Cache-Control", "public, max-age=31536000") ];
             h_body := BodyBytes bytes |}, kv).
Proof.
  intros Hget Himg Hheader Hbytes.
  unfold serveImage, bind, kv_get. rewrite Hget. cbn. rewrite Himg. cbn.
  change ("," ++ string_of_list_ascii (b64_encode bytes))
    with (String "," (string_of_list_ascii (b64_encode bytes))).
  rewrite (second_field_after _ _ Hheader).
  rewrite before_comma_all by now apply b64_encode_no_comma.
  unfold template_string, default, from_option, Datatypes.id.
  rewrite atob_encode by exact Hbytes. reflexivity.
Qed.

Lemma X23_witness :
  serveImage "LA-M2R1BZ7K-4FZY"
    {[ "LA-M2R1BZ7K-4FZY" :=
         stored_entry (sample_report None) sample_location sample_origin
           "LA-M2R1BZ7K-4FZY" sample_iso ]}
  = (Some {| h_status := 200;
             h_headers := [ ("Content-Type", "image/jpeg");
                            ("Cache-Control", "public, max-age=31536000") ];
             h_body := BodyBytes [0%N; 0%N; 0%N] |},
     {[ "LA-M2R1BZ7K-4FZY" :=
          stored_entry (sample_report None) sample_location sample_origin
            "LA-M2R1BZ7K-4FZY" sample_iso ]}).
Proof.
  assert (Hb : Forall (fun b => (b < 256)%N) [0%N; 0%N; 0%N])
    by (repeat constructor).
  apply (X23_serveImage_returns_encoded_bytes "LA-M2R1BZ7K-4FZY" _
           (stored_entry (sample_report None) sample_location sample_origin
              "LA-M2R1BZ7K-4FZY" sample_iso)
           "data:image/jpeg;base64" [0%N; 0%N; 0%N]).
  - apply lookup_singleton_eq.
  - reflexivity.
  - reflexivity.
  - exact Hb.
Defined.

(** X24. The image route has no guard on what it reads: a stored
    record without [image], or with an [image] that holds no comma (so
    that [split(",")[1]] is [undefined] and [atob] rejects the text
    "undefined"), makes it throw instead of answering. *)
Theorem X24_serveImage_throws_without_data_uri (reportId : string)
    (kv : gmap string kv_entry) (e : kv_entry) :
  kv !! reportId = Some e ->
  match r_image (f_report (kv_value e)) with
  | None => True
  | Some image => no_comma image = true
  end ->
  serveImage reportId kv = (None, kv).
Proof.
  intros Hget Himg.
  unfold serveImage, bind, kv_get. rewrite Hget. cbn.
  destruct (r_image (f_report (kv_value e))) as [image |]; cbn; [| reflexivity].
  now rewrite (second_field_none image Himg).
Qed.

Lemma X24_witness :
  serveImage "k"
    {[ "k" := stored_entry (mkReport None None None (Some "not a data URI") None None)
                sample_location sample_origin "k" sample_iso ]}
  = (None,
     {[ "k" := stored_entry (mkReport None None None (Some "not a data URI") None None)
                 sample_location sample_origin "k" sample_iso ]}).
Proof.
  apply (X24_serveImage_throws_without_data_uri "k" _
           (stored_entry (mkReport None None None (Some "not a data URI") None None)
              sample_location sample_origin "k" sample_iso)).
  - apply lookup_singleton_eq.
  - reflexivity.
Defined.

(** ** The "Fix My Street" Report Builder *)

(** Once the letter is built the record is written, and the answer
    depends on the address and on the two [encodeURIComponent] calls. *)
Lemma FixMyStreet_handleReport_after_put (report : PotholeReport)
    (location : Location) (letter : string) (now : N) (rand36 date iso : string)
    (kv : gmap string FixMyStreet.kv_entry) :
  r_location report = Some location ->
  FixMyStreet.generateFormalLetter report location (reportId now rand36) date
  = Some letter ->
  FixMyStreet.handleReport (JsonObject report) now rand36 date iso kv
  = (match r_address report with
     | None => FixMyStreet.failure
     | Some address =>
         match FixMyStreet.mailtoUrl (reportId now rand36) address letter with
         | None => FixMyStreet.failure
         | Some m =>
             {| FixMyStreet.status := 200;
                FixMyStreet.body :=
                  FixMyStreet.Success (reportId now rand36)
                    (googleMapsUrl location) letter m
                    "https://myla311.lacity.org/portal/faces/home"
                    address "Report ready to send!" |}
         end
     end,
     <[reportId now rand36 :=
         FixMyStreet.stored_entry report location (reportId now rand36)
           letter iso]> kv).
Proof.
  intros Hloc Hletter. unfold FixMyStreet.handleReport. cbv zeta.
  rewrite Hloc, Hletter.
  destruct (r_address report) as [address |]; [| reflexivity].
  destruct (FixMyStreet.mailtoUrl _ address letter); reflexivity.
Qed.

(** X25. The "Fix My Street" handler writes the letter before the
    store: a capture without location, latitude or longitude gets the
    500 answer with the store unchanged.  A capture with both
    coordinates is stored under the new identifier, with its letter,
    before the address is read and the mail link built, so that a
    missing address still gives 500 after the write, and so does an
    address when [encodeURIComponent] throws on the subject or on the
    letter; otherwise the answer is 200 with the identifier, the map
    link, the letter, the mail link and the address. *)
Theorem X25_FixMyStreet_checks_coordinates_before_write (report : PotholeReport)
    (now : N) (rand36 date iso : string) (kv : gmap string FixMyStreet.kv_entry) :
  match r_location report with
  | None => FixMyStreet.handleReport (JsonObject report) now rand36 date iso kv
            = (FixMyStreet.failure, kv)
  | Some location =>
      match l_lat location, l_lng location with
      | Some la, Some ln =>
          exists letter resp,
            FixMyStreet.generateFormalLetter report location (reportId now rand36) date
            = Some letter
            /\ FixMyStreet.handleReport (JsonObject report) now rand36 date iso kv
               = (resp,
                  <[reportId now rand36 :=
                      FixMyStreet.stored_entry report location (reportId now rand36)
                        letter iso]> kv)
            /\ match r_address report with
               | None => resp = FixMyStreet.failure
               | Some address =>
                   match FixMyStreet.mailtoUrl (reportId now rand36) address
                           letter with
                   | None => resp = FixMyStreet.failure
                   | Some m =>
                       resp
                       = {| FixMyStreet.status := 200;
                            FixMyStreet.body :=
                              FixMyStreet.Success (reportId now rand36)
                                (googleMapsUrl location) letter m
                                "https://myla311.lacity.org/portal/faces/home"
                                address "Report ready to send!" |}
                   end
               end
      | _, _ => FixMyStreet.handleReport (JsonObject report) now rand36 date iso kv
                = (FixMyStreet.failure, kv)
      end
  end.
Proof.
  destruct report as [type [location |] timestamp image address source];
    cbn [r_location]; [| reflexivity].
  destruct location as [[la |] [ln |] accuracy]; cbn [l_lat l_lng]; try reflexivity.
  destruct address as [address |]; cbn [r_address].
  - eexists _, _. split; [reflexivity |].
    split; [apply FixMyStreet_handleReport_after_put; reflexivity |].
    cbn [r_address]. destruct (FixMyStreet.mailtoUrl _ address _); reflexivity.
  - eexists _, _. split; [reflexivity |]. split; reflexivity.
Qed.

(** ** The handler always answers *)

(** X26. [handleReport] never lets an exception out: whatever the
    body, it returns a response, which is either the 500
    [{success: false, error: "Failed to process report"}] or a 200 that
    carries the identifier made for this call. *)
Theorem X26_handleReport_always_answers (request : request_json) (origin : string)
    (now : N) (rand36 date iso : string) (kv : gmap string kv_entry) :
  exists resp,
    fst (handleReport request origin now rand36 date iso kv) = Some resp
    /\ ((status resp = 500%Z /\ body resp = Failure "Failed to process report")
        \/ (status resp = 200%Z /\ response_id resp = Some (reportId now rand36))).
Proof.
  destruct request as [| | report];
    try (exists failure; split; [reflexivity | left; split; reflexivity]).
  destruct report as [type [location |] timestamp image address source];
    [| exists failure; split; [reflexivity | left; split; reflexivity]].
  destruct location as [[la |] [ln |] accuracy], address as [address |];
    try (exists failure; split; [reflexivity | left; split; reflexivity]).
  destruct (handleReport_after_put origin now rand36 date iso kv
              (mkReport type (Some (mkLocation (Some la) (Some ln) accuracy))
                 timestamp image (Some address) source)
              _ la ln address eq_refl eq_refl eq_refl eq_refl)
    as (letter & _ & Hrun).
  rewrite Hrun. cbn [fst].
  destruct (mailtoUrl _ _ letter) as [mail |];
    eexists; (split; [reflexivity |]);
    [right; split; reflexivity | left; split; reflexivity].
Qed.
